(** * Lead management: import pipeline, lead model, lead controller, field mapper

    A shallow embedding of
      - backend/src/models/Lead.ts                 (schema, pre-save hook, unique indexes,
                                                    findDuplicates, addNote)
      - backend/src/controllers/excelController.ts (validateAndNormalizeLeadRow, importFromExcel,
                                                    the data of getImportTemplate)
      - backend/src/controllers/leadController.ts  (createLead, updateLead, getLeadById,
                                                    deleteLead, assignLeads, addNote;
                                                    src/unnamed/part_006)
      - frontend/src/pages/SmartImportLeads.tsx    (initializeFieldMappings, updateFieldMapping,
                                                    addFieldMapping, removeFieldMapping,
                                                    validateMappings)
      - frontend/src/pages/AddLead.tsx             (validateForm; src/unnamed/part_001)

    JavaScript strings are modelled as [string] (sequences of 8-bit code
    units); case mapping and white space are the ASCII ones.  Spreadsheet
    cells are read with [raw: false], so a cell is either absent
    ([undefined], here [None]) or a string.  The MongoDB collection is an
    explicit store threaded through every operation.  A lead is named by
    an identifier the collection can hold; where a statement depends on
    it, a request parameter that is no ObjectId is a case of its own
    ([Endpoints.Param]).  [new ObjectId(s)], whose answer depends on the
    driver, is a parameter of the operations that call it. *)

From Stdlib Require Import String Ascii List Bool Arith Lia.
From Stdlib Require Import DecimalString.
Import ListNotations.

Local Open Scope string_scope.
Local Open Scope list_scope.
Local Open Scope nat_scope.

Set Implicit Arguments.

(** String concatenation (JavaScript [+] and template literals). *)
Infix "+++" := String.append (right associativity, at level 60).

(* ================================================================== *)
(** ** JavaScript string primitives *)
(* ================================================================== *)

Module Js.

(** [\s] restricted to ASCII: TAB, LF, VT, FF, CR and SPACE. *)
Definition is_space (c : ascii) : bool :=
  let n := nat_of_ascii c in
  ((9 <=? n) && (n <=? 13)) || (n =? 32).

Definition lower_char (c : ascii) : ascii :=
  let n := nat_of_ascii c in
  if (65 <=? n) && (n <=? 90) then ascii_of_nat (n + 32) else c.

(** [String.prototype.toLowerCase] *)
Fixpoint toLowerCase (s : string) : string :=
  match s with
  | EmptyString => EmptyString
  | String c r => String (lower_char c) (toLowerCase r)
  end.

Fixpoint trimStart (s : string) : string :=
  match s with
  | EmptyString => EmptyString
  | String c r => if is_space c then trimStart r else s
  end.

Definition is_empty (s : string) : bool :=
  match s with EmptyString => true | _ => false end.

Fixpoint trimEnd (s : string) : string :=
  match s with
  | EmptyString => EmptyString
  | String c r =>
      let r' := trimEnd r in
      if is_space c && is_empty r' then EmptyString else String c r'
  end.

(** [String.prototype.trim] *)
Definition trim (s : string) : string := trimEnd (trimStart s).

(** [String.prototype.includes] *)
Fixpoint includes (s sub : string) : bool :=
  prefix sub s ||
  match s with
  | EmptyString => false
  | String _ r => includes r sub
  end.

(** [Array.prototype.join] *)
Definition join (sep : string) (l : list string) : string := String.concat sep l.

(** [Array.prototype.includes] on an array of strings *)
Definition mem (x : string) (l : list string) : bool := existsb (String.eqb x) l.

(** Truthiness of a value that is a string or [undefined]. *)
Definition truthy (v : option string) : bool :=
  match v with
  | Some s => negb (is_empty s)
  | None => false
  end.

(** Template-literal rendering of a non-negative integer. *)
Definition of_nat (n : nat) : string := NilZero.string_of_uint (Nat.to_uint n).

(** [Array.prototype.findIndex]; [None] stands for the result [-1]. *)
Fixpoint findIndex {A} (p : A -> bool) (l : list A) : option nat :=
  match l with
  | [] => None
  | x :: r => if p x then Some 0 else option_map S (findIndex p r)
  end.

End Js.

(* ================================================================== *)
(** ** Regular expressions (anchored, as used with [^...$] and [test]) *)
(* ================================================================== *)

Module Regex.

Inductive re : Type :=
| Void
| Eps
| Class (p : ascii -> bool)
| Cat (r1 r2 : re)
| Alt (r1 r2 : re)
| Star (r : re).

Definition Plus (r : re) : re := Cat r (Star r).
Definition Opt (r : re) : re := Alt Eps r.

(** [r{lo,lo+extra}] *)
Fixpoint AtMost (extra : nat) (r : re) : re :=
  match extra with
  | 0 => Eps
  | S k => Opt (Cat r (AtMost k r))
  end.

Fixpoint Repeat (lo extra : nat) (r : re) : re :=
  match lo with
  | 0 => AtMost extra r
  | S k => Cat r (Repeat k extra r)
  end.

Fixpoint nullable (r : re) : bool :=
  match r with
  | Void => false
  | Eps => true
  | Class _ => false
  | Cat a b => nullable a && nullable b
  | Alt a b => nullable a || nullable b
  | Star _ => true
  end.

Fixpoint deriv (c : ascii) (r : re) : re :=
  match r with
  | Void => Void
  | Eps => Void
  | Class p => if p c then Eps else Void
  | Cat a b =>
      if nullable a then Alt (Cat (deriv c a) b) (deriv c b)
      else Cat (deriv c a) b
  | Alt a b => Alt (deriv c a) (deriv c b)
  | Star a => Cat (deriv c a) (Star a)
  end.

(** [/^r$/.test(s)] *)
Fixpoint test (r : re) (s : string) : bool :=
  match s with
  | EmptyString => nullable r
  | String c s' => test (deriv c r) s'
  end.

Definition chr (a : ascii) : re := Class (Ascii.eqb a).
Definition is_digit (c : ascii) : bool :=
  let n := nat_of_ascii c in (48 <=? n) && (n <=? 57).

End Regex.

(* ================================================================== *)
(** ** models/Lead.ts *)
(* ================================================================== *)

Module Lead.

Definition sourceEnum : list string :=
  ["Website"; "Social Media"; "Referral"; "Import"; "Manual"; "Cold Call"; "Email Campaign"].
Definition statusEnum : list string :=
  ["New"; "Contacted"; "Interested"; "Not Interested"; "Follow-up"; "Qualified";
   "Proposal Sent"; "Negotiating"; "Closed-Won"; "Closed-Lost"].
Definition priorityEnum : list string := ["High"; "Medium"; "Low"].

(** [/^[^\s@]+@[^\s@]+\.[^\s@]+$/] *)
Definition emailRegex : Regex.re :=
  let notSpaceAt := Regex.Class (fun c => negb (Js.is_space c || Ascii.eqb c "@")) in
  Regex.Cat (Regex.Plus notSpaceAt)
    (Regex.Cat (Regex.chr "@")
       (Regex.Cat (Regex.Plus notSpaceAt)
          (Regex.Cat (Regex.chr ".") (Regex.Plus notSpaceAt)))).

(** [/^[\+]?[\d\s\-\(\)\.]{7,25}$/] *)
Definition phoneRegex : Regex.re :=
  let body := Regex.Class (fun c =>
    Regex.is_digit c || Js.is_space c || Ascii.eqb c "-" || Ascii.eqb c "("
    || Ascii.eqb c ")" || Ascii.eqb c ".") in
  Regex.Cat (Regex.Opt (Regex.chr "+")) (Regex.Repeat 7 18 body).

Record Note : Type := mkNote {
  note_id : string;
  content : string;
  createdBy : string
}.

(** A stored lead document. *)
Record t : Type := mk {
  _id : nat;
  name : string;
  email : string;
  phone : string;
  company : option string;
  position : option string;
  source : string;
  status : string;
  priority : string;
  assignedTo : option string;
  assignedBy : option string;
  notes : list Note;
  leadScore : nat
}.

Definition set_leadScore (n : nat) (d : t) : t :=
  mk (_id d) (name d) (email d) (phone d) (company d) (position d) (source d)
     (status d) (priority d) (assignedTo d) (assignedBy d) (notes d) n.

Definition set_id (i : nat) (d : t) : t :=
  mk i (name d) (email d) (phone d) (company d) (position d) (source d)
     (status d) (priority d) (assignedTo d) (assignedBy d) (notes d) (leadScore d).

(** The table of the pre-save hook. *)
Definition scoreMap : list (string * nat) :=
  [("New", 20); ("Contacted", 30); ("Interested", 50); ("Not Interested", 10);
   ("Follow-up", 40); ("Qualified", 70); ("Proposal Sent", 80); ("Negotiating", 90);
   ("Closed-Won", 100); ("Closed-Lost", 0)].

(** [scoreMap[key]]: the value, or [undefined]. *)
Fixpoint lookup (key : string) (m : list (string * nat)) : option nat :=
  match m with
  | [] => None
  | (k, v) :: r => if String.eqb k key then Some v else lookup key r
  end.

(** JavaScript [x || d] on a number or [undefined]: [0] and [undefined]
    are falsy. *)
Definition or_default (x : option nat) (d : nat) : nat :=
  match x with
  | Some 0 => d
  | Some n => n
  | None => d
  end.

(** [leadSchema.pre('save', ...)] (Lead.ts, lines 286-304);
    [statusModified] is [this.isModified('status')]. *)
Definition preSave (statusModified : bool) (d : t) : t :=
  if statusModified
  then set_leadScore (or_default (lookup (status d) scoreMap) 50) d
  else d.

End Lead.

(* ================================================================== *)
(** ** The lead collection: Mongoose documents over a MongoDB store *)
(* ================================================================== *)

Module Store.

(** The collection, and the next fresh [ObjectId]. *)
Record t : Type := mk {
  docs : list Lead.t;
  nextId : nat
}.

Inductive SaveError : Type :=
| ValidationError (failures : list (string * string))
| DuplicateKey (field value : string).

Definition dquote : string := String (ascii_of_nat 34) EmptyString.

(** [error.message] of a rejected [save()]. *)
Definition error_message (e : SaveError) : string :=
  match e with
  | ValidationError fs =>
      "Lead validation failed: " +++
      Js.join ", " (map (fun pm => fst pm +++ ": " +++ snd pm) fs)
  | DuplicateKey f v =>
      "E11000 duplicate key error collection: leads index: " +++ f +++
      "_1 dup key: { " +++ f +++ ": " +++ dquote +++ v +++ dquote +++ " }"
  end.

(** The object handed to [new Lead({...})]; an absent key is [None]. *)
Record Input : Type := mkInput {
  in_name : option string;
  in_email : option string;
  in_phone : option string;
  in_company : option string;
  in_position : option string;
  in_source : option string;
  in_status : option string;
  in_priority : option string;
  in_assignedBy : option string
}.

Definition or_else (v : option string) (d : string) : string :=
  match v with Some s => s | None => d end.

(** Schema setters: [trim: true] and [lowercase: true]. *)
Definition set_trim (s : string) : string := Js.trim s.
Definition set_email (s : string) : string := Js.trim (Js.toLowerCase s).

(** [new Lead(input)]: setters and schema defaults.  A missing required
    string is represented by the empty string, which the [required]
    validator rejects exactly like [undefined]. *)
Definition construct (id : nat) (i : Input) : Lead.t :=
  Lead.mk id
    (set_trim (or_else (in_name i) ""))
    (set_email (or_else (in_email i) ""))
    (set_trim (or_else (in_phone i) ""))
    (option_map set_trim (in_company i))
    (option_map set_trim (in_position i))
    (or_else (in_source i) "Manual")
    (or_else (in_status i) "New")
    (or_else (in_priority i) "Medium")
    None
    (in_assignedBy i)
    []
    50.

Definition check (ok : bool) (path msg : string) : list (string * string) :=
  if ok then [] else [(path, msg)].

(** First failing validator of a path, in schema order. *)
Definition first_failure (l : list (list (string * string))) : list (string * string) :=
  match concat l with
  | [] => []
  | f :: _ => [f]
  end.

Definition too_long (v : option string) : bool :=
  match v with Some s => 100 <? String.length s | None => false end.

(** [leadNoteSchema] (Lead.ts, lines 4-24): the setter trims the content
    of a note that is pushed. *)
Definition cast_note (n : Lead.Note) : Lead.Note :=
  Lead.mkNote (Lead.note_id n) (set_trim (Lead.content n)) (Lead.createdBy n).

Definition note_path (i : nat) (field : string) : string :=
  "notes." +++ Js.of_nat i +++ "." +++ field.

(** The validators of the note at index [i]: the content is required and
    at most 1000 characters, [createdBy] is required. *)
Definition note_failures (i : nat) (n : Lead.Note) : list (string * string) :=
  first_failure
    [ check (negb (Js.is_empty (Lead.content n))) (note_path i "content")
            "Note content is required";
      check (String.length (Lead.content n) <=? 1000) (note_path i "content")
            "Note cannot exceed 1000 characters" ]
  ++ check (negb (Js.is_empty (Lead.createdBy n))) (note_path i "createdBy")
           "Path `createdBy` is required.".

Fixpoint notes_failures (i : nat) (notes : list Lead.Note) : list (string * string) :=
  match notes with
  | [] => []
  | n :: rest => note_failures i n ++ notes_failures (S i) rest
  end.

(** Schema validation run by [save()]. *)
Definition validate (d : Lead.t) : list (string * string) :=
  first_failure
    [ check (negb (Js.is_empty (Lead.name d))) "name" "Name is required";
      check (2 <=? String.length (Lead.name d)) "name" "Name must be at least 2 characters long";
      check (String.length (Lead.name d) <=? 100) "name" "Name cannot exceed 100 characters" ]
  ++ first_failure
    [ check (negb (Js.is_empty (Lead.email d))) "email" "Email is required";
      check (Regex.test Lead.emailRegex (Lead.email d)) "email" "Please enter a valid email address" ]
  ++ first_failure
    [ check (negb (Js.is_empty (Lead.phone d))) "phone" "Phone is required";
      check (Regex.test Lead.phoneRegex (Lead.phone d)) "phone" "Please enter a valid phone number" ]
  ++ check (negb (too_long (Lead.company d))) "company" "Company name cannot exceed 100 characters"
  ++ check (negb (too_long (Lead.position d))) "position" "Position cannot exceed 100 characters"
  ++ check (Js.mem (Lead.source d) Lead.sourceEnum) "source" "`Source` is not a valid enum value"
  ++ check (Js.mem (Lead.status d) Lead.statusEnum) "status" "`Status` is not a valid enum value"
  ++ check (Js.mem (Lead.priority d) Lead.priorityEnum) "priority" "`Priority` is not a valid enum value"
  ++ check (Lead.leadScore d <=? 100) "leadScore" "Path `leadScore` is more than maximum allowed value"
  ++ notes_failures 0 (Lead.notes d).

(** The unique indexes [{ email: 1 }] and [{ phone: 1 }] (Lead.ts, lines
    39, 49 and 307-308): the first index an insertion or update of [d]
    would violate among [others]. *)
Definition unique_violation (d : Lead.t) (others : list Lead.t) : option SaveError :=
  if existsb (fun o => String.eqb (Lead.email o) (Lead.email d)) others
  then Some (DuplicateKey "email" (Lead.email d))
  else if existsb (fun o => String.eqb (Lead.phone o) (Lead.phone d)) others
  then Some (DuplicateKey "phone" (Lead.phone d))
  else None.

(** [await doc.save()] on a document that is new: validation, the
    pre-save hook, then the insertion, which the unique indexes may
    reject.  A rejected save leaves the collection as it was. *)
Definition save_new (statusModified : bool) (d : Lead.t) (s : t)
  : SaveError + (Lead.t * t) :=
  match validate d with
  | (_ :: _) as fs => inl (ValidationError fs)
  | [] =>
      let d' := Lead.preSave statusModified d in
      match unique_violation d' (docs s) with
      | Some e => inl e
      | None => inr (d', mk (docs s ++ [d']) (S (nextId s)))
      end
  end.

(** [new Lead(input)] followed by [save()]. *)
Definition create (i : Input) (s : t) : SaveError + (Lead.t * t) :=
  save_new (match in_status i with Some _ => true | None => false end)
           (construct (nextId s) i) s.

Definition others (id : nat) (l : list Lead.t) : list Lead.t :=
  filter (fun o => negb (Lead._id o =? id)) l.

Fixpoint replace (d : Lead.t) (l : list Lead.t) : list Lead.t :=
  match l with
  | [] => []
  | o :: r => if Lead._id o =? Lead._id d then d :: r else o :: replace d r
  end.

(** [await doc.save()] on a document loaded from the collection. *)
Definition save_existing (statusModified : bool) (d : Lead.t) (s : t)
  : SaveError + (Lead.t * t) :=
  match validate d with
  | (_ :: _) as fs => inl (ValidationError fs)
  | [] =>
      let d' := Lead.preSave statusModified d in
      match unique_violation d' (others (Lead._id d) (docs s)) with
      | Some e => inl e
      | None => inr (d', mk (replace d' (docs s)) (nextId s))
      end
  end.

(** [Lead.findOne(filter)] *)
Definition findOne (p : Lead.t -> bool) (s : t) : option Lead.t := find p (docs s).

(** [Lead.findById(id)] *)
Definition findById (id : nat) (s : t) : option Lead.t :=
  findOne (fun d => Lead._id d =? id) s.

(** [Lead.find({ email: { $in: emails } }).select('email')] *)
Definition find_emails_in (emails : list string) (s : t) : list string :=
  map Lead.email (filter (fun d => Js.mem (Lead.email d) emails) (docs s)).

(** [leadSchema.statics.getDuplicateError] (Lead.ts, lines 327-340) *)
Definition getDuplicateError (e : SaveError) : option string :=
  match e with
  | DuplicateKey f v =>
      if String.eqb f "email"
      then Some ("A lead with email " +++ dquote +++ v +++ dquote +++ " already exists")
      else if String.eqb f "phone"
      then Some ("A lead with phone number " +++ dquote +++ v +++ dquote +++ " already exists")
      else Some "A lead with this information already exists"
  | ValidationError _ => None
  end.

End Store.

(* ================================================================== *)
(** ** controllers/excelController.ts *)
(* ================================================================== *)

(** [ExcelLeadRow]: the seven cells of one data row. *)
Module Row.
Record t : Type := mk {
  name : option string;
  email : option string;
  phone : option string;
  company : option string;
  position : option string;
  source : option string;
  priority : option string
}.
End Row.

(** One entry of the report's [errors] array. *)
Module Err.
Record t : Type := mk {
  row : nat;
  field : string;
  message : string
}.
End Err.

(** The normalized lead object built by the validator. *)
Module LeadData.
Record t : Type := mk {
  name : string;
  email : string;
  phone : string;
  company : string;
  position : string;
  source : string;
  priority : string;
  status : string
}.
End LeadData.

Module Excel.

Definition validSources : list string :=
  ["Website"; "Social Media"; "Referral"; "Import"; "Manual"; "Cold Call"; "Email Campaign"].
Definition validPriorities : list string := ["High"; "Medium"; "Low"].

Definition emailRegex : Regex.re := Lead.emailRegex.

Record Validation : Type := mkValidation {
  isValid : bool;
  lead : option LeadData.t;
  errors : list Err.t
}.

Definition is_string (v : option string) : bool :=
  match v with Some _ => true | None => false end.

Definition str (v : option string) : string :=
  match v with Some s => s | None => "" end.

(** [!v || typeof v !== 'string' || v.trim().length === 0] *)
Definition missing (v : option string) : bool :=
  negb (Js.truthy v) || negb (is_string v) || (String.length (Js.trim (str v)) =? 0).

(** [v && typeof v === 'string'] *)
Definition supplied (v : option string) : bool := Js.truthy v && is_string v.

Definition sourceMessage : string :=
  "Invalid source. Must be one of: " +++ Js.join ", " validSources.
Definition priorityMessage : string :=
  "Invalid priority. Must be one of: " +++ Js.join ", " validPriorities.

Definition nameErrors (row : Row.t) (rowIndex : nat) : list Err.t :=
  if missing (Row.name row) then [Err.mk rowIndex "name" "Name is required"] else [].

Definition emailErrors (row : Row.t) (rowIndex : nat) : list Err.t :=
  if missing (Row.email row) then [Err.mk rowIndex "email" "Email is required"]
  else if negb (Regex.test emailRegex (Js.trim (str (Row.email row))))
  then [Err.mk rowIndex "email" "Invalid email format"]
  else [].

Definition phoneErrors (row : Row.t) (rowIndex : nat) : list Err.t :=
  if missing (Row.phone row) then [Err.mk rowIndex "phone" "Phone is required"] else [].

(** The value chosen for an enumerated field, and the error pushed. *)
Definition enumField (v : option string) (valid : list string) (default : string)
           (e : Err.t) : string * list Err.t :=
  if supplied v then
    let normalized := Js.trim (str v) in
    if Js.mem normalized valid then (normalized, []) else (default, [e])
  else (default, []).

Definition sourceField (row : Row.t) (rowIndex : nat) : string * list Err.t :=
  enumField (Row.source row) validSources "Import"
            (Err.mk rowIndex "source" sourceMessage).

Definition priorityField (row : Row.t) (rowIndex : nat) : string * list Err.t :=
  enumField (Row.priority row) validPriorities "Medium"
            (Err.mk rowIndex "priority" priorityMessage).

Definition optionalText (v : option string) : string :=
  if supplied v then Js.trim (str v) else "".

(** [validateAndNormalizeLeadRow] (excelController.ts, lines 18-94) *)
Definition validateAndNormalizeLeadRow (row : Row.t) (rowIndex : nat) : Validation :=
  let errors :=
    nameErrors row rowIndex ++ emailErrors row rowIndex ++ phoneErrors row rowIndex
    ++ snd (sourceField row rowIndex) ++ snd (priorityField row rowIndex) in
  match errors with
  | _ :: _ => mkValidation false None errors
  | [] =>
      mkValidation true
        (Some (LeadData.mk
                 (Js.trim (str (Row.name row)))
                 (Js.toLowerCase (Js.trim (str (Row.email row))))
                 (Js.trim (str (Row.phone row)))
                 (optionalText (Row.company row))
                 (optionalText (Row.position row))
                 (fst (sourceField row rowIndex))
                 (fst (priorityField row rowIndex))
                 "New"))
        []
  end.

(** *** The upload and the parsed workbook *)

Definition Cell : Type := option string.
Definition Sheet : Type := list (list Cell).

(** What [XLSX.read] / [XLSX.readFile] make of the uploaded file. *)
Inductive Parsed : Type :=
| Unreadable
| Workbook (sheets : list (string * Sheet)).

Record UploadedFile : Type := mkFile {
  originalname : string;
  parsed : Parsed
}.

Record Request : Type := mkRequest {
  file : option UploadedFile;
  userId : option string
}.

(** [data] of the response. *)
Record Data : Type := mkData {
  totalRows : nat;
  successfulImports : nat;
  failedImports : nat;
  rowErrors : list Err.t;
  leads : list Lead.t
}.

Record Response : Type := mkResponse {
  statusCode : nat;
  success : bool;
  responseMessage : string;
  topErrors : list string;
  data : Data
}.

Definition emptyData : Data := mkData 0 0 0 [] [].

(** [rowArray[k]] *)
Definition cell (rowArray : list Cell) (k : nat) : Cell := nth k rowArray None.

Definition toRow (rowArray : list Cell) : Row.t :=
  Row.mk (cell rowArray 0) (cell rowArray 1) (cell rowArray 2) (cell rowArray 3)
         (cell rowArray 4) (cell rowArray 5) (cell rowArray 6).

(** [sheet_to_json(...).slice(1).map(...).filter(row => row.name || row.email)]
    (lines 170-186) *)
Definition jsonData (sheet : Sheet) : list Row.t :=
  filter (fun row => Js.truthy (Row.name row) || Js.truthy (Row.email row))
         (map toRow (skipn 1 sheet)).

(** The validation loop (lines 194-202), started at index [i]: the valid
    leads and the errors, both in row order. *)
Fixpoint validateRows (rows : list Row.t) (i : nat) : list LeadData.t * list Err.t :=
  match rows with
  | [] => ([], [])
  | r :: rest =>
      let validation := validateAndNormalizeLeadRow r (i + 2) in
      let '(validLeads, errors) := validateRows rest (S i) in
      match isValid validation, lead validation with
      | true, Some l => (l :: validLeads, errors)
      | _, _ => (validLeads, Excel.errors validation ++ errors)
      end
  end.

(** [Map<string, number[]>], in insertion order. *)
Definition EmailMap : Type := list (string * list nat).

Fixpoint emailMap_get (m : EmailMap) (email : string) : option (list nat) :=
  match m with
  | [] => None
  | (k, v) :: r => if String.eqb k email then Some v else emailMap_get r email
  end.

(** [if (!m.has(email)) m.set(email, []); m.get(email).push(index)] *)
Fixpoint emailMap_push (m : EmailMap) (email : string) (index : nat) : EmailMap :=
  match m with
  | [] => [(email, [index])]
  | (k, v) :: r =>
      if String.eqb k email then (k, v ++ [index]) :: r
      else (k, v) :: emailMap_push r email index
  end.

(** [validLeads.forEach((lead, index) => ...)] (lines 206-211), from
    index [i] on. *)
Fixpoint buildEmailMap (m : EmailMap) (i : nat) (validLeads : list LeadData.t) : EmailMap :=
  match validLeads with
  | [] => m
  | l :: rest => buildEmailMap (emailMap_push m (LeadData.email l) i) (S i) rest
  end.

(** [emailMap.forEach((indices, email) => ...)] (lines 214-224) *)
Definition duplicateErrors (m : EmailMap) : list Err.t :=
  flat_map (fun entry =>
    let '(email, indices) := entry in
    if 1 <? List.length indices
    then map (fun index =>
                Err.mk (index + 2) "email" ("Duplicate email within file: " +++ email))
             (skipn 1 indices)
    else []) m.

(** [validLeads.filter((lead, index) => ...)] (lines 227-230), from
    index [i] on. *)
Fixpoint filterFirst (m : EmailMap) (i : nat) (validLeads : list LeadData.t)
  : list LeadData.t :=
  match validLeads with
  | [] => []
  | l :: rest =>
      let emailIndices :=
        match emailMap_get m (LeadData.email l) with Some v => v | None => [] end in
      let keep := match emailIndices with j :: _ => j =? i | [] => false end in
      if keep then l :: filterFirst m (S i) rest else filterFirst m (S i) rest
  end.

Definition uniqueValidLeads (validLeads : list LeadData.t) : list LeadData.t :=
  filterFirst (buildEmailMap [] 0 validLeads) 0 validLeads.

(** [validLeads.findIndex(l => l.email === leadData.email) + 2];
    [findIndex] answers [-1] when nothing is found. *)
Definition originalRow (validLeads : list LeadData.t) (leadData : LeadData.t) : nat :=
  match Js.findIndex (fun l => String.eqb (LeadData.email l) (LeadData.email leadData))
                     validLeads with
  | Some originalIndex => originalIndex + 2
  | None => 1
  end.

(** [{ ...leadData, assignedBy: req.user?.userId }] *)
Definition toInput (leadData : LeadData.t) (assignedBy : option string) : Store.Input :=
  Store.mkInput (Some (LeadData.name leadData)) (Some (LeadData.email leadData))
                (Some (LeadData.phone leadData)) (Some (LeadData.company leadData))
                (Some (LeadData.position leadData)) (Some (LeadData.source leadData))
                (Some (LeadData.status leadData)) (Some (LeadData.priority leadData))
                assignedBy.

(** The loop [for (const leadData of uniqueValidLeads)] (lines 240-269):
    the errors pushed, the leads created, and the collection afterwards. *)
Fixpoint processLeads (assignedBy : option string) (validLeads : list LeadData.t)
         (existingEmailSet : list string) (todo : list LeadData.t) (db : Store.t)
  : list Err.t * list Lead.t * Store.t :=
  match todo with
  | [] => ([], [], db)
  | leadData :: rest =>
      if Js.mem (LeadData.email leadData) existingEmailSet then
        let '(errors, created, db') :=
          processLeads assignedBy validLeads existingEmailSet rest db in
        (Err.mk (originalRow validLeads leadData) "email"
                ("Lead with email " +++ LeadData.email leadData +++
                 " already exists in database") :: errors,
         created, db')
      else
        match Store.create (toInput leadData assignedBy) db with
        | inr (doc, db1) =>
            let '(errors, created, db') :=
              processLeads assignedBy validLeads existingEmailSet rest db1 in
            (errors, doc :: created, db')
        | inl createError =>
            let '(errors, created, db') :=
              processLeads assignedBy validLeads existingEmailSet rest db in
            (Err.mk (originalRow validLeads leadData) "database"
                    (Store.error_message createError) :: errors,
             created, db')
        end
  end.

Definition failure (code : nat) (msg : string) (errs : list string) : Response :=
  mkResponse code false msg errs emptyData.

(** Everything after the worksheet has been read (lines 167-286). *)
Definition importSheet (assignedBy : option string) (sheet : Sheet) (db : Store.t)
  : Response * Store.t :=
  let rows := jsonData sheet in
  let totalRows := List.length rows in
  let '(validLeads, errors1) := validateRows rows 0 in
  let emailMap := buildEmailMap [] 0 validLeads in
  let errors2 := duplicateErrors emailMap in
  let unique := uniqueValidLeads validLeads in
  let existingEmailSet := Store.find_emails_in (map LeadData.email unique) db in
  let '(errors3, createdLeads, db') :=
    processLeads assignedBy validLeads existingEmailSet unique db in
  (mkResponse 200 true
     ("Import completed. " +++ Js.of_nat (List.length createdLeads) +++
      " leads imported successfully.")
     []
     (mkData totalRows (List.length createdLeads)
             (totalRows - List.length createdLeads)
             (errors1 ++ errors2 ++ errors3) createdLeads),
   db').

(** [importFromExcel] (lines 96-309).  [queryFails] says that [Lead.find] rejects
    (the database cannot be reached), which the outer [catch] turns
    into the 500 response. *)
Definition importFromExcel (queryFails : bool) (req : Request) (db : Store.t)
  : Response * Store.t :=
  match file req with
  | None => (failure 400 "No file uploaded" [], db)
  | Some uploadedFile =>
      match parsed uploadedFile with
      | Unreadable =>
          (failure 400 "Failed to read the uploaded file"
                   ["The file appears to be corrupted or in an unsupported format"], db)
      | Workbook sheets =>
          match sheets with
          | [] => (failure 400 "No worksheets found in the file" [], db)
          | (sheetName, worksheet) :: _ =>
              if Js.is_empty sheetName
              then (failure 400 "No worksheets found in the file" [], db)
              else if queryFails
              then (failure 500 "Failed to process Excel file"
                            ["Database query failed"], db)
              else importSheet (userId req) worksheet db
          end
      end
  end.

End Excel.

(* ================================================================== *)
(** ** Auxiliary notions used in the statements *)
(* ================================================================== *)

(** [lead.status = st] *)
Definition set_status (st : string) (d : Lead.t) : Lead.t :=
  Lead.mk (Lead._id d) (Lead.name d) (Lead.email d) (Lead.phone d) (Lead.company d)
          (Lead.position d) (Lead.source d) st (Lead.priority d) (Lead.assignedTo d)
          (Lead.assignedBy d) (Lead.notes d) (Lead.leadScore d).

(** The string does not start with white space. *)
Definition no_leading_space (s : string) : Prop :=
  match s with
  | EmptyString => True
  | String c _ => Js.is_space c = false
  end.

(* ================================================================== *)
(** ** controllers/leadController.ts *)
(* ================================================================== *)

Module Controller.

Record User : Type := mkUser {
  userId : string;
  role : string
}.

(** [CreateLeadInput] as it arrives in the request body. *)
Record CreateLeadInput : Type := mkCreate {
  c_name : option string;
  c_email : option string;
  c_phone : option string;
  c_company : option string;
  c_position : option string;
  c_source : option string;
  c_priority : option string;
  c_notes : option string
}.

(** [UpdateLeadInput] *)
Record UpdateLeadInput : Type := mkUpdate {
  u_name : option string;
  u_email : option string;
  u_phone : option string;
  u_company : option string;
  u_position : option string;
  u_source : option string;
  u_status : option string;
  u_priority : option string
}.

Record Response : Type := mkResponse {
  statusCode : nat;
  success : bool;
  message : string;
  errors : list string;
  lead : option Lead.t
}.

Definition str (v : option string) : string :=
  match v with Some s => s | None => "" end.

(** [requiredFields.filter(field => !leadData[field])] *)
Definition missingFields (leadData : CreateLeadInput) : list string :=
  (if Js.truthy (c_name leadData) then [] else ["name"]) ++
  (if Js.truthy (c_email leadData) then [] else ["email"]) ++
  (if Js.truthy (c_phone leadData) then [] else ["phone"]).

Definition duplicateEmail (given : string) (existing : Lead.t) : Response :=
  mkResponse 400 false "Duplicate lead detected"
    ["A lead with email " +++ Store.dquote +++ given +++ Store.dquote +++ " already exists"]
    (Some existing).

Definition duplicatePhone (given : string) (existing : Lead.t) : Response :=
  mkResponse 400 false "Duplicate lead detected"
    ["A lead with phone number " +++ Store.dquote +++ given +++ Store.dquote +++
     " already exists"]
    (Some existing).

(** The [catch] block shared by [createLead] and [updateLead]. *)
Definition caught (failedMessage : string) (e : Store.SaveError) : Response :=
  match Store.getDuplicateError e with
  | Some duplicateError =>
      mkResponse 400 false "Duplicate lead detected" [duplicateError] None
  | None => mkResponse 500 false failedMessage [Store.error_message e] None
  end.

(** [lead.notes.push(n)]: the note is cast to the note schema. *)
Definition push_note (n : Lead.Note) (d : Lead.t) : Lead.t :=
  Lead.mk (Lead._id d) (Lead.name d) (Lead.email d) (Lead.phone d) (Lead.company d)
          (Lead.position d) (Lead.source d) (Lead.status d) (Lead.priority d)
          (Lead.assignedTo d) (Lead.assignedBy d)
          (Lead.notes d ++ [Store.cast_note n]) (Lead.leadScore d).

(** The initial note of [createLead] (lines 232-241), pushed when the
    body has notes.  [objectId] is [new mongoose.Types.ObjectId(s)]
    rendered as the string the note stores: the identifier, or the message
    of the error it throws. *)
Definition withInitialNote (objectId : string -> string + string) (user : option User)
           (leadData : CreateLeadInput) (noteId : string) (lead0 : Lead.t)
  : string + Lead.t :=
  if Js.truthy (c_notes leadData)
  then match objectId (str (option_map userId user)) with
       | inr createdBy =>
           inr (push_note (Lead.mkNote noteId (str (c_notes leadData)) createdBy) lead0)
       | inl thrown => inl thrown
       end
  else inr lead0.

(** [createLead] (leadController.ts, lines 170-273) *)
Definition createLead (objectId : string -> string + string) (user : option User)
           (leadData : CreateLeadInput) (db : Store.t) : Response * Store.t :=
  match missingFields leadData with
  | (_ :: _) as missing =>
      (mkResponse 400 false "Missing required fields"
         ["Required fields: " +++ Js.join ", " missing] None, db)
  | [] =>
      let email := str (c_email leadData) in
      let phone := str (c_phone leadData) in
      match Store.findOne
              (fun d => String.eqb (Lead.email d) (Js.trim (Js.toLowerCase email))) db with
      | Some existingEmail => (duplicateEmail email existingEmail, db)
      | None =>
          match Store.findOne (fun d => String.eqb (Lead.phone d) (Js.trim phone)) db with
          | Some existingPhone => (duplicatePhone phone existingPhone, db)
          | None =>
              let lead0 :=
                Store.construct (Store.nextId db)
                  (Store.mkInput (c_name leadData) (c_email leadData) (c_phone leadData)
                     (c_company leadData) (c_position leadData) (c_source leadData)
                     None (c_priority leadData) (option_map userId user)) in
              match withInitialNote objectId user leadData
                      (Js.of_nat (Store.nextId db)) lead0 with
              | inl thrown =>
                  (mkResponse 500 false "Failed to create lead" [thrown] None, db)
              | inr lead1 =>
                  match Store.save_new false lead1 db with
                  | inr (saved, db') =>
                      (mkResponse 201 true "Lead created successfully" [] (Some saved),
                       db')
                  | inl e => (caught "Failed to create lead" e, db)
                  end
              end
          end
      end
  end.

(** [String(lead.assignedTo)] *)
Definition String_of (v : option string) : string :=
  match v with Some s => s | None => "undefined" end.

Definition assign (v : option string) (current : string) (setter : string -> string)
  : string :=
  match v with Some s => setter s | None => current end.

Definition assign_opt (v : option string) (current : option string) : option string :=
  match v with Some s => Some (Store.set_trim s) | None => current end.

(** [allowedFields.forEach(field => ...)] on the loaded document. *)
Definition applyUpdate (updateData : UpdateLeadInput) (d : Lead.t) : Lead.t :=
  Lead.mk (Lead._id d)
    (assign (u_name updateData) (Lead.name d) Store.set_trim)
    (assign (u_email updateData) (Lead.email d) Store.set_email)
    (assign (u_phone updateData) (Lead.phone d) Store.set_trim)
    (assign_opt (u_company updateData) (Lead.company d))
    (assign_opt (u_position updateData) (Lead.position d))
    (assign (u_source updateData) (Lead.source d) (fun s => s))
    (assign (u_status updateData) (Lead.status d) (fun s => s))
    (assign (u_priority updateData) (Lead.priority d) (fun s => s))
    (Lead.assignedTo d) (Lead.assignedBy d) (Lead.notes d) (Lead.leadScore d).

(** [updateLead] (leadController.ts, lines 275-386) *)
Definition updateLead (user : User) (id : nat) (updateData : UpdateLeadInput)
           (db : Store.t) : Response * Store.t :=
  match Store.findById id db with
  | None => (mkResponse 404 false "Lead not found" [] None, db)
  | Some lead =>
      if negb (String.eqb (role user) "admin")
         && negb (String.eqb (String_of (Lead.assignedTo lead)) (userId user))
      then (mkResponse 403 false "Access denied" [] None, db)
      else
        let otherWith (p : Lead.t -> bool) :=
          Store.findOne (fun d => p d && negb (Lead._id d =? id)) db in
        let emailClash :=
          if Js.truthy (u_email updateData)
          then otherWith (fun d =>
                 String.eqb (Lead.email d)
                            (Js.trim (Js.toLowerCase (str (u_email updateData)))))
          else None in
        match emailClash with
        | Some existingEmail => (duplicateEmail (str (u_email updateData)) existingEmail, db)
        | None =>
            let phoneClash :=
              if Js.truthy (u_phone updateData)
              then otherWith (fun d =>
                     String.eqb (Lead.phone d) (Js.trim (str (u_phone updateData))))
              else None in
            match phoneClash with
            | Some existingPhone =>
                (duplicatePhone (str (u_phone updateData)) existingPhone, db)
            | None =>
                let updated := applyUpdate updateData lead in
                let statusModified :=
                  negb (String.eqb (Lead.status updated) (Lead.status lead)) in
                match Store.save_existing statusModified updated db with
                | inr (saved, db') =>
                    (mkResponse 200 true "Lead updated successfully" [] (Some saved), db')
                | inl e => (caught "Failed to update lead" e, db)
                end
            end
        end
  end.

End Controller.

(* ================================================================== *)
(** ** pages/SmartImportLeads.tsx: the field mapper *)
(* ================================================================== *)

Module Mapper.

Record LeadFieldDefinition : Type := mkField {
  name : string;
  label : string;
  required : bool;
  options : option (list string);
  defaultValue : option string
}.

Record FieldMapping : Type := mkMapping {
  leadField : string;
  excelColumn : string;
  isRequired : bool;
  mappingDefault : option string
}.

(** The predicate handed to [headers.find]. *)
Definition headerMatches (field : LeadFieldDefinition) (header : string) : bool :=
  let headerLower := Js.trim (Js.toLowerCase header) in
  let fieldLower := Js.toLowerCase (name field) in
  let labelLower := Js.toLowerCase (label field) in
  String.eqb headerLower fieldLower
  || String.eqb headerLower labelLower
  || Js.includes headerLower fieldLower
  || Js.includes fieldLower headerLower.

Definition matchedHeader (field : LeadFieldDefinition) (headers : list string)
  : option string :=
  find (headerMatches field) headers.

(** [initializeFieldMappings] (SmartImportLeads.tsx, lines 146-173) *)
Definition initializeFieldMappings (leadFields : list LeadFieldDefinition)
           (headers : list string) : list FieldMapping :=
  flat_map (fun field =>
    let matched := matchedHeader field headers in
    if Js.truthy matched || required field
    then [mkMapping (name field)
                    (match matched with Some h => h | None => "" end)
                    (required field) (defaultValue field)]
    else []) leadFields.

End Mapper.

(* ================================================================== *)
(** ** Notions used to state the properties of the import *)
(* ================================================================== *)

(** The entries of an error list that name a given field. *)
Definition fieldErrors (field : string) (errs : list Err.t) : list Err.t :=
  filter (fun e => String.eqb (Err.field e) field) errs.

(** The error pushed for a lead whose e-mail is already in the database. *)
Definition duplicateInDatabase (rowNumber : nat) (email : string) : Err.t :=
  Err.mk rowNumber "email" ("Lead with email " +++ email +++ " already exists in database").

(** The error pushed for a later occurrence of an e-mail within the file. *)
Definition duplicateWithinFile (rowNumber : nat) (email : string) : Err.t :=
  Err.mk rowNumber "email" ("Duplicate email within file: " +++ email).

(** Recognizes the duplicate-in-database entries of a report. *)
Definition isDuplicateInDatabase (e : Err.t) : bool :=
  String.eqb (Err.field e) "email" && prefix "Lead with email " (Err.message e).

(* ================================================================== *)
(** ** Concrete inputs *)
(* ================================================================== *)

Module Sample.

Definition c (s : string) : Excel.Cell := Some s.

Definition header : list Excel.Cell :=
  [c "Name"; c "Email"; c "Phone"; c "Company"; c "Position"; c "Source"; c "Priority"].

Definition request (rows : Excel.Sheet) : Excel.Request :=
  Excel.mkRequest
    (Some (Excel.mkFile "leads.csv" (Excel.Workbook [("Sheet1", header :: rows)])))
    (Some "admin-1").

Definition emptyStore : Store.t := Store.mk [] 0.

(** A row whose source differs from an allowed value by case only and
    whose priority matches after trimming. *)
Definition rowLowercaseSource : Row.t :=
  Row.mk (Some "Ann") (Some "ann@x.com") (Some "555-0001") None None
         (Some "website") (Some " High ").

End Sample.

(** The indices, counted from [i], of the leads that carry [email]. *)
Fixpoint indicesOf (email : string) (i : nat) (leads : list LeadData.t) : list nat :=
  match leads with
  | [] => []
  | l :: rest =>
      if String.eqb (LeadData.email l) email
      then i :: indicesOf email (S i) rest
      else indicesOf email (S i) rest
  end.

(** First occurrences, in the spec's words: a lead proceeds when no lead
    before it (those [seen]) carries the same e-mail. *)
Fixpoint keepFirst (seen : list string) (leads : list LeadData.t) : list LeadData.t :=
  match leads with
  | [] => []
  | l :: rest =>
      let later := keepFirst (seen ++ [LeadData.email l]) rest in
      if Js.mem (LeadData.email l) seen then later else l :: later
  end.

(** The address of a row as the validator normalizes it (trimmed, lower case). *)
Definition rowEmail (row : Row.t) : string :=
  Js.toLowerCase (Js.trim (Excel.str (Row.email row))).

(** The normalized form of an e-mail cell. *)
Definition normalizedEmail (l : LeadData.t) : Prop :=
  exists raw, LeadData.email l = Js.toLowerCase (Js.trim raw).

(** The rows of the first worksheet's data, the valid leads among them and
    the leads that reach the persistence loop. *)
Definition validLeadsOf (sheet : Excel.Sheet) : list LeadData.t :=
  fst (Excel.validateRows (Excel.jsonData sheet) 0).

Definition validationErrorsOf (sheet : Excel.Sheet) : list Err.t :=
  snd (Excel.validateRows (Excel.jsonData sheet) 0).

Definition proceedingLeadsOf (sheet : Excel.Sheet) : list LeadData.t :=
  Excel.uniqueValidLeads (validLeadsOf sheet).

(** The persistence loop as [importFromExcel] runs it on a worksheet. *)
Definition loopOf (assignedBy : option string) (sheet : Excel.Sheet) (db : Store.t)
  : list Err.t * list Lead.t * Store.t :=
  Excel.processLeads assignedBy (validLeadsOf sheet)
    (Store.find_emails_in (map LeadData.email (proceedingLeadsOf sheet)) db)
    (proceedingLeadsOf sheet) db.

(** How many entries of a report are duplicate-in-database errors. *)
Definition countDuplicateInDatabase (errs : list Err.t) : nat :=
  List.length (filter isDuplicateInDatabase errs).

(** The worksheet the import works on: the first one of a readable
    workbook; [None] covers the file-level failures (no file, unreadable
    file, no worksheet). *)
Definition firstSheet (req : Excel.Request) : option Excel.Sheet :=
  match Excel.file req with
  | Some uploadedFile =>
      match Excel.parsed uploadedFile with
      | Excel.Workbook ((sheetName, worksheet) :: _) =>
          if Js.is_empty sheetName then None else Some worksheet
      | _ => None
      end
  | None => None
  end.

(** A data row is empty when none of its cells holds text. *)
Definition emptyRow (rowArray : list Excel.Cell) : bool :=
  forallb (fun cell => negb (Js.truthy cell)) rowArray.

Module Inputs.
Import Sample.

(** Two rows that both fail: one without e-mail and phone, one with a
    malformed e-mail. *)
Definition allRowsFail : Excel.Sheet :=
  [ [c "Ann"]; [c "Bo"; c "not-an-email"; c "555-0002"] ].

(** A collection that already holds the lead ann@x.com. *)
Definition annStored : Lead.t :=
  Lead.mk 0 "Ann" "ann@x.com" "555-0001" None None "Manual" "Contacted" "High"
          (Some "user-7") (Some "admin-1") [] 30.

Definition storeWithAnn : Store.t := Store.mk [annStored] 1.

(** A file whose first data row spells Ann's address in capitals. *)
Definition annAgain : Excel.Sheet :=
  [ [c "Ann B."; c " ANN@X.COM "; c "555-0009"]; [c "Bo"; c "bo@x.com"; c "555-0002"] ].

(** The one data row holds nothing but a phone number. *)
Definition phoneOnly : Excel.Sheet := [ [None; None; c "555-0001"] ].

(** Spreadsheet row 2 lacks its e-mail; rows 3 and 4 share bo@x.com. *)
Definition invalidThenTwins : Excel.Sheet :=
  [ [c "Ann"; None; c "555-0001"];
    [c "Bo"; c "bo@x.com"; c "555-0002"];
    [c "Bo2"; c "bo@x.com"; c "555-0003"] ].

(** Spreadsheet row 2 lacks its e-mail; row 3 carries Ann's stored address. *)
Definition invalidThenStored : Excel.Sheet :=
  [ [c "Zed"; None; c "555-0005"]; [c "Ann"; c "ann@x.com"; c "555-0001"] ].

(** Spreadsheet row 2 lacks its e-mail; row 3 has a phone number the
    schema refuses. *)
Definition invalidThenBadPhone : Excel.Sheet :=
  [ [c "Zed"; None; c "555-0005"]; [c "Cy"; c "cy@x.com"; c "555-1"] ].

(** Spreadsheet row 2 holds only a phone number; row 3 lacks its e-mail. *)
Definition droppedThenInvalid : Excel.Sheet :=
  [ [None; None; c "555-0001"]; [c "Zed"; None; c "555-0005"] ].

(** One row that imports and one that does not validate. *)
Definition validAndInvalid : Excel.Sheet :=
  [ [c "Ann"; c "ann@x.com"; c "555-0001"]; [c "Bo"; c "not-an-email"; c "555-0002"] ].

End Inputs.

Module MoreInputs.
Import Sample.

(** Spreadsheet rows 2 and 3 do not validate; rows 4 and 5 share cy@x.com. *)
Definition twoInvalidThenTwins : Excel.Sheet :=
  [ [c "Ann"; None; c "555-0001"];
    [c "Bo"; c "bo-at-x.com"; c "555-0002"];
    [c "Cy"; c "cy@x.com"; c "555-0003"];
    [c "Cy2"; c "CY@x.com"; c "555-0004"] ].

End MoreInputs.

(** The addresses that have an entry in the map. *)
Definition keys (m : Excel.EmailMap) : list string := map fst m.

(** Every entry of the map lists at least one index. *)
Definition populated (m : Excel.EmailMap) : Prop :=
  Forall (fun entry => snd entry <> []) m.

Module Reimported.
Import Sample.

(** Two rows that both import into an empty collection. *)
Definition twoValid : Excel.Sheet :=
  [ [c "Ann"; c "ann@x.com"; c "555-0001"]; [c "Bo"; c "bo@x.com"; c "555-0002"] ].

(** The report of importing [rows] into [db] and then importing them again. *)
Definition secondReport (rows : Excel.Sheet) (db : Store.t) : Excel.Data :=
  let first := Excel.importFromExcel false (request rows) db in
  Excel.data (fst (Excel.importFromExcel false (request rows) (snd first))).

End Reimported.

(* ================================================================== *)
(** ** The uniqueness invariant of the collection *)
(* ================================================================== *)

(** No two leads share an e-mail address. *)
Definition uniqueEmails (s : Store.t) : Prop := NoDup (map Lead.email (Store.docs s)).

(** No two leads share a phone number. *)
Definition uniquePhones (s : Store.t) : Prop := NoDup (map Lead.phone (Store.docs s)).

(** Documents have distinct identifiers, all below the next fresh one. *)
Definition distinctIds (s : Store.t) : Prop :=
  NoDup (map Lead._id (Store.docs s)) /\
  Forall (fun d => Lead._id d < Store.nextId s) (Store.docs s).

Definition invariant (s : Store.t) : Prop :=
  uniqueEmails s /\ uniquePhones s /\ distinctIds s.

(** The answer of the lead controller to a write that collides. *)
Definition duplicateRejection (resp : Controller.Response) : Prop :=
  Controller.statusCode resp = 400 /\ Controller.success resp = false /\
  Controller.message resp = "Duplicate lead detected".

(** Some other lead than [id] carries the address, respectively the number. *)
Definition emailTakenByOther (id : nat) (email : string) (s : Store.t) : Prop :=
  exists o, In o (Store.docs s) /\ Lead._id o <> id /\ Lead.email o = email.

Definition phoneTakenByOther (id : nat) (phone : string) (s : Store.t) : Prop :=
  exists o, In o (Store.docs s) /\ Lead._id o <> id /\ Lead.phone o = phone.

(** [updateLead] lets the user touch the lead. *)
Definition mayUpdate (user : Controller.User) (lead : Lead.t) : Prop :=
  Controller.role user = "admin" \/
  Controller.String_of (Lead.assignedTo lead) = Controller.userId user.

Module Stored.

Definition bo : Lead.t :=
  Lead.mk 1 "Bo" "bo@x.com" "555-0002" None None "Import" "New" "Medium"
          None (Some "admin-1") [] 20.

(** A collection with the two leads ann@x.com and bo@x.com. *)
Definition two : Store.t := Store.mk [Inputs.annStored; bo] 2.

Definition admin : Controller.User := Controller.mkUser "admin-1" "admin".

(** A manual entry that spells Ann's stored address differently. *)
Definition annByHand : Controller.CreateLeadInput :=
  Controller.mkCreate (Some "Ann Again") (Some " Ann@X.com") (Some "555-0100")
                      None None (Some "Manual") (Some "Low") None.

(** An update that would give Bo the address of Ann. *)
Definition boTakesAnn : Controller.UpdateLeadInput :=
  Controller.mkUpdate None (Some "ann@x.com") None None None None None None.

(** A file whose row has a new address and the phone number of Ann. *)
Definition samePhone : Excel.Sheet :=
  [ [Sample.c "Dee"; Sample.c "dee@x.com"; Sample.c "555-0001"] ].

Definition dee : LeadData.t :=
  LeadData.mk "Dee" "dee@x.com" "555-0001" "" "" "Import" "Medium" "New".

(** Updates that only set Bo's status. *)
Definition boLost : Controller.UpdateLeadInput :=
  Controller.mkUpdate None None None None None None (Some "Closed-Lost") None.

Definition boWon : Controller.UpdateLeadInput :=
  Controller.mkUpdate None None None None None None (Some "Closed-Won") None.

End Stored.

(* ================================================================== *)
(** ** The matching rules of the field mapper, as the spec words them *)
(* ================================================================== *)

(** [sub] occurs in [s]. *)
Definition substringOf (sub s : string) : Prop :=
  exists before after, s = before +++ sub +++ after.

Definition headerKey (header : string) : string := Js.trim (Js.toLowerCase header).

(** Rule 1: case-insensitive exact match with the internal name or the label. *)
Definition exactRule (field : Mapper.LeadFieldDefinition) (header : string) : Prop :=
  headerKey header = Js.toLowerCase (Mapper.name field) \/
  headerKey header = Js.toLowerCase (Mapper.label field).

(** Rule 2, as the code has it: containment, in either direction, between
    the header and the internal name. *)
Definition containmentRule (field : Mapper.LeadFieldDefinition) (header : string) : Prop :=
  substringOf (Js.toLowerCase (Mapper.name field)) (headerKey header) \/
  substringOf (headerKey header) (Js.toLowerCase (Mapper.name field)).

Definition anyRule (field : Mapper.LeadFieldDefinition) (header : string) : Prop :=
  exactRule field header \/ containmentRule field header.

(** [header] is the leftmost header that satisfies [rule]. *)
Definition leftmost (rule : string -> Prop) (headers : list string) (header : string) : Prop :=
  exists k, nth_error headers k = Some header /\ rule header /\
            forall j h, j < k -> nth_error headers j = Some h -> ~ rule h.

Definition exactRuleb (field : Mapper.LeadFieldDefinition) (header : string) : bool :=
  String.eqb (headerKey header) (Js.toLowerCase (Mapper.name field))
  || String.eqb (headerKey header) (Js.toLowerCase (Mapper.label field)).

(** The mapper as the spec describes it: the leftmost exact match, and
    only when there is none the leftmost containment match. *)
Definition prioritizedHeader (field : Mapper.LeadFieldDefinition) (headers : list string)
  : option string :=
  match find (exactRuleb field) headers with
  | Some h => Some h
  | None => Mapper.matchedHeader field headers
  end.

Module Catalog.

Definition nameField : Mapper.LeadFieldDefinition :=
  Mapper.mkField "name" "Full Name" true None None.

Definition sourceField : Mapper.LeadFieldDefinition :=
  Mapper.mkField "source" "Lead Source" false (Some Lead.sourceEnum) (Some "Import").

(** The exact match 'Name' stands to the right of 'Company Name'. *)
Definition headers : list string := ["Company Name"; "Name"; "E-mail"].

End Catalog.

(* ================================================================== *)
(** ** models/Lead.ts: the statics and methods beside the hook *)
(* ================================================================== *)

Module Statics.

(** [leadSchema.statics.findDuplicates] (Lead.ts, lines 311-324); an
    absent or empty [excludeId] is [None]. *)
Definition findDuplicates (email phone : string) (excludeId : option nat) (s : Store.t)
  : list Lead.t :=
  filter (fun d =>
            (String.eqb (Lead.email d) (Js.trim (Js.toLowerCase email))
             || String.eqb (Lead.phone d) (Js.trim phone))
            && match excludeId with
               | Some id => negb (Lead._id d =? id)
               | None => true
               end)
         (Store.docs s).

(** A fresh [ObjectId] has been drawn. *)
Definition drawId (s : Store.t) : Store.t := Store.mk (Store.docs s) (S (Store.nextId s)).

(** [leadSchema.methods.addNote] (Lead.ts, lines 275-283): push the note
    and save; only [notes] is modified, so the hook leaves the score. *)
Definition addNote (content createdBy : string) (d : Lead.t) (s : Store.t)
  : Store.SaveError + (Lead.t * Store.t) :=
  let note := Lead.mkNote (Js.of_nat (Store.nextId s)) content createdBy in
  match Store.save_existing false (Controller.push_note note d) s with
  | inr (saved, s') => inr (saved, drawId s')
  | inl e => inl e
  end.

End Statics.

(* ================================================================== *)
(** ** controllers/leadController.ts: the other endpoints *)
(* ================================================================== *)

Module Endpoints.

(** [req.user?.role === 'admin'] *)
Definition isAdmin (user : option Controller.User) : bool :=
  match user with
  | Some u => String.eqb (Controller.role u) "admin"
  | None => false
  end.

(** [req.user?.role !== 'admin' &&
     String(lead.assignedTo) !== String(req.user?.userId)] *)
Definition denied (user : option Controller.User) (lead : Lead.t) : bool :=
  negb (isAdmin user)
  && negb (String.eqb (Controller.String_of (Lead.assignedTo lead))
                      (Controller.String_of (option_map Controller.userId user))).

Definition plain (code : nat) (ok : bool) (msg : string) (errs : list string)
  : Controller.Response :=
  Controller.mkResponse code ok msg errs None.

(** The [:id] of a request: the identifier it denotes, or the text of a
    parameter that is no ObjectId, on which [Lead.findById] throws. *)
Inductive Param : Type :=
| Id (id : nat)
| NotAnId (raw : string).

(** [error.message] of the CastError. *)
Definition castError (raw : string) : string :=
  "Cast to ObjectId failed for value " +++ Store.dquote +++ raw +++ Store.dquote +++
  " (type string) at path " +++ Store.dquote +++ "_id" +++ Store.dquote +++
  " for model " +++ Store.dquote +++ "Lead" +++ Store.dquote.

(** [getLeadById] (leadController.ts, lines 129-168) *)
Definition getLeadById (user : option Controller.User) (id : Param) (db : Store.t)
  : Controller.Response :=
  match id with
  | NotAnId raw => plain 500 false "Failed to retrieve lead" [castError raw]
  | Id id =>
      match Store.findById id db with
      | None => plain 404 false "Lead not found" []
      | Some lead =>
          if denied user lead then plain 403 false "Access denied" []
          else Controller.mkResponse 200 true "Lead retrieved successfully" []
                                     (Some lead)
      end
  end.

(** [Lead.findByIdAndDelete(id)] *)
Fixpoint remove_first (id : nat) (l : list Lead.t) : list Lead.t :=
  match l with
  | [] => []
  | o :: r => if Lead._id o =? id then r else o :: remove_first id r
  end.

(** [deleteLead] (leadController.ts, lines 388-424) *)
Definition deleteLead (user : option Controller.User) (id : nat) (db : Store.t)
  : Controller.Response * Store.t :=
  if negb (isAdmin user) then (plain 403 false "Admin access required" [], db)
  else
    match Store.findById id db with
    | None => (plain 404 false "Lead not found" [], db)
    | Some _ =>
        (plain 200 true "Lead deleted successfully" [],
         Store.mk (remove_first id (Store.docs db)) (Store.nextId db))
    end.

Record ListResponse : Type := mkList {
  l_statusCode : nat;
  l_success : bool;
  l_message : string;
  l_errors : list string;
  l_data : list Lead.t
}.

Definition assignTo (assignee : string) (by_ : option string) (d : Lead.t) : Lead.t :=
  Lead.mk (Lead._id d) (Lead.name d) (Lead.email d) (Lead.phone d) (Lead.company d)
          (Lead.position d) (Lead.source d) (Lead.status d) (Lead.priority d)
          (Some assignee) by_ (Lead.notes d) (Lead.leadScore d).

Definition targeted (leadIds : list nat) (d : Lead.t) : bool :=
  existsb (Nat.eqb (Lead._id d)) leadIds.

(** [Lead.updateMany({ _id: { $in: leadIds } }, { assignedTo, assignedBy })];
    an update through the query runs neither validators nor hooks. *)
Definition updateMany (leadIds : list nat) (assignee : string) (by_ : option string)
           (l : list Lead.t) : list Lead.t :=
  map (fun d => if targeted leadIds d then assignTo assignee by_ d else d) l.

(** [assignLeads] (leadController.ts, lines 426-497).  [users] holds the
    identifiers of the user collection, which [User.findById] consults;
    an absent [leadIds] or [assignToUserId] is [None]. *)
Definition assignLeads (users : list string) (user : option Controller.User)
           (leadIds : option (list nat)) (assignToUserId : option string) (db : Store.t)
  : ListResponse * Store.t :=
  if negb (isAdmin user) then (mkList 403 false "Admin access required" [] [], db)
  else
    match leadIds with
    | None | Some [] =>
        (mkList 400 false "Lead IDs are required" ["Please provide an array of lead IDs"] [],
         db)
    | Some ids =>
        if negb (Js.truthy assignToUserId)
        then (mkList 400 false "User ID is required"
                     ["Please provide a user ID to assign leads to"] [], db)
        else
          let assignee := Controller.str assignToUserId in
          if negb (Js.mem assignee users)
          then (mkList 404 false "User not found" ["The specified user does not exist"] [],
                db)
          else
            let docs' :=
              updateMany ids assignee (option_map Controller.userId user) (Store.docs db) in
            let modifiedCount := List.length (filter (targeted ids) (Store.docs db)) in
            (mkList 200 true (Js.of_nat modifiedCount +++ " leads assigned successfully") []
                    (filter (targeted ids) docs'),
             Store.mk docs' (Store.nextId db))
    end.

(** [addNote] (leadController.ts, lines 499-570); an absent [leadId] or
    [content] is [None].  [objectId] is [new mongoose.Types.ObjectId(s)]
    rendered as the string the note stores: the identifier, or the
    message of the error it throws. *)
Definition addNote (objectId : string -> string + string)
           (user : option Controller.User) (leadId : option nat)
           (content : option string) (db : Store.t) : Controller.Response * Store.t :=
  match leadId, Js.truthy content with
  | Some id, true =>
      let text := Controller.str content in
      if String.length (Js.trim text) <? 1
      then (plain 400 false "Note content cannot be empty"
                  ["Please provide valid note content"], db)
      else
        match Store.findById id db with
        | None => (plain 404 false "Lead not found" [], db)
        | Some lead =>
            if denied user lead then (plain 403 false "Access denied" [], db)
            else
              match option_map Controller.userId user with
              | Some uid =>
                  if Js.is_empty uid
                  then (plain 400 false "User ID is required"
                              ["Please provide a valid user ID"], db)
                  else
                    match objectId uid with
                    | inl thrown => (plain 500 false "Failed to add note" [thrown], db)
                    | inr createdBy =>
                        match Statics.addNote (Js.trim text) createdBy lead db with
                        | inr (saved, db') =>
                            (Controller.mkResponse 200 true "Note added successfully" []
                                                   (Some saved), db')
                        | inl e =>
                            (plain 500 false "Failed to add note" [Store.error_message e],
                             db)
                        end
                    end
              | None =>
                  (plain 400 false "User ID is required" ["Please provide a valid user ID"],
                   db)
              end
        end
  | _, _ =>
      (plain 400 false "Lead ID and note content are required"
             ["Please provide both lead ID and note content"], db)
  end.

End Endpoints.

(* ================================================================== *)
(** ** pages/SmartImportLeads.tsx: editing the proposed mapping *)
(* ================================================================== *)

Module Edits.

(** [updateFieldMapping] (lines 176-184) *)
Definition updateFieldMapping (leadField excelColumn : string)
           (prev : list Mapper.FieldMapping) : list Mapper.FieldMapping :=
  map (fun mapping =>
         if String.eqb (Mapper.leadField mapping) leadField
         then Mapper.mkMapping (Mapper.leadField mapping) excelColumn
                               (Mapper.isRequired mapping) (Mapper.mappingDefault mapping)
         else mapping) prev.

Definition isMapped (fieldMappings : list Mapper.FieldMapping) (fieldName : string) : bool :=
  existsb (fun mapping => String.eqb (Mapper.leadField mapping) fieldName) fieldMappings.

Definition unmappedFields (leadFields : list Mapper.LeadFieldDefinition)
           (fieldMappings : list Mapper.FieldMapping) : list Mapper.LeadFieldDefinition :=
  filter (fun field => negb (isMapped fieldMappings (Mapper.name field))) leadFields.

(** [addFieldMapping] (lines 187-201) *)
Definition addFieldMapping (leadFields : list Mapper.LeadFieldDefinition)
           (fieldMappings : list Mapper.FieldMapping) : list Mapper.FieldMapping :=
  match unmappedFields leadFields fieldMappings with
  | first :: _ =>
      fieldMappings ++
      [Mapper.mkMapping (Mapper.name first) "" (Mapper.required first)
                        (Mapper.defaultValue first)]
  | [] => fieldMappings
  end.

(** [removeFieldMapping] (lines 204-208) *)
Definition removeFieldMapping (leadField : string) (prev : list Mapper.FieldMapping)
  : list Mapper.FieldMapping :=
  filter (fun mapping => negb (String.eqb (Mapper.leadField mapping) leadField)) prev.

Definition hasColumn (mapping : Mapper.FieldMapping) : bool :=
  negb (Js.is_empty (Mapper.excelColumn mapping)).

(** [validateMappings] (lines 211-221): no required mapping without column. *)
Definition validateMappings (fieldMappings : list Mapper.FieldMapping) : bool :=
  let requiredFields := filter Mapper.isRequired fieldMappings in
  let unmappedRequired := filter (fun mapping => negb (hasColumn mapping)) requiredFields in
  negb (0 <? List.length unmappedRequired).

(** [fieldMappings.filter(mapping => mapping.excelColumn)], the mappings
    [executeImport] sends (line 235). *)
Definition sentMappings (fieldMappings : list Mapper.FieldMapping)
  : list Mapper.FieldMapping :=
  filter hasColumn fieldMappings.

End Edits.

(* ================================================================== *)
(** ** pages/AddLead.tsx: the form check before [createLead] is called *)
(* ================================================================== *)

Module AddLead.

(** [CreateLeadForm]: every field of the form is a string. *)
Record CreateLeadForm : Type := mkForm {
  name : string;
  email : string;
  phone : string;
  company : string;
  position : string;
  location : string;
  source : string;
  priority : string;
  notes : string
}.

(** [validateForm] (lines 43-65): the entries of [newErrors]. *)
Definition formErrors (formData : CreateLeadForm) : list (string * string) :=
  (if Js.is_empty (Js.trim (name formData)) then [("name", "Name is required")] else [])
  ++ (if Js.is_empty (Js.trim (email formData)) then [("email", "Email is required")]
      else if negb (Regex.test Lead.emailRegex (email formData))
      then [("email", "Please enter a valid email address")]
      else [])
  ++ (if Js.is_empty (Js.trim (phone formData))
      then [("phone", "Phone number is required")] else []).

Definition validateForm (formData : CreateLeadForm) : bool :=
  List.length (formErrors formData) =? 0.

(** The request body [leadApi.createLead(formData)] posts, as the
    controller reads it; [location] is no field of [CreateLeadInput] nor a
    path of the schema. *)
Definition body (formData : CreateLeadForm) : Controller.CreateLeadInput :=
  Controller.mkCreate (Some (name formData)) (Some (email formData))
                      (Some (phone formData)) (Some (company formData))
                      (Some (position formData)) (Some (source formData))
                      (Some (priority formData)) (Some (notes formData)).

End AddLead.

(* ================================================================== *)
(** ** excelController.ts: the import template *)
(* ================================================================== *)

Module Template.

(** [templateData] of [getImportTemplate] (lines 314-318), as the
    worksheet 'Leads Template' read back with [raw: false]. *)
Definition templateData : Excel.Sheet :=
  [ [Some "Name"; Some "Email"; Some "Phone"; Some "Company"; Some "Position";
     Some "Source"; Some "Priority"];
    [Some "John Doe"; Some "john.doe@example.com"; Some "+1-555-0123";
     Some "Example Corp"; Some "Manager"; Some "Website"; Some "High"];
    [Some "Jane Smith"; Some "jane.smith@company.com"; Some "+1-555-0124";
     Some "Company Inc"; Some "Director"; Some "Social Media"; Some "Medium"] ].

(** The template uploaded as it was downloaded. *)
Definition upload (userId : option string) : Excel.Request :=
  Excel.mkRequest
    (Some (Excel.mkFile "leads_import_template.xlsx"
                        (Excel.Workbook [("Leads Template", templateData)])))
    userId.

End Template.

(* ================================================================== *)
(** ** Notions used to state the further properties *)
(* ================================================================== *)

(** Every character class of the expression satisfies [q]. *)
Fixpoint classes (q : (ascii -> bool) -> Prop) (r : Regex.re) : Prop :=
  match r with
  | Regex.Class p => q p
  | Regex.Cat a b | Regex.Alt a b => classes q a /\ classes q b
  | Regex.Star a => classes q a
  | Regex.Void | Regex.Eps => True
  end.

(** The class does not tell a letter from its lower-case form. *)
Definition caseBlind (p : ascii -> bool) : Prop := forall c, p (Js.lower_char c) = p c.

(** The class holds no white space. *)
Definition spaceFree (p : ascii -> bool) : Prop := forall c, Js.is_space c = true -> p c = false.

(** The expression matches nothing, by its shape. *)
Fixpoint is_void (r : Regex.re) : bool :=
  match r with
  | Regex.Void => true
  | Regex.Cat a b => is_void a || is_void b
  | Regex.Alt a b => is_void a && is_void b
  | _ => false
  end.

(** No white space in the string. *)
Fixpoint noSpace (s : string) : Prop :=
  match s with
  | EmptyString => True
  | String c r => Js.is_space c = false /\ noSpace r
  end.

(** What the validator guarantees of a normalized lead. *)
Definition wellFormed (l : LeadData.t) : Prop :=
  LeadData.name l <> "" /\ Js.trim (LeadData.name l) = LeadData.name l /\
  LeadData.email l <> "" /\ Js.trim (LeadData.email l) = LeadData.email l /\
  Js.toLowerCase (LeadData.email l) = LeadData.email l /\
  Regex.test Lead.emailRegex (LeadData.email l) = true /\
  LeadData.phone l <> "" /\ Js.trim (LeadData.phone l) = LeadData.phone l /\
  Js.trim (LeadData.company l) = LeadData.company l /\
  Js.trim (LeadData.position l) = LeadData.position l /\
  In (LeadData.source l) Excel.validSources /\
  In (LeadData.priority l) Excel.validPriorities /\
  LeadData.status l = "New".

(** The row that spells out a normalized lead again. *)
Definition asRow (l : LeadData.t) : Row.t :=
  Row.mk (Some (LeadData.name l)) (Some (LeadData.email l)) (Some (LeadData.phone l))
         (Some (LeadData.company l)) (Some (LeadData.position l))
         (Some (LeadData.source l)) (Some (LeadData.priority l)).

(** Every stored document passes the validators of the schema. *)
Definition allValid (s : Store.t) : Prop :=
  Forall (fun d => Store.validate d = []) (Store.docs s).

(** The user may touch the lead: an administrator, or its assignee. *)
Definition mayAccess (user : option Controller.User) (lead : Lead.t) : Prop :=
  Endpoints.isAdmin user = true \/
  Controller.String_of (Lead.assignedTo lead) =
  Controller.String_of (option_map Controller.userId user).

(** The fields of a lead other than its notes. *)
Definition sameButNotes (a b : Lead.t) : Prop :=
  Lead._id a = Lead._id b /\ Lead.name a = Lead.name b /\ Lead.email a = Lead.email b /\
  Lead.phone a = Lead.phone b /\ Lead.company a = Lead.company b /\
  Lead.position a = Lead.position b /\ Lead.source a = Lead.source b /\
  Lead.status a = Lead.status b /\ Lead.priority a = Lead.priority b /\
  Lead.assignedTo a = Lead.assignedTo b /\ Lead.assignedBy a = Lead.assignedBy b /\
  Lead.leadScore a = Lead.leadScore b.

(** The fields of a lead other than its assignment. *)
Definition sameButAssignment (a b : Lead.t) : Prop :=
  Lead._id a = Lead._id b /\ Lead.name a = Lead.name b /\ Lead.email a = Lead.email b /\
  Lead.phone a = Lead.phone b /\ Lead.company a = Lead.company b /\
  Lead.position a = Lead.position b /\ Lead.source a = Lead.source b /\
  Lead.status a = Lead.status b /\ Lead.priority a = Lead.priority b /\
  Lead.notes a = Lead.notes b /\ Lead.leadScore a = Lead.leadScore b.

(* ================================================================== *)
(** ** Notions used to state the properties of single rows *)
(* ================================================================== *)

(** The required cells of a row pass their checks. *)
Definition requiredPass (row : Row.t) : Prop :=
  Excel.missing (Row.name row) = false /\
  Excel.missing (Row.email row) = false /\
  Regex.test Excel.emailRegex (Js.trim (Excel.str (Row.email row))) = true /\
  Excel.missing (Row.phone row) = false.

(** An enumerated cell is omitted (absent or empty), or names an allowed
    value after trimming. *)
Definition enumPass (v : option string) (valid : list string) : Prop :=
  v = None \/ v = Some "" \/ exists s, v = Some s /\ s <> "" /\ In (Js.trim s) valid.

(** The position, among the valid leads, of the lead that row [i]
    contributes: the number of valid leads the rows before it contribute. *)
Definition validPosition (rows : list Row.t) (i : nat) : nat :=
  List.length (fst (Excel.validateRows (firstn i rows) 0)).

Module StoredRows.
Import Sample.

(** A row with Ann's stored address and no phone number. *)
Definition annWithoutPhone : Excel.Sheet := [ [c "Ann"; c "ann@x.com"] ].

(** Two valid rows that both carry Ann's stored address. *)
Definition annTwice : Excel.Sheet :=
  [ [c "Ann"; c "ann@x.com"; c "555-0001"]; [c "Ann B."; c " ANN@X.COM "; c "555-0009"] ].

(** A valid row that names a source and leaves out the priority. *)
Definition rowSourceOnly : Row.t :=
  Row.mk (Some "Cy") (Some "cy@x.com") (Some "555-0003") None None (Some " Website ") None.

(** A valid row that names a priority and leaves out the source. *)
Definition rowPriorityOnly : Row.t :=
  Row.mk (Some "Dee") (Some "dee@x.com") (Some "555-0004") None None (Some "") (Some "Low").

End StoredRows.

(* ================================================================== *)
(** ** Facts about the string primitives *)
(* ================================================================== *)

Section JsFacts.

Lemma mem_In (x : string) (l : list string) : Js.mem x l = true <-> In x l.
Proof.
  unfold Js.mem. rewrite existsb_exists. split.
  - intros [y [Hy E]]. apply String.eqb_eq in E. now subst.
  - intros H. exists x. split; [assumption | apply String.eqb_refl].
Qed.

Lemma mem_false_In (x : string) (l : list string) : Js.mem x l = false <-> ~ In x l.
Proof.
  rewrite <- mem_In. destruct (Js.mem x l); split; intro H; congruence.
Qed.

Lemma is_empty_true (s : string) : Js.is_empty s = true <-> s = "".
Proof. destruct s; simpl; split; congruence. Qed.

Lemma space_lower (c : ascii) : Js.is_space (Js.lower_char c) = Js.is_space c.
Proof. destruct c as [[] [] [] [] [] [] [] []]; reflexivity. Qed.

Lemma lower_char_idem (c : ascii) : Js.lower_char (Js.lower_char c) = Js.lower_char c.
Proof. destruct c as [[] [] [] [] [] [] [] []]; reflexivity. Qed.

Lemma toLowerCase_idem (s : string) : Js.toLowerCase (Js.toLowerCase s) = Js.toLowerCase s.
Proof.
  induction s as [|c r IH]; simpl; [reflexivity|].
  now rewrite lower_char_idem, IH.
Qed.

Lemma is_empty_lower (s : string) : Js.is_empty (Js.toLowerCase s) = Js.is_empty s.
Proof. now destruct s. Qed.

Lemma trimStart_lower (s : string) :
  Js.trimStart (Js.toLowerCase s) = Js.toLowerCase (Js.trimStart s).
Proof.
  induction s as [|c r IH]; simpl; [reflexivity|].
  rewrite space_lower. now destruct (Js.is_space c).
Qed.

Lemma trimEnd_lower (s : string) :
  Js.trimEnd (Js.toLowerCase s) = Js.toLowerCase (Js.trimEnd s).
Proof.
  induction s as [|c r IH]; simpl; [reflexivity|].
  rewrite space_lower, IH, is_empty_lower.
  now destruct (Js.is_space c && Js.is_empty (Js.trimEnd r)).
Qed.

(** Trimming and lower-casing commute. *)
Lemma trim_lower (s : string) : Js.trim (Js.toLowerCase s) = Js.toLowerCase (Js.trim s).
Proof. unfold Js.trim. now rewrite trimStart_lower, trimEnd_lower. Qed.

Lemma trimStart_no_leading (s : string) : no_leading_space (Js.trimStart s).
Proof.
  induction s as [|c r IH]; simpl; [exact I|].
  destruct (Js.is_space c) eqn:E; [assumption | exact E].
Qed.

Lemma trimStart_fixed (s : string) : no_leading_space s -> Js.trimStart s = s.
Proof. destruct s as [|c r]; simpl; [reflexivity|]. now intros ->. Qed.

Lemma trimEnd_no_leading (s : string) :
  no_leading_space s -> no_leading_space (Js.trimEnd s).
Proof.
  destruct s as [|c r]; simpl; [exact id|].
  intros H. rewrite H. exact H.
Qed.

Lemma trimEnd_idem (s : string) : Js.trimEnd (Js.trimEnd s) = Js.trimEnd s.
Proof.
  induction s as [|c r IH]; simpl; [reflexivity|].
  destruct (Js.is_space c && Js.is_empty (Js.trimEnd r)) eqn:E; simpl; [reflexivity|].
  now rewrite IH, E.
Qed.

Lemma trim_idem (s : string) : Js.trim (Js.trim s) = Js.trim s.
Proof.
  unfold Js.trim.
  rewrite trimStart_fixed by (apply trimEnd_no_leading, trimStart_no_leading).
  apply trimEnd_idem.
Qed.

(** A normalized e-mail address is a fixed point of the schema setters. *)
Lemma set_email_normalized (s : string) :
  Store.set_email (Js.toLowerCase (Js.trim s)) = Js.toLowerCase (Js.trim s).
Proof.
  unfold Store.set_email.
  now rewrite toLowerCase_idem, trim_lower, trim_idem.
Qed.

End JsFacts.

(* ================================================================== *)
(** ** The pre-save hook and the lead score *)
(* ================================================================== *)

(** Every status whose table value is not zero gets exactly that value. *)
Lemma preSave_nonzero_row (st : string) (score : nat) (d : Lead.t) :
  In (st, score) Lead.scoreMap -> score <> 0 ->
  Lead.leadScore (Lead.preSave true (set_status st d)) = score.
Proof.
  intros H Hz. simpl in H.
  repeat (destruct H as [H | H]; [inversion H; subst; reflexivity || (now elim Hz) |]).
  contradiction.
Qed.

Lemma preSave_unmodified (d : Lead.t) : Lead.preSave false d = d.
Proof. reflexivity. Qed.

(** C1 (defect).  The hook reads the table through [scoreMap[status] || 50]:
    the table value [0] of 'Closed-Lost' is falsy, so a lead whose status
    was set to 'Closed-Lost' is saved with leadScore 50 and not 0, while
    'Closed-Won' does yield 100; so it is for a lead updated through
    [updateLead]. *)
Theorem C1_closed_lost_scores_50 (d : Lead.t) :
  Lead.lookup "Closed-Lost" Lead.scoreMap = Some 0 /\
  Lead.leadScore (Lead.preSave true (set_status "Closed-Lost" d)) = 50 /\
  Lead.leadScore (Lead.preSave true (set_status "Closed-Won" d)) = 100 /\
  option_map (fun l => (Lead.status l, Lead.leadScore l))
    (Controller.lead (fst (Controller.updateLead Stored.admin 1 Stored.boLost Stored.two)))
    = Some ("Closed-Lost", 50) /\
  option_map (fun l => (Lead.status l, Lead.leadScore l))
    (Controller.lead (fst (Controller.updateLead Stored.admin 1 Stored.boWon Stored.two)))
    = Some ("Closed-Won", 100).
Proof. repeat split. Qed.

(* ================================================================== *)
(** ** The row validator *)
(* ================================================================== *)

Section Validator.

Variable row : Row.t.
Variable rowIndex : nat.

Lemma validate_errors :
  Excel.errors (Excel.validateAndNormalizeLeadRow row rowIndex) =
  Excel.nameErrors row rowIndex ++ Excel.emailErrors row rowIndex
  ++ Excel.phoneErrors row rowIndex
  ++ snd (Excel.sourceField row rowIndex) ++ snd (Excel.priorityField row rowIndex).
Proof.
  unfold Excel.validateAndNormalizeLeadRow.
  destruct (Excel.nameErrors row rowIndex ++ _) eqn:E; reflexivity.
Qed.

(** Never both: a row is valid exactly when it has no error, and only a
    valid row carries a normalized lead. *)
Lemma validate_cases :
  let v := Excel.validateAndNormalizeLeadRow row rowIndex in
  (Excel.isValid v = true /\ Excel.errors v = [] /\ exists l, Excel.lead v = Some l) \/
  (Excel.isValid v = false /\ Excel.errors v <> [] /\ Excel.lead v = None).
Proof.
  unfold Excel.validateAndNormalizeLeadRow.
  destruct (Excel.nameErrors row rowIndex ++ _) eqn:E; simpl.
  - left. repeat split. eexists. reflexivity.
  - right. repeat split. discriminate.
Qed.

Lemma validate_lead (l : LeadData.t) :
  Excel.lead (Excel.validateAndNormalizeLeadRow row rowIndex) = Some l ->
  LeadData.email l = Js.toLowerCase (Js.trim (Excel.str (Row.email row))) /\
  LeadData.source l = fst (Excel.sourceField row rowIndex) /\
  LeadData.priority l = fst (Excel.priorityField row rowIndex) /\
  LeadData.status l = "New".
Proof.
  unfold Excel.validateAndNormalizeLeadRow.
  destruct (Excel.nameErrors row rowIndex ++ _) eqn:E; simpl; [|discriminate].
  intros H. inversion H. subst l. simpl. repeat split.
Qed.

Lemma fieldErrors_app (f : string) (a b : list Err.t) :
  fieldErrors f (a ++ b) = fieldErrors f a ++ fieldErrors f b.
Proof. apply filter_app. Qed.

Lemma fieldErrors_name (f : string) :
  String.eqb "name" f = false -> fieldErrors f (Excel.nameErrors row rowIndex) = [].
Proof.
  intros H. unfold Excel.nameErrors. destruct (Excel.missing _); [|reflexivity].
  unfold fieldErrors. cbn [filter Err.field]. now rewrite H.
Qed.

Lemma fieldErrors_email (f : string) :
  String.eqb "email" f = false -> fieldErrors f (Excel.emailErrors row rowIndex) = [].
Proof.
  intros H. unfold Excel.emailErrors, fieldErrors.
  destruct (Excel.missing _); [cbn [filter Err.field]; now rewrite H|].
  destruct (negb _); [cbn [filter Err.field]; now rewrite H | reflexivity].
Qed.

Lemma fieldErrors_phone (f : string) :
  String.eqb "phone" f = false -> fieldErrors f (Excel.phoneErrors row rowIndex) = [].
Proof.
  intros H. unfold Excel.phoneErrors. destruct (Excel.missing _); [|reflexivity].
  unfold fieldErrors. cbn [filter Err.field]. now rewrite H.
Qed.

Lemma fieldErrors_enum (f : string) (v : option string) (valid : list string)
      (default : string) (e : Err.t) :
  String.eqb (Err.field e) f = false ->
  fieldErrors f (snd (Excel.enumField v valid default e)) = [].
Proof.
  intros H. unfold Excel.enumField.
  destruct (Excel.supplied v); [|reflexivity].
  destruct (Js.mem _ valid); [reflexivity|].
  unfold fieldErrors. cbn [snd filter]. now rewrite H.
Qed.

(** The errors of a row that name [source] are those of the source check. *)
Lemma source_errors :
  fieldErrors "source" (Excel.errors (Excel.validateAndNormalizeLeadRow row rowIndex)) =
  fieldErrors "source" (snd (Excel.sourceField row rowIndex)).
Proof.
  rewrite validate_errors. rewrite !fieldErrors_app.
  rewrite fieldErrors_name, fieldErrors_email, fieldErrors_phone by reflexivity.
  unfold Excel.priorityField. rewrite fieldErrors_enum by reflexivity.
  simpl. now rewrite app_nil_r.
Qed.

Lemma priority_errors :
  fieldErrors "priority" (Excel.errors (Excel.validateAndNormalizeLeadRow row rowIndex)) =
  fieldErrors "priority" (snd (Excel.priorityField row rowIndex)).
Proof.
  rewrite validate_errors. rewrite !fieldErrors_app.
  rewrite fieldErrors_name, fieldErrors_email, fieldErrors_phone by reflexivity.
  unfold Excel.sourceField. rewrite fieldErrors_enum by reflexivity.
  reflexivity.
Qed.

Lemma invalid_of_field_error (f : string) :
  fieldErrors f (Excel.errors (Excel.validateAndNormalizeLeadRow row rowIndex)) <> [] ->
  Excel.isValid (Excel.validateAndNormalizeLeadRow row rowIndex) = false /\
  Excel.lead (Excel.validateAndNormalizeLeadRow row rowIndex) = None.
Proof.
  intros H. destruct validate_cases as [[_ [E _]] | [V [_ L]]].
  - rewrite E in H. now elim H.
  - now split.
Qed.

End Validator.

(** What the check of one enumerated field does with a cell. *)
Lemma enumField_supplied_valid (s : string) (valid : list string) (default : string)
      (e : Err.t) :
  s <> "" -> In (Js.trim s) valid ->
  Excel.enumField (Some s) valid default e = (Js.trim s, []).
Proof.
  intros Hs Hin. unfold Excel.enumField, Excel.supplied. simpl.
  destruct s; [now elim Hs|]. simpl.
  apply mem_In in Hin. simpl in Hin. now rewrite Hin.
Qed.

Lemma enumField_supplied_invalid (s : string) (valid : list string) (default : string)
      (e : Err.t) :
  s <> "" -> ~ In (Js.trim s) valid ->
  Excel.enumField (Some s) valid default e = (default, [e]).
Proof.
  intros Hs Hin. unfold Excel.enumField, Excel.supplied. simpl.
  destruct s; [now elim Hs|]. simpl.
  apply mem_false_In in Hin. simpl in Hin. now rewrite Hin.
Qed.

Lemma enumField_omitted (v : option string) (valid : list string) (default : string)
      (e : Err.t) :
  v = None \/ v = Some "" ->
  Excel.enumField v valid default e = (default, []).
Proof. intros [-> | ->]; reflexivity. Qed.

Lemma sourceMessage_text :
  Excel.sourceMessage =
  "Invalid source. Must be one of: Website, Social Media, Referral, Import, Manual, Cold Call, Email Campaign".
Proof. reflexivity. Qed.

Lemma priorityMessage_text :
  Excel.priorityMessage = "Invalid priority. Must be one of: High, Medium, Low".
Proof. reflexivity. Qed.

Lemma enumPass_errors (v : option string) (valid : list string) (default : string)
      (e : Err.t) :
  enumPass v valid -> snd (Excel.enumField v valid default e) = [].
Proof.
  intros [-> | [-> | (s & -> & Hs & Hin)]]; [reflexivity | reflexivity|].
  now rewrite enumField_supplied_valid.
Qed.

(** A row whose required cells and enumerated cells pass is handed out as
    a lead that carries the values chosen for source and priority. *)
Lemma passing_row_lead (row : Row.t) (rowIndex : nat) :
  requiredPass row ->
  enumPass (Row.source row) Excel.validSources ->
  enumPass (Row.priority row) Excel.validPriorities ->
  exists l,
    Excel.validateAndNormalizeLeadRow row rowIndex = Excel.mkValidation true (Some l) [] /\
    LeadData.source l = fst (Excel.sourceField row rowIndex) /\
    LeadData.priority l = fst (Excel.priorityField row rowIndex).
Proof.
  intros (Hn & He & Ht & Hp) Hs Hr.
  unfold Excel.validateAndNormalizeLeadRow, Excel.nameErrors, Excel.emailErrors,
    Excel.phoneErrors.
  rewrite Hn, He, Ht, Hp. cbn [negb app].
  unfold Excel.sourceField at 1, Excel.priorityField at 1.
  rewrite (enumPass_errors _ _ Hs), (enumPass_errors _ _ Hr). cbn [app].
  eexists. split; [reflexivity|]. split; reflexivity.
Qed.

(** C9.  Per-row validation of [source] and [priority]: a supplied value
    is trimmed and compared, case-sensitively, with the fixed list; a
    match pushes no error and is kept as the field's value of the lead,
    which is handed out whenever the rest of the row passes; a mismatch
    pushes exactly one error that cites the allowed values and rejects
    the row; an omitted (absent or empty) value pushes no error and the
    field of the lead falls back to 'Import', respectively 'Medium'. *)
Theorem C9_enum_validation (row : Row.t) (rowIndex : nat) :
  let v := Excel.validateAndNormalizeLeadRow row rowIndex in
  (forall s, Row.source row = Some s -> s <> "" -> In (Js.trim s) Excel.validSources ->
     fieldErrors "source" (Excel.errors v) = [] /\
     (forall l, Excel.lead v = Some l -> LeadData.source l = Js.trim s) /\
     (requiredPass row -> enumPass (Row.priority row) Excel.validPriorities ->
      exists l, Excel.isValid v = true /\ Excel.lead v = Some l /\
                LeadData.source l = Js.trim s))
  /\
  (forall s, Row.source row = Some s -> s <> "" -> ~ In (Js.trim s) Excel.validSources ->
     fieldErrors "source" (Excel.errors v) =
       [Err.mk rowIndex "source"
          "Invalid source. Must be one of: Website, Social Media, Referral, Import, Manual, Cold Call, Email Campaign"]
     /\ Excel.isValid v = false /\ Excel.lead v = None)
  /\
  (Row.source row = None \/ Row.source row = Some "" ->
     fieldErrors "source" (Excel.errors v) = [] /\
     (forall l, Excel.lead v = Some l -> LeadData.source l = "Import") /\
     (requiredPass row -> enumPass (Row.priority row) Excel.validPriorities ->
      exists l, Excel.isValid v = true /\ Excel.lead v = Some l /\
                LeadData.source l = "Import"))
  /\
  (forall s, Row.priority row = Some s -> s <> "" -> In (Js.trim s) Excel.validPriorities ->
     fieldErrors "priority" (Excel.errors v) = [] /\
     (forall l, Excel.lead v = Some l -> LeadData.priority l = Js.trim s) /\
     (requiredPass row -> enumPass (Row.source row) Excel.validSources ->
      exists l, Excel.isValid v = true /\ Excel.lead v = Some l /\
                LeadData.priority l = Js.trim s))
  /\
  (forall s, Row.priority row = Some s -> s <> "" -> ~ In (Js.trim s) Excel.validPriorities ->
     fieldErrors "priority" (Excel.errors v) =
       [Err.mk rowIndex "priority" "Invalid priority. Must be one of: High, Medium, Low"]
     /\ Excel.isValid v = false /\ Excel.lead v = None)
  /\
  (Row.priority row = None \/ Row.priority row = Some "" ->
     fieldErrors "priority" (Excel.errors v) = [] /\
     (forall l, Excel.lead v = Some l -> LeadData.priority l = "Medium") /\
     (requiredPass row -> enumPass (Row.source row) Excel.validSources ->
      exists l, Excel.isValid v = true /\ Excel.lead v = Some l /\
                LeadData.priority l = "Medium")).
Proof.
  intro v. subst v.
  repeat match goal with |- _ /\ _ => split end.
  - intros s E Hs Hin. split; [|split].
    + rewrite source_errors. unfold Excel.sourceField. rewrite E.
      rewrite enumField_supplied_valid by assumption. reflexivity.
    + intros l Hl. apply validate_lead in Hl. destruct Hl as (_ & Hsrc & _).
      rewrite Hsrc. unfold Excel.sourceField. rewrite E.
      now rewrite enumField_supplied_valid.
    + intros Hreq Hpri.
      assert (Hsrc : enumPass (Row.source row) Excel.validSources)
        by (right; right; exists s; auto).
      destruct (passing_row_lead rowIndex Hreq Hsrc Hpri) as (l & -> & Hl & _).
      exists l. repeat split. rewrite Hl. unfold Excel.sourceField. rewrite E.
      now rewrite enumField_supplied_valid.
  - intros s E Hs Hin.
    assert (F : fieldErrors "source"
                  (Excel.errors (Excel.validateAndNormalizeLeadRow row rowIndex)) =
                [Err.mk rowIndex "source" Excel.sourceMessage]).
    { rewrite source_errors. unfold Excel.sourceField. rewrite E.
      now rewrite enumField_supplied_invalid. }
    rewrite <- sourceMessage_text. split; [exact F|].
    apply invalid_of_field_error with (f := "source"). rewrite F. discriminate.
  - intros H. split; [|split].
    + rewrite source_errors. unfold Excel.sourceField.
      rewrite enumField_omitted by assumption. reflexivity.
    + intros l Hl. apply validate_lead in Hl. destruct Hl as (_ & Hsrc & _).
      rewrite Hsrc. unfold Excel.sourceField. now rewrite enumField_omitted.
    + intros Hreq Hpri.
      assert (Hsrc : enumPass (Row.source row) Excel.validSources)
        by (destruct H as [H|H]; [left | right; left]; exact H).
      destruct (passing_row_lead rowIndex Hreq Hsrc Hpri) as (l & -> & Hl & _).
      exists l. repeat split. rewrite Hl. unfold Excel.sourceField.
      now rewrite enumField_omitted.
  - intros s E Hs Hin. split; [|split].
    + rewrite priority_errors. unfold Excel.priorityField. rewrite E.
      rewrite enumField_supplied_valid by assumption. reflexivity.
    + intros l Hl. apply validate_lead in Hl. destruct Hl as (_ & _ & Hp & _).
      rewrite Hp. unfold Excel.priorityField. rewrite E.
      now rewrite enumField_supplied_valid.
    + intros Hreq Hsrc.
      assert (Hpri : enumPass (Row.priority row) Excel.validPriorities)
        by (right; right; exists s; auto).
      destruct (passing_row_lead rowIndex Hreq Hsrc Hpri) as (l & -> & _ & Hl).
      exists l. repeat split. rewrite Hl. unfold Excel.priorityField. rewrite E.
      now rewrite enumField_supplied_valid.
  - intros s E Hs Hin.
    assert (F : fieldErrors "priority"
                  (Excel.errors (Excel.validateAndNormalizeLeadRow row rowIndex)) =
                [Err.mk rowIndex "priority" Excel.priorityMessage]).
    { rewrite priority_errors. unfold Excel.priorityField. rewrite E.
      now rewrite enumField_supplied_invalid. }
    rewrite <- priorityMessage_text. split; [exact F|].
    apply invalid_of_field_error with (f := "priority"). rewrite F. discriminate.
  - intros H. split; [|split].
    + rewrite priority_errors. unfold Excel.priorityField.
      rewrite enumField_omitted by assumption. reflexivity.
    + intros l Hl. apply validate_lead in Hl. destruct Hl as (_ & _ & Hp & _).
      rewrite Hp. unfold Excel.priorityField. now rewrite enumField_omitted.
    + intros Hreq Hsrc.
      assert (Hpri : enumPass (Row.priority row) Excel.validPriorities)
        by (destruct H as [H|H]; [left | right; left]; exact H).
      destruct (passing_row_lead rowIndex Hreq Hsrc Hpri) as (l & -> & _ & Hl).
      exists l. repeat split. rewrite Hl. unfold Excel.priorityField.
      now rewrite enumField_omitted.
Qed.

Lemma C9_enum_validation_witness :
  (let v := Excel.validateAndNormalizeLeadRow StoredRows.rowSourceOnly 4 in
   (exists l, Excel.isValid v = true /\ Excel.lead v = Some l /\
              LeadData.source l = "Website") /\
   (exists l, Excel.isValid v = true /\ Excel.lead v = Some l /\
              LeadData.priority l = "Medium")) /\
  (let v := Excel.validateAndNormalizeLeadRow StoredRows.rowPriorityOnly 5 in
   (exists l, Excel.isValid v = true /\ Excel.lead v = Some l /\
              LeadData.source l = "Import") /\
   (exists l, Excel.isValid v = true /\ Excel.lead v = Some l /\
              LeadData.priority l = "Low")) /\
  (let v := Excel.validateAndNormalizeLeadRow Sample.rowLowercaseSource 2 in
   (fieldErrors "source" (Excel.errors v) =
      [Err.mk 2 "source"
         "Invalid source. Must be one of: Website, Social Media, Referral, Import, Manual, Cold Call, Email Campaign"]
    /\ Excel.isValid v = false /\ Excel.lead v = None)
   /\ fieldErrors "priority" (Excel.errors v) = []).
Proof.
  assert (Hreq1 : requiredPass StoredRows.rowSourceOnly) by (repeat split).
  assert (Hreq2 : requiredPass StoredRows.rowPriorityOnly) by (repeat split).
  split; [|split].
  - destruct (C9_enum_validation StoredRows.rowSourceOnly 4)
      as (Hkept & _ & _ & _ & _ & Hdefault).
    split.
    + apply (Hkept " Website "); [reflexivity | discriminate | |exact Hreq1 |].
      * vm_compute. left. reflexivity.
      * left. reflexivity.
    + apply Hdefault; [left; reflexivity | exact Hreq1 |].
      right. right. exists " Website ". split; [reflexivity|]. split; [discriminate|].
      vm_compute. left. reflexivity.
  - destruct (C9_enum_validation StoredRows.rowPriorityOnly 5)
      as (_ & _ & Hdefault & Hkept & _).
    split.
    + apply Hdefault; [right; reflexivity | exact Hreq2 |].
      right. right. exists "Low". split; [reflexivity|]. split; [discriminate|].
      vm_compute. right. right. left. reflexivity.
    + apply (Hkept "Low"); [reflexivity | discriminate | |exact Hreq2 |].
      * vm_compute. right. right. left. reflexivity.
      * right. left. reflexivity.
  - destruct (C9_enum_validation Sample.rowLowercaseSource 2) as (_ & Hbad & _ & Hgood & _).
    split.
    + apply (Hbad "website"); [reflexivity | discriminate |].
      intro H. vm_compute in H.
      repeat (destruct H as [H | H]; [discriminate H|]). exact H.
    + apply (Hgood " High "); [reflexivity | discriminate |].
      vm_compute. left. reflexivity.
Defined.

(* ================================================================== *)
(** ** Duplicates within the file *)
(* ================================================================== *)

Section EmailMap.

Implicit Types (m : Excel.EmailMap) (e : string) (V : list LeadData.t).

Lemma get_push m k i e :
  Excel.emailMap_get (Excel.emailMap_push m k i) e =
  if String.eqb k e
  then Some (match Excel.emailMap_get m e with Some v => v ++ [i] | None => [i] end)
  else Excel.emailMap_get m e.
Proof.
  induction m as [|[k0 v0] r IH]; simpl.
  - destruct (String.eqb k e); reflexivity.
  - destruct (String.eqb k0 k) eqn:E0; simpl.
    + apply String.eqb_eq in E0. subst k0.
      destruct (String.eqb k e); reflexivity.
    + destruct (String.eqb k0 e) eqn:E1.
      * apply String.eqb_eq in E1. subst k0.
        rewrite String.eqb_sym in E0. now rewrite E0.
      * exact IH.
Qed.

(** The entry of an address in the finished map lists its occurrences. *)
Lemma get_build V : forall m i e,
  Excel.emailMap_get (Excel.buildEmailMap m i V) e =
  match Excel.emailMap_get m e, indicesOf e i V with
  | Some v, l => Some (v ++ l)
  | None, [] => None
  | None, l => Some l
  end.
Proof.
  induction V as [|l rest IH]; intros m i e; simpl.
  - destruct (Excel.emailMap_get m e); [now rewrite app_nil_r | reflexivity].
  - rewrite IH, get_push.
    destruct (String.eqb (LeadData.email l) e); [|reflexivity].
    destruct (Excel.emailMap_get m e); [now rewrite <- app_assoc | reflexivity].
Qed.

Lemma indicesOf_app e V1 : forall i V2,
  indicesOf e i (V1 ++ V2) = indicesOf e i V1 ++ indicesOf e (i + List.length V1) V2.
Proof.
  induction V1 as [|l r IH]; intros i V2; simpl.
  - now rewrite Nat.add_0_r.
  - rewrite IH. replace (S i + List.length r) with (i + S (List.length r)) by lia.
    destruct (String.eqb (LeadData.email l) e); reflexivity.
Qed.

Lemma indicesOf_bounds e V : forall i j,
  In j (indicesOf e i V) -> i <= j < i + List.length V.
Proof.
  induction V as [|l r IH]; intros i j; simpl; [contradiction|].
  destruct (String.eqb (LeadData.email l) e).
  - intros [<- | H]; [lia | apply IH in H; lia].
  - intros H. apply IH in H. lia.
Qed.

Lemma indicesOf_nth e V : forall i j,
  In j (indicesOf e i V) ->
  exists l, nth_error V (j - i) = Some l /\ LeadData.email l = e.
Proof.
  induction V as [|l r IH]; intros i j; simpl; [contradiction|].
  assert (Step : In j (indicesOf e (S i) r) ->
                 exists l0, nth_error (l :: r) (j - i) = Some l0 /\ LeadData.email l0 = e).
  { intros H. pose proof (indicesOf_bounds _ _ _ _ H) as B.
    apply IH in H. destruct H as [l0 [N E]]. exists l0. split; [|exact E].
    replace (j - i) with (S (j - S i)) by lia. exact N. }
  destruct (String.eqb (LeadData.email l) e) eqn:E.
  - intros [<- | H]; [|now apply Step].
    exists l. rewrite Nat.sub_diag. split; [reflexivity | now apply String.eqb_eq].
  - exact Step.
Qed.

Lemma indicesOf_absent e V i :
  Js.mem e (map LeadData.email V) = false -> indicesOf e i V = [].
Proof.
  revert i. induction V as [|l r IH]; intros i; simpl; [reflexivity|].
  rewrite String.eqb_sym. destruct (String.eqb (LeadData.email l) e); simpl.
  - discriminate.
  - apply IH.
Qed.

Lemma indicesOf_present e V i :
  Js.mem e (map LeadData.email V) = true ->
  exists j rest, indicesOf e i V = j :: rest /\ j < i + List.length V.
Proof.
  intros H. destruct (indicesOf e i V) as [|j rest] eqn:E.
  - exfalso. revert i E. induction V as [|l r IH]; intros i; simpl in *; [discriminate|].
    rewrite String.eqb_sym in H.
    destruct (String.eqb (LeadData.email l) e); simpl in H; [discriminate|].
    now apply IH.
  - exists j, rest. split; [reflexivity|].
    assert (Hin : In j (indicesOf e i V)) by (rewrite E; now left).
    apply indicesOf_bounds in Hin. lia.
Qed.

Lemma get_built V e :
  Excel.emailMap_get (Excel.buildEmailMap [] 0 V) e =
  match indicesOf e 0 V with [] => None | l => Some l end.
Proof. now rewrite get_build. Qed.

(** The filter of the controller keeps exactly the first occurrences. *)
Lemma filterFirst_keepFirst V : forall pre suffix,
  V = pre ++ suffix ->
  Excel.filterFirst (Excel.buildEmailMap [] 0 V) (List.length pre) suffix =
  keepFirst (map LeadData.email pre) suffix.
Proof.
  intros pre suffix. revert pre.
  induction suffix as [|l rest IH]; intros pre HV; simpl; [reflexivity|].
  assert (Hnext : Excel.filterFirst (Excel.buildEmailMap [] 0 V) (S (List.length pre)) rest =
                  keepFirst (map LeadData.email pre ++ [LeadData.email l]) rest).
  { specialize (IH (pre ++ [l])). rewrite length_app, map_app in IH. simpl in IH.
    rewrite Nat.add_1_r in IH. apply IH. rewrite <- app_assoc. exact HV. }
  rewrite Hnext, get_built, HV, indicesOf_app. simpl.
  rewrite String.eqb_refl.
  destruct (Js.mem (LeadData.email l) (map LeadData.email pre)) eqn:M.
  - destruct (indicesOf_present _ _ 0 M) as (j & tl & E & B). rewrite E. simpl.
    assert (Hne : (j =? List.length pre) = false) by (apply Nat.eqb_neq; lia).
    now rewrite Hne.
  - rewrite (indicesOf_absent _ _ 0 M). simpl. now rewrite Nat.eqb_refl.
Qed.

Theorem uniqueValidLeads_keepFirst V : Excel.uniqueValidLeads V = keepFirst [] V.
Proof. exact (filterFirst_keepFirst (V := V) [] V eq_refl). Qed.

Lemma keepFirst_incl V : forall seen l, In l (keepFirst seen V) -> In l V.
Proof.
  induction V as [|x r IH]; intros seen l; simpl; [exact id|].
  destruct (Js.mem (LeadData.email x) seen).
  - intros H. right. eapply IH, H.
  - intros [<- | H]; [now left | right; eapply IH, H].
Qed.

Lemma keepFirst_fresh V : forall seen l,
  In l (keepFirst seen V) -> Js.mem (LeadData.email l) seen = false.
Proof.
  induction V as [|x r IH]; intros seen l; simpl; [contradiction|].
  assert (Later : In l (keepFirst (seen ++ [LeadData.email x]) r) ->
                  Js.mem (LeadData.email l) seen = false).
  { intros H. apply IH in H. unfold Js.mem in *. rewrite existsb_app in H.
    now apply orb_false_iff in H. }
  destruct (Js.mem (LeadData.email x) seen) eqn:M.
  - exact Later.
  - intros [<- | H]; [exact M | now apply Later].
Qed.

(** No two leads that proceed share an e-mail address. *)
Lemma keepFirst_NoDup V : forall seen, NoDup (map LeadData.email (keepFirst seen V)).
Proof.
  induction V as [|x r IH]; intros seen; simpl; [constructor|].
  destruct (Js.mem (LeadData.email x) seen); [apply IH|].
  simpl. constructor; [|apply IH].
  intros H. apply in_map_iff in H. destruct H as [l [E Hl]].
  apply keepFirst_fresh in Hl. rewrite E in Hl.
  unfold Js.mem in Hl. rewrite existsb_app in Hl. simpl in Hl.
  rewrite String.eqb_refl in Hl. rewrite orb_true_r in Hl. discriminate.
Qed.

(** Every address of a valid lead is carried by a lead that proceeds. *)
Lemma keepFirst_covers V : forall seen l,
  In l V -> Js.mem (LeadData.email l) seen = false ->
  exists l', In l' (keepFirst seen V) /\ LeadData.email l' = LeadData.email l.
Proof.
  induction V as [|x r IH]; intros seen l; simpl; [contradiction|].
  intros [-> | Hin] Hseen.
  - rewrite Hseen. exists l. split; [now left | reflexivity].
  - destruct (String.eqb (LeadData.email x) (LeadData.email l)) eqn:E.
    + apply String.eqb_eq in E. rewrite E, Hseen.
      exists x. split; [now left | exact E].
    + assert (Hseen' : Js.mem (LeadData.email l) (seen ++ [LeadData.email x]) = false).
      { unfold Js.mem in *. rewrite existsb_app, Hseen. simpl.
        rewrite String.eqb_sym, E. reflexivity. }
      destruct (IH _ _ Hin Hseen') as [l' [Hl' El']].
      exists l'. split; [|exact El'].
      destruct (Js.mem (LeadData.email x) seen); [exact Hl' | now right].
Qed.

End EmailMap.

(* ================================================================== *)
(** ** The collection *)
(* ================================================================== *)

Section StoreFacts.

Lemma preSave_email sm d : Lead.email (Lead.preSave sm d) = Lead.email d.
Proof. now destruct sm. Qed.

Lemma preSave_phone sm d : Lead.phone (Lead.preSave sm d) = Lead.phone d.
Proof. now destruct sm. Qed.

Lemma preSave_id sm d : Lead._id (Lead.preSave sm d) = Lead._id d.
Proof. now destruct sm. Qed.

Lemma mem_map (f : Lead.t -> string) x l :
  Js.mem x (map f l) = existsb (fun o => String.eqb (f o) x) l.
Proof.
  unfold Js.mem. induction l as [|o r IH]; simpl; [reflexivity|].
  now rewrite IH, String.eqb_sym.
Qed.

Lemma unique_violation_none d others :
  Store.unique_violation d others = None <->
  Js.mem (Lead.email d) (map Lead.email others) = false /\
  Js.mem (Lead.phone d) (map Lead.phone others) = false.
Proof.
  unfold Store.unique_violation. rewrite !mem_map.
  destruct (existsb (fun o => String.eqb (Lead.email o) (Lead.email d)) others);
    [split; [discriminate | intros [H _]; discriminate]|].
  destruct (existsb (fun o => String.eqb (Lead.phone o) (Lead.phone d)) others);
    [split; [discriminate | intros [_ H]; discriminate]|].
  now split.
Qed.

(** What an accepted save of a new document did. *)
Lemma save_new_accepted sm d s d' s' :
  Store.save_new sm d s = inr (d', s') ->
  d' = Lead.preSave sm d /\
  Store.docs s' = Store.docs s ++ [d'] /\
  Store.nextId s' = S (Store.nextId s) /\
  Js.mem (Lead.email d) (map Lead.email (Store.docs s)) = false /\
  Js.mem (Lead.phone d) (map Lead.phone (Store.docs s)) = false.
Proof.
  unfold Store.save_new. destruct (Store.validate d); [|discriminate].
  destruct (Store.unique_violation _ _) eqn:U; [discriminate|].
  intros H. inversion H. subst. simpl.
  apply unique_violation_none in U. rewrite preSave_email, preSave_phone in U.
  destruct U. repeat split; assumption.
Qed.

(** A save that is refused by the collection is refused by every larger one. *)
Lemma save_new_refused_mono sm d s e s' :
  Store.save_new sm d s = inl e ->
  incl (Store.docs s) (Store.docs s') ->
  exists e', Store.save_new sm d s' = inl e'.
Proof.
  unfold Store.save_new. destruct (Store.validate d); [|intros _ _; eauto].
  destruct (Store.unique_violation _ (Store.docs s)) eqn:U; [|discriminate].
  intros _ Hincl.
  destruct (Store.unique_violation (Lead.preSave sm d) (Store.docs s')) eqn:U'; [eauto|].
  exfalso. apply unique_violation_none in U'. destruct U' as [Ue Up].
  assert (Some s0 = None); [|discriminate].
  rewrite <- U. apply unique_violation_none. split.
  - apply mem_false_In. intros Hin. apply mem_false_In in Ue. apply Ue.
    apply in_map_iff in Hin. destruct Hin as [o [Eo Ho]].
    apply in_map_iff. exists o. split; [exact Eo | now apply Hincl].
  - apply mem_false_In. intros Hin. apply mem_false_In in Up. apply Up.
    apply in_map_iff in Hin. destruct Hin as [o [Eo Ho]].
    apply in_map_iff. exists o. split; [exact Eo | now apply Hincl].
Qed.

Lemma validate_id_irrelevant i j d :
  Store.validate (Lead.set_id i d) = Store.validate (Lead.set_id j d).
Proof. reflexivity. Qed.

Lemma construct_set_id i j inp :
  Store.construct i inp = Lead.set_id i (Store.construct j inp).
Proof. reflexivity. Qed.

Lemma create_refused_mono inp s e s' :
  Store.create inp s = inl e ->
  incl (Store.docs s) (Store.docs s') ->
  exists e', Store.create inp s' = inl e'.
Proof.
  unfold Store.create, Store.save_new.
  rewrite (construct_set_id (Store.nextId s) 0), (construct_set_id (Store.nextId s') 0).
  rewrite (validate_id_irrelevant (Store.nextId s) (Store.nextId s')).
  destruct (Store.validate _); [|intros _ _; eauto].
  set (sm := match Store.in_status inp with Some _ => true | None => false end).
  destruct (Store.unique_violation _ (Store.docs s)) eqn:U; [|discriminate].
  intros _ Hincl.
  destruct (Store.unique_violation _ (Store.docs s')) eqn:U'; [eauto|].
  exfalso. apply unique_violation_none in U'. destruct U' as [Ue Up].
  rewrite preSave_email in Ue. rewrite preSave_phone in Up. simpl in Ue, Up.
  assert (Some s0 = None); [|discriminate].
  rewrite <- U. apply unique_violation_none.
  rewrite preSave_email, preSave_phone. simpl. split.
  - apply mem_false_In. intros Hin. apply mem_false_In in Ue. apply Ue.
    apply in_map_iff in Hin. destruct Hin as [o [Eo Ho]].
    apply in_map_iff. exists o. split; [exact Eo | now apply Hincl].
  - apply mem_false_In. intros Hin. apply mem_false_In in Up. apply Up.
    apply in_map_iff in Hin. destruct Hin as [o [Eo Ho]].
    apply in_map_iff. exists o. split; [exact Eo | now apply Hincl].
Qed.

Lemma create_accepted inp s d s' :
  Store.create inp s = inr (d, s') ->
  Lead.email d = Store.set_email (Store.or_else (Store.in_email inp) "") /\
  Lead.phone d = Store.set_trim (Store.or_else (Store.in_phone inp) "") /\
  Lead._id d = Store.nextId s /\
  Store.docs s' = Store.docs s ++ [d] /\
  Store.nextId s' = S (Store.nextId s) /\
  Js.mem (Lead.email d) (map Lead.email (Store.docs s)) = false /\
  Js.mem (Lead.phone d) (map Lead.phone (Store.docs s)) = false.
Proof.
  unfold Store.create. intros H. apply save_new_accepted in H.
  destruct H as (-> & Hd & Hn & He & Hp).
  rewrite preSave_email, preSave_phone, preSave_id. simpl in *.
  repeat split; assumption.
Qed.

Lemma mem_find_emails_in e emails s :
  Js.mem e (Store.find_emails_in emails s) =
  Js.mem e emails && Js.mem e (map Lead.email (Store.docs s)).
Proof.
  unfold Store.find_emails_in. induction (Store.docs s) as [|d r IH]; simpl.
  - now rewrite andb_false_r.
  - destruct (Js.mem (Lead.email d) emails) eqn:M; simpl; rewrite IH.
    + destruct (String.eqb e (Lead.email d)) eqn:E; simpl.
      * apply String.eqb_eq in E. subst e. now rewrite M.
      * reflexivity.
    + destruct (String.eqb e (Lead.email d)) eqn:E; simpl; [|reflexivity].
      apply String.eqb_eq in E. subst e. now rewrite M.
Qed.

End StoreFacts.

(* ================================================================== *)
(** ** The persistence loop *)
(* ================================================================== *)

Lemma prefix_empty (s : string) : prefix "" s = true.
Proof. now destruct s. Qed.

Lemma isDuplicateInDatabase_recognizes (rowNumber : nat) (email : string) :
  isDuplicateInDatabase (duplicateInDatabase rowNumber email) = true.
Proof.
  unfold isDuplicateInDatabase, duplicateInDatabase. simpl.
  apply prefix_empty.
Qed.

Section Loop.

Variable assignedBy : option string.
Variable V : list LeadData.t.
Variable E : list string.

Let run := Excel.processLeads assignedBy V E.

Lemma run_nil db : run [] db = ([], [], db).
Proof. reflexivity. Qed.

(** One step of the loop, by cases on what happens to the lead. *)
Lemma run_cons (L : LeadData.t) (rest : list LeadData.t) (db : Store.t) :
  (Js.mem (LeadData.email L) E = true /\
   run (L :: rest) db =
     (duplicateInDatabase (Excel.originalRow V L) (LeadData.email L) :: fst (fst (run rest db)),
      snd (fst (run rest db)), snd (run rest db)))
  \/
  (Js.mem (LeadData.email L) E = false /\
   exists doc db1, Store.create (Excel.toInput L assignedBy) db = inr (doc, db1) /\
   run (L :: rest) db =
     (fst (fst (run rest db1)), doc :: snd (fst (run rest db1)), snd (run rest db1)))
  \/
  (Js.mem (LeadData.email L) E = false /\
   exists e, Store.create (Excel.toInput L assignedBy) db = inl e /\
   run (L :: rest) db =
     (Err.mk (Excel.originalRow V L) "database" (Store.error_message e)
        :: fst (fst (run rest db)),
      snd (fst (run rest db)), snd (run rest db))).
Proof.
  unfold run. simpl.
  destruct (Js.mem (LeadData.email L) E) eqn:M.
  - left. split; [reflexivity|].
    destruct (Excel.processLeads assignedBy V E rest db) as [[errs created] db'].
    reflexivity.
  - right. destruct (Store.create (Excel.toInput L assignedBy) db) as [e | [doc db1]] eqn:C.
    + right. split; [reflexivity|]. exists e. split; [reflexivity|].
      destruct (Excel.processLeads assignedBy V E rest db) as [[errs created] db'].
      reflexivity.
    + left. split; [reflexivity|]. exists doc, db1. split; [reflexivity|].
      destruct (Excel.processLeads assignedBy V E rest db1) as [[errs created] db'].
      reflexivity.
Qed.

Ltac loop_cases L rest db :=
  destruct (run_cons L rest db)
    as [[Hmem Hrun] | [[Hmem (doc & db1 & Hcreate & Hrun)] | [Hmem (e & Hcreate & Hrun)]]];
  rewrite Hrun; cbn [fst snd].

(** Every lead of the loop ends as exactly one error or one created lead. *)
Lemma run_length todo : forall db,
  List.length (fst (fst (run todo db))) + List.length (snd (fst (run todo db)))
  = List.length todo.
Proof.
  induction todo as [|L rest IH]; intros db; [reflexivity|].
  loop_cases L rest db; simpl.
  - now rewrite IH.
  - rewrite Nat.add_succ_r. now rewrite IH.
  - now rewrite IH.
Qed.

(** The loop only appends: the leads it creates are put behind the
    documents that were there, which stay as they are. *)
Lemma run_docs todo : forall db,
  Store.docs (snd (run todo db)) = Store.docs db ++ snd (fst (run todo db)) /\
  Store.nextId (snd (run todo db)) = Store.nextId db + List.length (snd (fst (run todo db))).
Proof.
  induction todo as [|L rest IH]; intros db.
  - simpl. now rewrite app_nil_r, Nat.add_0_r.
  - loop_cases L rest db.
    + apply IH.
    + apply create_accepted in Hcreate.
      destruct Hcreate as (_ & _ & _ & Hd & Hn & _).
      destruct (IH db1) as [IHd IHn]. rewrite IHd, IHn, Hd, Hn. simpl.
      split; [now rewrite <- app_assoc | lia].
    + apply IH.
Qed.

(** A created lead comes from a lead of the loop whose address was not
    reported as existing. *)
Lemma run_created todo : forall db d,
  In d (snd (fst (run todo db))) ->
  exists L, In L todo /\ Js.mem (LeadData.email L) E = false /\
            Lead.email d = Store.set_email (LeadData.email L).
Proof.
  induction todo as [|L rest IH]; intros db d; [contradiction|].
  loop_cases L rest db.
  - intros H. destruct (IH _ _ H) as (L' & HL' & R). exists L'. split; [now right | exact R].
  - intros [<- | H].
    + exists L. split; [now left|]. split; [exact Hmem|].
      apply create_accepted in Hcreate. now destruct Hcreate as (He & _).
    + destruct (IH _ _ H) as (L' & HL' & R). exists L'. split; [now right | exact R].
  - intros H. destruct (IH _ _ H) as (L' & HL' & R). exists L'. split; [now right | exact R].
Qed.

(** A lead whose address is reported as existing gets its error. *)
Lemma run_duplicate todo : forall db L,
  In L todo -> Js.mem (LeadData.email L) E = true ->
  In (duplicateInDatabase (Excel.originalRow V L) (LeadData.email L)) (fst (fst (run todo db))).
Proof.
  induction todo as [|L0 rest IH]; intros db L; [contradiction|].
  intros [-> | Hin] HE.
  - loop_cases L rest db; try congruence. now left.
  - loop_cases L0 rest db.
    + right. now apply IH.
    + now apply IH.
    + right. now apply IH.
Qed.

(** The errors of the loop are duplicate-in-database entries, one for
    each lead whose address is reported as existing, and entries of the
    field [database]. *)
Lemma run_count_duplicates todo : forall db,
  countDuplicateInDatabase (fst (fst (run todo db))) =
  List.length (filter (fun L => Js.mem (LeadData.email L) E) todo).
Proof.
  unfold countDuplicateInDatabase.
  induction todo as [|L rest IH]; intros db; [reflexivity|].
  loop_cases L rest db; cbn [filter]; rewrite Hmem.
  - rewrite isDuplicateInDatabase_recognizes. simpl. now rewrite IH.
  - apply IH.
  - change (isDuplicateInDatabase
              (Err.mk (Excel.originalRow V L) "database" (Store.error_message e)))
      with false.
    apply IH.
Qed.

(** What the first run leaves for a second one: each lead of the loop was
    reported as existing, or was created, or is refused by every
    collection that contains the final one. *)
Lemma run_outcomes todo : forall db L,
  In L todo ->
  Js.mem (LeadData.email L) E = true \/
  (exists d, In d (snd (fst (run todo db))) /\
             Lead.email d = Store.set_email (LeadData.email L)) \/
  (forall s, incl (Store.docs (snd (run todo db))) (Store.docs s) ->
             exists e, Store.create (Excel.toInput L assignedBy) s = inl e).
Proof.
  induction todo as [|L0 rest IH]; intros db L; [contradiction|].
  intros [-> | Hin].
  - loop_cases L rest db.
    + now left.
    + right. left. exists doc. split; [now left|].
      apply create_accepted in Hcreate. now destruct Hcreate as (He & _).
    + right. right. intros s Hs.
      eapply create_refused_mono; [exact Hcreate|].
      destruct (run_docs rest db) as [Hd _]. rewrite Hd in Hs.
      intros x Hx. apply Hs. apply in_or_app. now left.
  - loop_cases L0 rest db.
    + now apply IH.
    + destruct (IH db1 L Hin) as [H | [(d & Hd & Ed) | H]].
      * now left.
      * right. left. exists d. split; [now right | exact Ed].
      * right. now right.
    + now apply IH.
Qed.

End Loop.

(* ================================================================== *)
(** ** The import as a whole *)
(* ================================================================== *)

Section WholeImport.

Variable assignedBy : option string.
Variable sheet : Excel.Sheet.
Variable db : Store.t.

Let loop := loopOf assignedBy sheet db.

(** The response of a run that reached the rows, in terms of its phases. *)
Lemma importSheet_phases :
  Excel.importSheet assignedBy sheet db =
  (Excel.mkResponse 200 true
     ("Import completed. " +++ Js.of_nat (List.length (snd (fst loop))) +++
      " leads imported successfully.")
     []
     (Excel.mkData (List.length (Excel.jsonData sheet))
        (List.length (snd (fst loop)))
        (List.length (Excel.jsonData sheet) - List.length (snd (fst loop)))
        (validationErrorsOf sheet
         ++ Excel.duplicateErrors (Excel.buildEmailMap [] 0 (validLeadsOf sheet))
         ++ fst (fst loop))
        (snd (fst loop))),
   snd loop).
Proof.
  unfold Excel.importSheet, loop, loopOf, proceedingLeadsOf, validLeadsOf, validationErrorsOf.
  destruct (Excel.validateRows (Excel.jsonData sheet) 0) as [validLeads errors1]. simpl.
  destruct (Excel.processLeads _ _ _ _ _) as [[errors3 created] db']. reflexivity.
Qed.

Lemma validateRows_length rows : forall i,
  List.length (fst (Excel.validateRows rows i)) <= List.length rows.
Proof.
  induction rows as [|r rest IH]; intros i; simpl; [lia|].
  specialize (IH (S i)).
  destruct (Excel.validateRows rest (S i)) as [validLeads errors].
  destruct (Excel.validateAndNormalizeLeadRow r (i + 2)) as [[] [l|] e]; simpl in *; lia.
Qed.

Lemma keepFirst_length V : forall seen, List.length (keepFirst seen V) <= List.length V.
Proof.
  induction V as [|x r IH]; intros seen; simpl; [lia|].
  specialize (IH (seen ++ [LeadData.email x])).
  destruct (Js.mem _ seen); simpl; lia.
Qed.

(** No more leads are created than rows were read. *)
Lemma created_le_total :
  List.length (snd (fst loop)) <= List.length (Excel.jsonData sheet).
Proof.
  unfold loop, loopOf.
  pose proof (run_length assignedBy (validLeadsOf sheet)
                (Store.find_emails_in (map LeadData.email (proceedingLeadsOf sheet)) db)
                (proceedingLeadsOf sheet) db) as HL.
  unfold proceedingLeadsOf in *. rewrite uniqueValidLeads_keepFirst in *.
  pose proof (keepFirst_length (validLeadsOf sheet) []) as HK.
  pose proof (validateRows_length (Excel.jsonData sheet) 0) as HV.
  unfold validLeadsOf in *. lia.
Qed.

(** Conservation of the counts of a report. *)
Lemma import_conservation :
  let d := Excel.data (fst (Excel.importSheet assignedBy sheet db)) in
  Excel.successfulImports d + Excel.failedImports d = Excel.totalRows d /\
  Excel.successfulImports d = List.length (Excel.leads d).
Proof.
  rewrite importSheet_phases. simpl. pose proof created_le_total. split; [lia | reflexivity].
Qed.

Lemma validateRows_In rows : forall j i r L,
  nth_error rows i = Some r ->
  Excel.lead (Excel.validateAndNormalizeLeadRow r (j + i + 2)) = Some L ->
  In L (fst (Excel.validateRows rows j)).
Proof.
  induction rows as [|r0 rest IH]; intros j i r L; [now destruct i|].
  destruct i as [|i]; simpl.
  - intros H. inversion H. subst r0. rewrite Nat.add_0_r. intros HL.
    destruct (Excel.validateRows rest (S j)) as [validLeads errors].
    destruct (validate_cases r (j + 2)) as [(Hv & _) | (_ & _ & Hn)];
      [|simpl in Hn; congruence].
    simpl in Hv. rewrite Hv, HL. now left.
  - intros H HL. specialize (IH (S j) i r L H).
    replace (S j + i + 2) with (j + S i + 2) in IH by lia. specialize (IH HL).
    destruct (Excel.validateRows rest (S j)) as [validLeads errors].
    destruct (Excel.validateAndNormalizeLeadRow r0 (j + 2)) as [[] [l|] e]; simpl in *; auto.
Qed.

Lemma validateRows_normalized rows : forall j L,
  In L (fst (Excel.validateRows rows j)) -> normalizedEmail L.
Proof.
  induction rows as [|r rest IH]; intros j L; simpl; [contradiction|].
  specialize (IH (S j) L).
  destruct (Excel.validateRows rest (S j)) as [validLeads errors].
  destruct (Excel.isValid _) eqn:Hv; [|exact IH].
  destruct (Excel.lead _) as [l|] eqn:Hl; [|exact IH].
  simpl. intros [<- | H]; [|now apply IH].
  apply validate_lead in Hl. destruct Hl as (He & _). eexists. exact He.
Qed.

Lemma proceeding_normalized L : In L (proceedingLeadsOf sheet) -> normalizedEmail L.
Proof.
  unfold proceedingLeadsOf. rewrite uniqueValidLeads_keepFirst. intros H.
  apply keepFirst_incl in H. eapply validateRows_normalized, H.
Qed.

Lemma normalized_fixed L : normalizedEmail L -> Store.set_email (LeadData.email L) = LeadData.email L.
Proof. intros [raw ->]. apply set_email_normalized. Qed.

End WholeImport.

(** The file-level outcomes of [importFromExcel]. *)
Lemma importFromExcel_cases (queryFails : bool) (req : Excel.Request) (db : Store.t) :
  match firstSheet req with
  | Some sheet =>
      if queryFails
      then Excel.importFromExcel queryFails req db =
           (Excel.failure 500 "Failed to process Excel file" ["Database query failed"], db)
      else Excel.importFromExcel queryFails req db =
           Excel.importSheet (Excel.userId req) sheet db
  | None =>
      exists msg errs,
        Excel.importFromExcel queryFails req db = (Excel.failure 400 msg errs, db)
  end.
Proof.
  unfold firstSheet, Excel.importFromExcel.
  destruct (Excel.file req) as [f|]; [|eauto].
  destruct (Excel.parsed f) as [|[|[sheetName worksheet] others]]; [eauto | eauto |].
  destruct (Js.is_empty sheetName); [eauto|].
  destruct queryFails; reflexivity.
Qed.

(** C10.  A run that gets past the file-level checks and meets no
    exception answers 200 with [success: true] and a message that
    reports the number of imported leads, whatever happened to the rows
    (also when none was imported); [success: false] is returned exactly
    for the file-level failures and the exception, and then the report
    is empty and the collection untouched. *)
Theorem C10_success_flag (queryFails : bool) (req : Excel.Request) (db : Store.t) :
  let resp := fst (Excel.importFromExcel queryFails req db) in
  let d := Excel.data resp in
  (forall sheet, firstSheet req = Some sheet -> queryFails = false ->
     Excel.statusCode resp = 200 /\ Excel.success resp = true /\
     Excel.responseMessage resp =
       "Import completed. " +++ Js.of_nat (Excel.successfulImports d) +++
       " leads imported successfully." /\
     Excel.successfulImports d = List.length (Excel.leads d) /\
     Excel.failedImports d = Excel.totalRows d - Excel.successfulImports d)
  /\
  (Excel.success resp = false <-> firstSheet req = None \/ queryFails = true)
  /\
  (Excel.success resp = false ->
     d = Excel.emptyData /\ snd (Excel.importFromExcel queryFails req db) = db).
Proof.
  intros resp d. subst d resp.
  pose proof (importFromExcel_cases queryFails req db) as C.
  destruct (firstSheet req) as [sheet|].
  - destruct queryFails.
    + rewrite C. simpl. split; [intros ? ? ?; discriminate|].
      split; [split; [now right | reflexivity] | now split].
    + rewrite C, importSheet_phases. simpl.
      split; [intros ? _ _; repeat split|].
      split; [split; [discriminate | intros [H | H]; discriminate] | discriminate].
  - destruct C as (msg & errs & C). rewrite C. simpl.
    split; [intros ? ?; discriminate|].
    split; [split; [now left | reflexivity] | now split].
Qed.

Lemma C10_success_flag_witness :
  let resp :=
    fst (Excel.importFromExcel false (Sample.request Inputs.allRowsFail) Sample.emptyStore) in
  Excel.statusCode resp = 200 /\ Excel.success resp = true /\
  Excel.responseMessage resp = "Import completed. 0 leads imported successfully." /\
  Excel.successfulImports (Excel.data resp) = 0 /\
  Excel.failedImports (Excel.data resp) = Excel.totalRows (Excel.data resp).
Proof.
  intro resp. subst resp.
  destruct (C10_success_flag false (Sample.request Inputs.allRowsFail) Sample.emptyStore)
    as (H & _).
  destruct (H (Sample.header :: Inputs.allRowsFail) eq_refl eq_refl) as (Hc & Hs & Hm & _).
  split; [exact Hc|]. split; [exact Hs|]. split; [rewrite Hm; reflexivity|].
  split; reflexivity.
Defined.

(* ================================================================== *)
(** ** A row whose address is already stored *)
(* ================================================================== *)

Lemma originalRow_email V (L L' : LeadData.t) :
  LeadData.email L' = LeadData.email L -> Excel.originalRow V L' = Excel.originalRow V L.
Proof. unfold Excel.originalRow. now intros ->. Qed.


(* ================================================================== *)
(** ** Row counting and row numbers on concrete files *)
(* ================================================================== *)

(** C2 (defect).  The filter before the count keeps a row only when its
    name or e-mail cell holds text, although its comment announces the
    removal of completely empty rows: a data row that holds only a phone
    number is not empty, yet it is dropped before validation, so it is
    counted neither in totalRows nor in failedImports and produces no
    error. *)
Theorem C2_phone_only_row_dropped :
  let resp :=
    fst (Excel.importFromExcel false (Sample.request Inputs.phoneOnly) Sample.emptyStore) in
  emptyRow [None; None; Sample.c "555-0001"] = false /\
  Excel.jsonData (Sample.header :: Inputs.phoneOnly) = [] /\
  Excel.success resp = true /\
  Excel.totalRows (Excel.data resp) = 0 /\
  Excel.failedImports (Excel.data resp) = 0 /\
  Excel.rowErrors (Excel.data resp) = [].
Proof. vm_compute. repeat split. Qed.

(** C3 (defect).  After the validation loop the row number of an error is
    computed from the position of the lead among the valid leads, not
    among the rows of the sheet.  With spreadsheet row 2 invalid, the
    duplicate in spreadsheet row 4 is reported as row 3, and the stored
    address and the refused phone number of spreadsheet row 3 are both
    reported as row 2.  In the validation loop the number is the position
    among the rows that passed the filter: behind a dropped row 2 the
    missing e-mail of spreadsheet row 3 is reported as row 2. *)
Theorem C3_row_numbers_shift :
  nth_error (Sample.header :: Inputs.invalidThenTwins) 3 =
    Some [Sample.c "Bo2"; Sample.c "bo@x.com"; Sample.c "555-0003"] /\
  Excel.rowErrors (Excel.data (fst (Excel.importFromExcel false
      (Sample.request Inputs.invalidThenTwins) Sample.emptyStore))) =
    [ Err.mk 2 "email" "Email is required";
      Err.mk 3 "email" "Duplicate email within file: bo@x.com" ] /\
  nth_error (Sample.header :: Inputs.invalidThenStored) 2 =
    Some [Sample.c "Ann"; Sample.c "ann@x.com"; Sample.c "555-0001"] /\
  Excel.rowErrors (Excel.data (fst (Excel.importFromExcel false
      (Sample.request Inputs.invalidThenStored) Inputs.storeWithAnn))) =
    [ Err.mk 2 "email" "Email is required";
      Err.mk 2 "email" "Lead with email ann@x.com already exists in database" ] /\
  nth_error (Sample.header :: Inputs.invalidThenBadPhone) 2 =
    Some [Sample.c "Cy"; Sample.c "cy@x.com"; Sample.c "555-1"] /\
  Excel.rowErrors (Excel.data (fst (Excel.importFromExcel false
      (Sample.request Inputs.invalidThenBadPhone) Sample.emptyStore))) =
    [ Err.mk 2 "email" "Email is required";
      Err.mk 2 "database"
        "Lead validation failed: phone: Please enter a valid phone number" ] /\
  nth_error (Sample.header :: Inputs.droppedThenInvalid) 2 =
    Some [Sample.c "Zed"; None; Sample.c "555-0005"] /\
  Excel.rowErrors (Excel.data (fst (Excel.importFromExcel false
      (Sample.request Inputs.droppedThenInvalid) Sample.emptyStore))) =
    [ Err.mk 2 "email" "Email is required" ].
Proof. vm_compute. repeat split. Qed.

(** C6 (defect).  Of the two rows that share cy@x.com the first one
    (spreadsheet row 4) is imported and the second one (spreadsheet row
    5) is excluded with a duplicate-within-file error that names the
    address; but the error carries row 3, the position of the lead among
    the valid leads plus two, because two earlier rows did not validate. *)
Theorem C6_duplicate_row_misnumbered :
  let resp :=
    fst (Excel.importFromExcel false (Sample.request MoreInputs.twoInvalidThenTwins)
           Sample.emptyStore) in
  nth_error (Sample.header :: MoreInputs.twoInvalidThenTwins) 4 =
    Some [Sample.c "Cy2"; Sample.c "CY@x.com"; Sample.c "555-0004"] /\
  map Lead.name (Excel.leads (Excel.data resp)) = ["Cy"] /\
  filter (fun e => prefix "Duplicate email within file" (Err.message e))
         (Excel.rowErrors (Excel.data resp)) =
    [ duplicateWithinFile 3 "cy@x.com" ].
Proof. vm_compute. repeat split. Qed.

(* ================================================================== *)
(** ** Importing the same file twice *)
(* ================================================================== *)

Lemma mem_app (x : string) (a b : list string) : Js.mem x (a ++ b) = Js.mem x a || Js.mem x b.
Proof. apply existsb_app. Qed.

Section SecondRun.

Variable assignedBy : option string.
Variable V : list LeadData.t.

(** A loop in which every lead is reported as existing or refused by the
    collection creates nothing. *)
Lemma run_all_rejected (E : list string) (todo : list LeadData.t) : forall db,
  (forall L, In L todo ->
     Js.mem (LeadData.email L) E = true \/
     exists e, Store.create (Excel.toInput L assignedBy) db = inl e) ->
  snd (fst (Excel.processLeads assignedBy V E todo db)) = [] /\
  snd (Excel.processLeads assignedBy V E todo db) = db.
Proof.
  induction todo as [|L rest IH]; intros db H; [now split|].
  assert (Hrest : forall L0, In L0 rest ->
            Js.mem (LeadData.email L0) E = true \/
            exists e, Store.create (Excel.toInput L0 assignedBy) db = inl e)
    by (intros L0 H0; apply H; now right).
  destruct (run_cons assignedBy V E L rest db)
    as [[Hmem Hrun] | [[Hmem (doc & db1 & Hc & Hrun)] | [Hmem (e & Hc & Hrun)]]];
    rewrite Hrun; cbn [fst snd].
  - now apply IH.
  - exfalso. destruct (H L (or_introl eq_refl)) as [H1 | [e H1]]; congruence.
  - now apply IH.
Qed.

(** Addresses of the leads a loop creates, for leads with distinct
    normalized addresses. *)
Lemma created_not_other (E : list string) (todo : list LeadData.t) (db : Store.t)
      (L : LeadData.t) :
  (forall L0, In L0 todo -> normalizedEmail L0) ->
  ~ In (LeadData.email L) (map LeadData.email todo) ->
  Js.mem (LeadData.email L)
    (map Lead.email (snd (fst (Excel.processLeads assignedBy V E todo db)))) = false.
Proof.
  intros Hnorm Hnot. apply mem_false_In. intros Hin.
  apply in_map_iff in Hin. destruct Hin as (d & Ed & Hd).
  apply run_created in Hd. destruct Hd as (L0 & HL0 & _ & Hd).
  rewrite (normalized_fixed (Hnorm L0 HL0)) in Hd.
  apply Hnot. apply in_map_iff. exists L0. split; [congruence | exact HL0].
Qed.

(** Counting the leads whose address is in [X], a list that holds what
    [E] holds and the addresses of the leads the loop created. *)
Lemma run_count_after (E X : list string) (todo : list LeadData.t) : forall db,
  NoDup (map LeadData.email todo) ->
  (forall L, In L todo -> normalizedEmail L) ->
  (forall L, In L todo ->
     Js.mem (LeadData.email L) X =
     Js.mem (LeadData.email L) E
     || Js.mem (LeadData.email L)
          (map Lead.email (snd (fst (Excel.processLeads assignedBy V E todo db))))) ->
  List.length (filter (fun L => Js.mem (LeadData.email L) X) todo) =
  List.length (filter (fun L => Js.mem (LeadData.email L) E) todo)
  + List.length (snd (fst (Excel.processLeads assignedBy V E todo db))).
Proof.
  induction todo as [|L rest IH]; intros db Hnd Hnorm HX; [reflexivity|].
  inversion Hnd as [|? ? Hfresh Hnd']. subst.
  assert (Hnorm' : forall L0, In L0 rest -> normalizedEmail L0)
    by (intros L0 H0; apply Hnorm; now right).
  pose proof (HX L (or_introl eq_refl)) as HL.
  assert (HXrest : forall db0,
            Excel.processLeads assignedBy V E (L :: rest) db =
              (fst (fst (Excel.processLeads assignedBy V E (L :: rest) db)),
               snd (fst (Excel.processLeads assignedBy V E rest db0)),
               snd (Excel.processLeads assignedBy V E (L :: rest) db)) ->
            forall L0, In L0 rest ->
              Js.mem (LeadData.email L0) X =
              Js.mem (LeadData.email L0) E
              || Js.mem (LeadData.email L0)
                   (map Lead.email (snd (fst (Excel.processLeads assignedBy V E rest db0))))).
  { intros db0 Hsame L0 H0. rewrite (HX L0 (or_intror H0)). now rewrite Hsame. }
  destruct (run_cons assignedBy V E L rest db)
    as [[Hmem Hrun] | [[Hmem (doc & db1 & Hc & Hrun)] | [Hmem (e & Hc & Hrun)]]].
  - rewrite Hrun in HL |- *. cbn [fst snd] in *. cbn [filter].
    rewrite Hmem in HL |- *. simpl in HL. rewrite HL. simpl.
    f_equal. apply IH; [assumption | assumption |].
    apply HXrest. now rewrite Hrun.
  - assert (Edoc : Lead.email doc = LeadData.email L).
    { apply create_accepted in Hc. destruct Hc as (He & _). simpl in He.
      rewrite He. apply normalized_fixed, Hnorm. now left. }
    rewrite Hrun in HL |- *. cbn [fst snd] in *. cbn [filter].
    rewrite Hmem in HL |- *. simpl in HL. rewrite Edoc, String.eqb_refl in HL.
    simpl in HL. rewrite HL. simpl. rewrite Nat.add_succ_r. f_equal.
    apply IH; [assumption | assumption |].
    intros L0 H0. rewrite (HX L0 (or_intror H0)), Hrun. cbn [fst snd map].
    simpl. rewrite Edoc.
    destruct (String.eqb (LeadData.email L0) (LeadData.email L)) eqn:Eq; [|reflexivity].
    exfalso. apply Hfresh. apply String.eqb_eq in Eq. rewrite <- Eq. now apply in_map.
  - rewrite Hrun in HL |- *. cbn [fst snd] in *. cbn [filter].
    rewrite Hmem in HL |- *. simpl in HL.
    rewrite (created_not_other E rest db L Hnorm' Hfresh) in HL. rewrite HL.
    apply IH; [assumption | assumption |].
    apply HXrest. now rewrite Hrun.
Qed.

End SecondRun.

Section Reimport.

Variable assignedBy : option string.
Variable sheet : Excel.Sheet.
Variable db0 : Store.t.

Let U := proceedingLeadsOf sheet.
Let E0 := Store.find_emails_in (map LeadData.email U) db0.
Let loop1 := loopOf assignedBy sheet db0.
Let db1 := snd loop1.
Let E1 := Store.find_emails_in (map LeadData.email U) db1.
Let loop2 := loopOf assignedBy sheet db1.

Lemma proceeding_NoDup : NoDup (map LeadData.email U).
Proof.
  unfold U, proceedingLeadsOf. rewrite uniqueValidLeads_keepFirst. apply keepFirst_NoDup.
Qed.

(** After the first run, the addresses reported as existing are those
    reported before and those of the leads the first run created. *)
Lemma existing_after_first L :
  In L U ->
  Js.mem (LeadData.email L) E1 =
  Js.mem (LeadData.email L) E0
  || Js.mem (LeadData.email L) (map Lead.email (snd (fst loop1))).
Proof.
  intros HL. unfold E1, E0. rewrite !mem_find_emails_in.
  assert (HU : Js.mem (LeadData.email L) (map LeadData.email U) = true)
    by (apply mem_In; now apply in_map).
  rewrite HU. simpl. unfold db1, loop1, loopOf.
  destruct (run_docs assignedBy (validLeadsOf sheet)
              (Store.find_emails_in (map LeadData.email (proceedingLeadsOf sheet)) db0)
              (proceedingLeadsOf sheet) db0) as [Hd _].
  rewrite Hd, map_app, mem_app. reflexivity.
Qed.

Lemma second_run_rejects L :
  In L U ->
  Js.mem (LeadData.email L) E1 = true \/
  exists e, Store.create (Excel.toInput L assignedBy) db1 = inl e.
Proof.
  intros HL.
  destruct (run_outcomes assignedBy (validLeadsOf sheet) E0 U db0 L HL)
    as [H | [(d & Hd & Ed) | H]].
  - left. rewrite (existing_after_first L HL). now rewrite H.
  - left. rewrite (existing_after_first L HL). apply orb_true_iff. right.
    apply mem_In. apply in_map_iff. exists d. split; [|exact Hd].
    rewrite Ed. apply normalized_fixed. now apply (@proceeding_normalized sheet).
  - right. apply H. apply incl_refl.
Qed.

Lemma second_loop :
  snd (fst loop2) = [] /\ snd loop2 = db1 /\
  List.length (fst (fst loop2)) = List.length (fst (fst loop1)) + List.length (snd (fst loop1)) /\
  countDuplicateInDatabase (fst (fst loop2)) =
    countDuplicateInDatabase (fst (fst loop1)) + List.length (snd (fst loop1)) /\
  (forall d, In d (snd (fst loop1)) ->
     exists k, In (duplicateInDatabase k (Lead.email d)) (fst (fst loop2))).
Proof.
  destruct (run_all_rejected assignedBy (validLeadsOf sheet) E1 U db1 second_run_rejects)
    as [Hnone Hsame].
  split; [exact Hnone|]. split; [exact Hsame|]. split; [|split].
  - pose proof (run_length assignedBy (validLeadsOf sheet) E1 U db1) as H2.
    pose proof (run_length assignedBy (validLeadsOf sheet) E0 U db0) as H1.
    fold loop1 in H1. unfold loop2, loopOf. fold U E1.
    rewrite Hnone in H2. simpl in H2. unfold loop1, loopOf in *. fold U E0 in H1 |- *. lia.
  - unfold loop2, loop1, loopOf. fold U E0 E1.
    rewrite !run_count_duplicates.
    apply run_count_after.
    + apply proceeding_NoDup.
    + intros L HL. now apply (@proceeding_normalized sheet).
    + apply existing_after_first.
  - intros d Hd. unfold loop1, loopOf in Hd. fold U E0 in Hd.
    pose proof Hd as Hd'.
    apply run_created in Hd. destruct Hd as (L & HL & _ & Ed).
    rewrite (@normalized_fixed L (@proceeding_normalized sheet L HL)) in Ed.
    exists (Excel.originalRow (validLeadsOf sheet) L). rewrite Ed.
    unfold loop2, loopOf. fold U E1. apply run_duplicate; [exact HL|].
    rewrite (existing_after_first L HL). apply orb_true_iff. right.
    apply mem_In. apply in_map_iff. exists d. split; [exact Ed | exact Hd'].
Qed.

End Reimport.

(* ================================================================== *)
(** ** Counting the errors of a report *)
(* ================================================================== *)

Section Counting.

Implicit Types (m : Excel.EmailMap) (V : list LeadData.t).

Lemma keepFirst_ext V : forall s1 s2,
  (forall x, Js.mem x s1 = Js.mem x s2) -> keepFirst s1 V = keepFirst s2 V.
Proof.
  induction V as [|l r IH]; intros s1 s2 H; simpl; [reflexivity|].
  rewrite (H (LeadData.email l)).
  rewrite (IH (s1 ++ [LeadData.email l]) (s2 ++ [LeadData.email l])).
  - reflexivity.
  - intros x. now rewrite !mem_app, H.
Qed.

Lemma keys_push m e i x :
  Js.mem x (keys (Excel.emailMap_push m e i)) = Js.mem x (keys m ++ [e]).
Proof.
  unfold keys. induction m as [|[k v] r IH]; simpl; [reflexivity|].
  destruct (String.eqb k e) eqn:E; simpl.
  - apply String.eqb_eq in E. subst k. rewrite mem_app. simpl.
    destruct (String.eqb x e); simpl; [reflexivity|].
    now rewrite orb_false_r.
  - now rewrite IH.
Qed.

Lemma populated_push m e i : populated m -> populated (Excel.emailMap_push m e i).
Proof.
  unfold populated. induction m as [|[k v] r IH]; intros H; simpl.
  - constructor; [discriminate | constructor].
  - inversion H as [|? ? Hv Hr]. subst. destruct (String.eqb k e).
    + constructor; [|exact Hr]. simpl. now destruct v.
    + constructor; [exact Hv | now apply IH].
Qed.

Lemma entry_errors_length (f : nat -> Err.t) (indices : list nat) :
  List.length (if 1 <? List.length indices then map f (skipn 1 indices) else []) =
  List.length indices - 1.
Proof.
  destruct indices as [|a [|b r]]; simpl; [reflexivity | reflexivity|].
  rewrite length_map. lia.
Qed.

Lemma duplicateErrors_cons k v m :
  List.length (Excel.duplicateErrors ((k, v) :: m)) =
  (List.length v - 1) + List.length (Excel.duplicateErrors m).
Proof.
  unfold Excel.duplicateErrors. simpl. rewrite length_app.
  now rewrite entry_errors_length.
Qed.

Lemma duplicateErrors_push m e i :
  populated m ->
  List.length (Excel.duplicateErrors (Excel.emailMap_push m e i)) =
  List.length (Excel.duplicateErrors m) + (if Js.mem e (keys m) then 1 else 0).
Proof.
  unfold populated, keys. induction m as [|[k v] r IH]; intros H; [reflexivity|].
  inversion H as [|? ? Hv Hr]. subst. simpl in Hv.
  change (Js.mem e (map fst ((k, v) :: r)))
    with (String.eqb e k || Js.mem e (map fst r)).
  cbn [Excel.emailMap_push]. rewrite (String.eqb_sym e k).
  destruct (String.eqb k e) eqn:E.
  - rewrite !duplicateErrors_cons, length_app. cbn [orb List.length].
    destruct v; [now elim Hv | simpl; lia].
  - rewrite !duplicateErrors_cons, IH by assumption. cbn [orb]. lia.
Qed.

(** Each valid lead either proceeds or accounts for one
    duplicate-within-file error. *)
Lemma duplicateErrors_build V : forall m i,
  populated m ->
  List.length (Excel.duplicateErrors (Excel.buildEmailMap m i V))
  + List.length (keepFirst (keys m) V)
  = List.length (Excel.duplicateErrors m) + List.length V.
Proof.
  induction V as [|l r IH]; intros m i Hm; simpl; [lia|].
  specialize (IH _ (S i) (@populated_push m (LeadData.email l) i Hm)).
  rewrite (@keepFirst_ext r _ _ (keys_push m (LeadData.email l) i)) in IH.
  rewrite duplicateErrors_push in IH by assumption.
  destruct (Js.mem (LeadData.email l) (keys m)); simpl; lia.
Qed.

Lemma duplicateErrors_count V :
  List.length (Excel.duplicateErrors (Excel.buildEmailMap [] 0 V))
  + List.length (Excel.uniqueValidLeads V) = List.length V.
Proof.
  rewrite uniqueValidLeads_keepFirst.
  apply (@duplicateErrors_build V [] 0). constructor.
Qed.

(** One step of the validation loop. *)
Lemma validateRows_cons (r : Row.t) (rest : list Row.t) (i : nat) :
  (exists l, Excel.lead (Excel.validateAndNormalizeLeadRow r (i + 2)) = Some l /\
             Excel.validateRows (r :: rest) i =
               (l :: fst (Excel.validateRows rest (S i)), snd (Excel.validateRows rest (S i))))
  \/
  (Excel.errors (Excel.validateAndNormalizeLeadRow r (i + 2)) <> [] /\
   Excel.validateRows (r :: rest) i =
     (fst (Excel.validateRows rest (S i)),
      Excel.errors (Excel.validateAndNormalizeLeadRow r (i + 2))
      ++ snd (Excel.validateRows rest (S i)))).
Proof.
  pose proof (validate_cases r (i + 2)) as C. cbv zeta in C.
  cbn [Excel.validateRows].
  destruct (Excel.validateRows rest (S i)) as [validLeads errors].
  destruct (Excel.validateAndNormalizeLeadRow r (i + 2)) as [v l e].
  cbn [Excel.isValid Excel.lead Excel.errors fst snd] in *.
  destruct C as [(-> & _ & l0 & ->) | (-> & He & ->)].
  - left. exists l0. now split.
  - right. now split.
Qed.

(** Each row either validates or accounts for at least one error. *)
Lemma validateRows_accounts rows : forall i,
  List.length rows <=
  List.length (fst (Excel.validateRows rows i)) + List.length (snd (Excel.validateRows rows i)).
Proof.
  induction rows as [|r rest IH]; intros i; [simpl; lia|].
  specialize (IH (S i)).
  destruct (validateRows_cons r rest i) as [(l & _ & ->) | (He & ->)]; cbn [fst snd].
  - simpl. lia.
  - rewrite length_app.
    destruct (Excel.errors (Excel.validateAndNormalizeLeadRow r (i + 2)));
      [now elim He | simpl; lia].
Qed.

Lemma validateRows_all_valid rows : forall i,
  List.length (fst (Excel.validateRows rows i)) = List.length rows ->
  snd (Excel.validateRows rows i) = [].
Proof.
  induction rows as [|r rest IH]; intros i; [reflexivity|].
  pose proof (validateRows_length rest (S i)) as Hle.
  specialize (IH (S i)).
  destruct (validateRows_cons r rest i) as [(l & _ & ->) | (He & ->)]; cbn [fst snd].
  - simpl. intros H. apply IH. lia.
  - simpl. intros H. lia.
Qed.

End Counting.

Lemma filter_all {A} (p : A -> bool) (l : list A) :
  List.length (filter p l) = List.length l -> Forall (fun x => p x = true) l.
Proof.
  induction l as [|x r IH]; simpl; [constructor|].
  pose proof (filter_length_le p r) as Hle.
  destruct (p x) eqn:E; simpl; intros H; [|lia].
  constructor; [exact E | apply IH; lia].
Qed.

Lemma count_app (a b : list Err.t) :
  countDuplicateInDatabase (a ++ b) = countDuplicateInDatabase a + countDuplicateInDatabase b.
Proof. unfold countDuplicateInDatabase. now rewrite filter_app, length_app. Qed.

(** A run that imported every row reported no error. *)
Lemma all_imported_no_errors (assignedBy : option string) (sheet : Excel.Sheet)
      (db : Store.t) :
  let d := Excel.data (fst (Excel.importSheet assignedBy sheet db)) in
  Excel.successfulImports d = Excel.totalRows d -> Excel.rowErrors d = [].
Proof.
  rewrite importSheet_phases. cbn [fst Excel.data Excel.successfulImports Excel.totalRows
                                   Excel.rowErrors].
  unfold loopOf.
  pose proof (run_length assignedBy (validLeadsOf sheet)
                (Store.find_emails_in (map LeadData.email (proceedingLeadsOf sheet)) db)
                (proceedingLeadsOf sheet) db) as HL.
  pose proof (duplicateErrors_count (validLeadsOf sheet)) as HD.
  pose proof (validateRows_length (Excel.jsonData sheet) 0) as HV.
  pose proof (validateRows_all_valid (Excel.jsonData sheet) 0) as HA.
  unfold proceedingLeadsOf, validationErrorsOf, validLeadsOf in *.
  intros H.
  rewrite HA by lia.
  destruct (Excel.duplicateErrors _); [|simpl in HD; lia].
  destruct (fst (fst (Excel.processLeads _ _ _ _ _))); [reflexivity | simpl in HL; lia].
Qed.

(** Every failed row accounts for at least one entry of the report. *)
Lemma failed_rows_have_errors (assignedBy : option string) (sheet : Excel.Sheet)
      (db : Store.t) :
  let d := Excel.data (fst (Excel.importSheet assignedBy sheet db)) in
  Excel.failedImports d <= List.length (Excel.rowErrors d).
Proof.
  rewrite importSheet_phases. cbn [fst Excel.data Excel.failedImports Excel.rowErrors].
  unfold loopOf.
  pose proof (run_length assignedBy (validLeadsOf sheet)
                (Store.find_emails_in (map LeadData.email (proceedingLeadsOf sheet)) db)
                (proceedingLeadsOf sheet) db) as HL.
  pose proof (duplicateErrors_count (validLeadsOf sheet)) as HD.
  pose proof (validateRows_accounts (Excel.jsonData sheet) 0) as HV.
  unfold proceedingLeadsOf, validationErrorsOf, validLeadsOf in *.
  rewrite !length_app. lia.
Qed.

(** C7 (amended).  Importing the same file again, right after a first
    import of it, creates nothing and leaves the collection as the first
    import left it.  Each lead the first import created is now answered
    by a duplicate-in-database error: the second report has as many more
    errors, and as many more duplicate-in-database errors, as the first
    import created leads; the rows the first import rejected are
    rejected again.  When the first import imported every row, the
    second report consists of exactly one duplicate-in-database error per
    row. *)
Theorem C7_reimport (req : Excel.Request) (db0 : Store.t) :
  let first := Excel.importFromExcel false req db0 in
  let second := Excel.importFromExcel false req (snd first) in
  let d1 := Excel.data (fst first) in
  let d2 := Excel.data (fst second) in
  Excel.successfulImports d2 = 0 /\
  snd second = snd first /\
  Excel.totalRows d2 = Excel.totalRows d1 /\
  List.length (Excel.rowErrors d2) =
    List.length (Excel.rowErrors d1) + Excel.successfulImports d1 /\
  countDuplicateInDatabase (Excel.rowErrors d2) =
    countDuplicateInDatabase (Excel.rowErrors d1) + Excel.successfulImports d1 /\
  (forall d, In d (Excel.leads d1) ->
     exists k, In (duplicateInDatabase k (Lead.email d)) (Excel.rowErrors d2)) /\
  (Excel.successfulImports d1 = Excel.totalRows d1 ->
     List.length (Excel.rowErrors d2) = Excel.totalRows d2 /\
     Forall (fun e => isDuplicateInDatabase e = true) (Excel.rowErrors d2)).
Proof.
  intros first second d1 d2. subst d1 d2 second first.
  pose proof (importFromExcel_cases false req db0) as C1.
  destruct (firstSheet req) as [sheet|] eqn:Hsheet.
  - rewrite C1.
    pose proof (importFromExcel_cases false req
                  (snd (Excel.importSheet (Excel.userId req) sheet db0))) as C2.
    rewrite Hsheet in C2. rewrite C2.
    pose proof (all_imported_no_errors (Excel.userId req) sheet db0) as Hall.
    cbv zeta in Hall. revert Hall.
    rewrite (importSheet_phases (Excel.userId req) sheet db0).
    cbn [fst snd Excel.data Excel.successfulImports Excel.totalRows Excel.rowErrors
         Excel.leads].
    intros Hall.
    rewrite importSheet_phases.
    cbn [fst snd Excel.data Excel.successfulImports Excel.totalRows Excel.rowErrors
         Excel.leads].
    destruct (second_loop (Excel.userId req) sheet db0)
      as (Hnone & Hsame & Hlen & Hcount & Hdup).
    rewrite Hnone, Hsame. simpl List.length.
    split; [reflexivity|]. split; [reflexivity|]. split; [reflexivity|].
    assert (Hlen2 :
      List.length
        (validationErrorsOf sheet ++
         Excel.duplicateErrors (Excel.buildEmailMap [] 0 (validLeadsOf sheet)) ++
         fst (fst (loopOf (Excel.userId req) sheet
                          (snd (loopOf (Excel.userId req) sheet db0))))) =
      List.length
        (validationErrorsOf sheet ++
         Excel.duplicateErrors (Excel.buildEmailMap [] 0 (validLeadsOf sheet)) ++
         fst (fst (loopOf (Excel.userId req) sheet db0)))
      + List.length (snd (fst (loopOf (Excel.userId req) sheet db0)))).
    { rewrite !length_app, Hlen. lia. }
    assert (Hcount2 :
      countDuplicateInDatabase
        (validationErrorsOf sheet ++
         Excel.duplicateErrors (Excel.buildEmailMap [] 0 (validLeadsOf sheet)) ++
         fst (fst (loopOf (Excel.userId req) sheet
                          (snd (loopOf (Excel.userId req) sheet db0))))) =
      countDuplicateInDatabase
        (validationErrorsOf sheet ++
         Excel.duplicateErrors (Excel.buildEmailMap [] 0 (validLeadsOf sheet)) ++
         fst (fst (loopOf (Excel.userId req) sheet db0)))
      + List.length (snd (fst (loopOf (Excel.userId req) sheet db0)))).
    { rewrite !count_app, Hcount. lia. }
    split; [exact Hlen2|]. split; [exact Hcount2|]. split.
    + intros d Hd. destruct (Hdup d Hd) as [k Hk]. exists k.
      apply in_or_app. right. apply in_or_app. now right.
    + intros Hfull. specialize (Hall Hfull).
      rewrite Hall in Hlen2, Hcount2. simpl in Hlen2, Hcount2.
      split; [rewrite Hlen2; exact Hfull|].
      apply filter_all. unfold countDuplicateInDatabase in Hcount2. congruence.
  - destruct C1 as (msg & errs & C1). rewrite C1. cbn [fst snd].
    pose proof (importFromExcel_cases false req db0) as C2.
    rewrite Hsheet in C2. destruct C2 as (msg2 & errs2 & C2). rewrite C2.
    simpl. repeat match goal with |- _ /\ _ => split end; try reflexivity.
    + intros d Hd. contradiction.
    + intros _. split; [reflexivity | constructor].
Qed.

Lemma C7_reimport_witness :
  let d2 := Reimported.secondReport Reimported.twoValid Sample.emptyStore in
  Excel.successfulImports d2 = 0 /\
  List.length (Excel.rowErrors d2) = Excel.totalRows d2 /\
  Forall (fun e => isDuplicateInDatabase e = true) (Excel.rowErrors d2).
Proof.
  intro d2. subst d2. unfold Reimported.secondReport.
  destruct (C7_reimport (Sample.request Reimported.twoValid) Sample.emptyStore)
    as (Hzero & _ & _ & _ & _ & _ & Hfull).
  split; [exact Hzero|].
  apply Hfull. vm_compute. reflexivity.
Defined.

(** C7 as stated fails: the file holds one row that imports and one row
    with a malformed e-mail address.  The second import of it reports the
    malformed address again, which is no duplicate-in-database error, so
    there are two rows but one duplicate-in-database error. *)
Lemma C7_counterexample :
  let d2 := Reimported.secondReport Inputs.validAndInvalid Sample.emptyStore in
  Excel.successfulImports d2 = 0 /\
  Excel.totalRows d2 = 2 /\
  Excel.rowErrors d2 =
    [ Err.mk 3 "email" "Invalid email format";
      Err.mk 2 "email" "Lead with email ann@x.com already exists in database" ] /\
  countDuplicateInDatabase (Excel.rowErrors d2) <> Excel.totalRows d2.
Proof. vm_compute. repeat split. discriminate. Qed.

(* ================================================================== *)
(** ** Uniqueness of e-mail addresses and phone numbers *)
(* ================================================================== *)

Section Uniqueness.

Lemma NoDup_snoc {A} (l : list A) (x : A) : NoDup l -> ~ In x l -> NoDup (l ++ [x]).
Proof.
  induction l as [|y r IH]; simpl; intros Hnd Hx.
  - constructor; [exact Hx | constructor].
  - inversion Hnd as [|? ? Hy Hr]. subst. constructor.
    + intros Hin. apply in_app_or in Hin. destruct Hin as [Hin | [-> | []]]; tauto.
    + apply IH; tauto.
Qed.

(** An accepted insertion keeps the invariant. *)
Lemma save_new_invariant sm d s d' s' :
  invariant s -> Lead._id d = Store.nextId s ->
  Store.save_new sm d s = inr (d', s') -> invariant s'.
Proof.
  intros (He & Hp & Hn & Hlt) Hid H.
  apply save_new_accepted in H. destruct H as (-> & Hd & Hnext & Hme & Hmp).
  unfold invariant, uniqueEmails, uniquePhones, distinctIds.
  rewrite Hd, Hnext, !map_app. simpl.
  rewrite preSave_email, preSave_phone, preSave_id.
  split; [|split; [|split]].
  - apply NoDup_snoc; [exact He | now apply mem_false_In].
  - apply NoDup_snoc; [exact Hp | now apply mem_false_In].
  - apply NoDup_snoc; [exact Hn|]. rewrite Hid. intros Hin.
    apply in_map_iff in Hin. destruct Hin as (o & Eo & Ho).
    rewrite Forall_forall in Hlt. specialize (Hlt o Ho). lia.
  - apply Forall_app. split.
    + eapply Forall_impl; [|exact Hlt]. simpl. intros; lia.
    + constructor; [|constructor]. rewrite preSave_id, Hid. lia.
Qed.

(** A document that passes the schema checks and collides with a stored
    one is refused with the duplicate-key error. *)
Lemma save_new_collision sm d s :
  Store.validate d = [] ->
  Js.mem (Lead.email d) (map Lead.email (Store.docs s)) = true \/
  Js.mem (Lead.phone d) (map Lead.phone (Store.docs s)) = true ->
  exists f v, Store.save_new sm d s = inl (Store.DuplicateKey f v).
Proof.
  intros Hv Hc. unfold Store.save_new. rewrite Hv.
  destruct (Store.unique_violation _ _) as [e|] eqn:U.
  - unfold Store.unique_violation in U.
    destruct (existsb _ _); [inversion U; eauto|].
    destruct (existsb _ _); [inversion U; eauto | discriminate].
  - apply unique_violation_none in U. rewrite preSave_email, preSave_phone in U.
    destruct U as [Ue Up]. destruct Hc; congruence.
Qed.

Lemma run_invariant assignedBy V E todo : forall db,
  invariant db -> invariant (snd (Excel.processLeads assignedBy V E todo db)).
Proof.
  induction todo as [|L rest IH]; intros db Hinv; [exact Hinv|].
  destruct (run_cons assignedBy V E L rest db)
    as [[Hmem Hrun] | [[Hmem (doc & db1 & Hc & Hrun)] | [Hmem (e & Hc & Hrun)]]];
    rewrite Hrun; cbn [snd]; apply IH; try exact Hinv.
  unfold Store.create in Hc. eapply save_new_invariant; [exact Hinv | | exact Hc].
  reflexivity.
Qed.

(** *** Replacing a document *)

Lemma others_all id l : ~ In id (map Lead._id l) -> Store.others id l = l.
Proof.
  unfold Store.others. induction l as [|o r IH]; simpl; [reflexivity|].
  intros H. destruct (Lead._id o =? id) eqn:E.
  - apply Nat.eqb_eq in E. tauto.
  - simpl. f_equal. apply IH. tauto.
Qed.

Lemma replace_ids d l : map Lead._id (Store.replace d l) = map Lead._id l.
Proof.
  induction l as [|o r IH]; simpl; [reflexivity|].
  destruct (Lead._id o =? Lead._id d) eqn:E; simpl.
  - apply Nat.eqb_eq in E. now rewrite E.
  - now rewrite IH.
Qed.

Lemma replace_length d l : List.length (Store.replace d l) = List.length l.
Proof.
  induction l as [|o r IH]; simpl; [reflexivity|].
  destruct (Lead._id o =? Lead._id d); simpl; [reflexivity | now rewrite IH].
Qed.

Lemma replace_keeps d l o : In o l -> Lead._id o <> Lead._id d -> In o (Store.replace d l).
Proof.
  induction l as [|x r IH]; simpl; [contradiction|].
  intros [-> | H] Hne.
  - destruct (Lead._id o =? Lead._id d) eqn:E; [apply Nat.eqb_eq in E; tauto | now left].
  - destruct (Lead._id x =? Lead._id d); right; auto.
Qed.

Lemma replace_field (f : Lead.t -> string) d l x :
  In x (map f (Store.replace d l)) -> x = f d \/ In x (map f l).
Proof.
  induction l as [|o r IH]; simpl; [contradiction|].
  destruct (Lead._id o =? Lead._id d); simpl.
  - intros [<- | H]; [now left | right; now right].
  - intros [<- | H]; [right; now left|].
    destruct (IH H); [now left | right; now right].
Qed.

Lemma replace_NoDup (f : Lead.t -> string) d l :
  NoDup (map Lead._id l) -> NoDup (map f l) ->
  ~ In (f d) (map f (Store.others (Lead._id d) l)) ->
  NoDup (map f (Store.replace d l)).
Proof.
  induction l as [|o r IH]; simpl; intros Hid Hf Hfresh; [constructor|].
  inversion Hid as [|? ? Hido Hidr]. inversion Hf as [|? ? Hfo Hfr]. subst.
  destruct (Lead._id o =? Lead._id d) eqn:E; simpl in *.
  - apply Nat.eqb_eq in E. rewrite E in Hido.
    rewrite (@others_all _ _ Hido) in Hfresh. now constructor.
  - constructor.
    + intros Hin. apply replace_field in Hin. destruct Hin as [Hin | Hin]; [|tauto].
      apply Hfresh. left. now symmetry.
    + apply IH; try assumption. intros Hin. apply Hfresh. now right.
Qed.

(** An accepted update keeps the invariant, the number of documents and
    every document but the updated one. *)
Lemma save_existing_invariant sm d s d' s' :
  invariant s ->
  Store.save_existing sm d s = inr (d', s') ->
  invariant s' /\
  List.length (Store.docs s') = List.length (Store.docs s) /\
  (forall o, In o (Store.docs s) -> Lead._id o <> Lead._id d -> In o (Store.docs s')).
Proof.
  intros (He & Hp & Hn & Hlt). unfold Store.save_existing.
  destruct (Store.validate d); [|discriminate].
  destruct (Store.unique_violation _ _) eqn:U; [discriminate|].
  intros H. inversion H. subst d' s'. clear H. simpl.
  apply unique_violation_none in U. destruct U as [Ue Up].
  apply mem_false_In in Ue. apply mem_false_In in Up.
  rewrite <- (preSave_id sm d) in Ue, Up.
  split; [|split].
  - unfold invariant, uniqueEmails, uniquePhones, distinctIds. simpl.
    rewrite replace_ids. repeat split; try assumption.
    + now apply replace_NoDup.
    + now apply replace_NoDup.
    + rewrite Forall_forall in *. intros x Hx.
      assert (Hid : In (Lead._id x) (map Lead._id (Store.replace (Lead.preSave sm d)
                                                    (Store.docs s))))
        by now apply in_map.
      rewrite replace_ids in Hid. apply in_map_iff in Hid.
      destruct Hid as (y & Ey & Hy). rewrite <- Ey. now apply Hlt.
  - apply replace_length.
  - intros o Ho Hne. apply replace_keeps; [exact Ho | now rewrite preSave_id].
Qed.

End Uniqueness.

Section ControllerFacts.

Lemma find_exists {A} (p : A -> bool) (l : list A) (x : A) :
  In x l -> p x = true -> exists y, find p l = Some y.
Proof.
  intros Hin Hp. destruct (find p l) as [y|] eqn:F; [eauto|].
  pose proof (find_none p l F x Hin). congruence.
Qed.

Lemma find_field (f : Lead.t -> string) (x : string) (l : list Lead.t) :
  Js.mem x (map f l) = true ->
  exists o, find (fun d => String.eqb (f d) x) l = Some o.
Proof.
  intros H. apply mem_In in H. apply in_map_iff in H. destruct H as (o & Eo & Ho).
  apply (find_exists _ l o Ho). rewrite Eo. apply String.eqb_refl.
Qed.

Variable db : Store.t.
Hypothesis Hinv : invariant db.

Lemma withInitialNote_fields objectId user leadData noteId lead0 lead1 :
  Controller.withInitialNote objectId user leadData noteId lead0 = inr lead1 ->
  Lead._id lead1 = Lead._id lead0 /\ Lead.email lead1 = Lead.email lead0 /\
  Lead.phone lead1 = Lead.phone lead0 /\ Lead.assignedTo lead1 = Lead.assignedTo lead0 /\
  Lead.assignedBy lead1 = Lead.assignedBy lead0.
Proof.
  unfold Controller.withInitialNote.
  destruct (Js.truthy (Controller.c_notes leadData)).
  - destruct (objectId _); [discriminate|]. intros H. inversion H. now repeat split.
  - intros H. inversion H. now repeat split.
Qed.

Lemma createLead_invariant objectId user leadData :
  invariant (snd (Controller.createLead objectId user leadData db)) /\
  exists added,
    Store.docs (snd (Controller.createLead objectId user leadData db)) =
    Store.docs db ++ added.
Proof.
  unfold Controller.createLead.
  assert (Same : invariant db /\ exists added, Store.docs db = Store.docs db ++ added)
    by (split; [exact Hinv | exists []; now rewrite app_nil_r]).
  destruct (Controller.missingFields leadData); [|exact Same].
  destruct (Store.findOne _ db); [exact Same|].
  destruct (Store.findOne _ db); [exact Same|].
  destruct (Controller.withInitialNote _ _ _ _ _) as [thrown | lead1] eqn:N; [exact Same|].
  destruct (Store.save_new _ _ db) as [e | [saved db']] eqn:S; [exact Same|].
  cbn [snd]. split.
  - eapply save_new_invariant; [exact Hinv | | exact S].
    apply withInitialNote_fields in N. now destruct N as (-> & _).
  - apply save_new_accepted in S. destruct S as (_ & Hd & _). eauto.
Qed.

Lemma createLead_duplicate objectId user leadData :
  Controller.missingFields leadData = [] ->
  Js.mem (Js.trim (Js.toLowerCase (Controller.str (Controller.c_email leadData))))
         (map Lead.email (Store.docs db)) = true \/
  Js.mem (Js.trim (Controller.str (Controller.c_phone leadData)))
         (map Lead.phone (Store.docs db)) = true ->
  duplicateRejection (fst (Controller.createLead objectId user leadData db)) /\
  snd (Controller.createLead objectId user leadData db) = db.
Proof.
  intros Hmiss Hc. unfold Controller.createLead, Store.findOne. rewrite Hmiss.
  destruct (find (fun d => String.eqb (Lead.email d) _) (Store.docs db)) eqn:Fe;
    [now repeat split|].
  destruct Hc as [Hc | Hc].
  - apply find_field in Hc. destruct Hc as [o Ho]. congruence.
  - apply find_field in Hc. destruct Hc as [o Ho]. rewrite Ho. now repeat split.
Qed.

Lemma findById_id id lead : Store.findById id db = Some lead -> Lead._id lead = id.
Proof.
  unfold Store.findById, Store.findOne. intros H. apply find_some in H.
  now apply Nat.eqb_eq.
Qed.

Lemma updateLead_invariant user id updateData :
  invariant (snd (Controller.updateLead user id updateData db)) /\
  List.length (Store.docs (snd (Controller.updateLead user id updateData db)))
    = List.length (Store.docs db) /\
  (forall o, In o (Store.docs db) -> Lead._id o <> id ->
             In o (Store.docs (snd (Controller.updateLead user id updateData db)))).
Proof.
  unfold Controller.updateLead.
  assert (Same : invariant db /\ List.length (Store.docs db) = List.length (Store.docs db) /\
                 (forall o, In o (Store.docs db) -> Lead._id o <> id -> In o (Store.docs db)))
    by (split; [exact Hinv | split; [reflexivity | auto]]).
  destruct (Store.findById id db) as [lead|] eqn:F; [|exact Same].
  apply findById_id in F.
  destruct (negb _ && negb _); [exact Same|].
  destruct (if Js.truthy (Controller.u_email updateData) then _ else None); [exact Same|].
  destruct (if Js.truthy (Controller.u_phone updateData) then _ else None); [exact Same|].
  destruct (Store.save_existing _ _ db) as [e | [saved db']] eqn:S; [exact Same|].
  cbn [snd]. apply save_existing_invariant in S; [|exact Hinv].
  simpl in S. now rewrite F in S.
Qed.

Lemma other_found (f : Lead.t -> string) id x :
  (exists o, In o (Store.docs db) /\ Lead._id o <> id /\ f o = x) ->
  exists y, Store.findOne (fun d => String.eqb (f d) x && negb (Lead._id d =? id)) db = Some y.
Proof.
  intros (o & Ho & Hne & Eo). unfold Store.findOne.
  apply (find_exists _ _ o Ho). rewrite Eo, String.eqb_refl. simpl.
  apply negb_true_iff. now apply Nat.eqb_neq.
Qed.

Lemma updateLead_duplicate user id updateData lead :
  Store.findById id db = Some lead ->
  mayUpdate user lead ->
  (Js.truthy (Controller.u_email updateData) = true /\
   emailTakenByOther id
     (Js.trim (Js.toLowerCase (Controller.str (Controller.u_email updateData)))) db)
  \/
  (Js.truthy (Controller.u_phone updateData) = true /\
   phoneTakenByOther id (Js.trim (Controller.str (Controller.u_phone updateData))) db) ->
  duplicateRejection (fst (Controller.updateLead user id updateData db)) /\
  snd (Controller.updateLead user id updateData db) = db.
Proof.
  intros F Hmay Hc. unfold Controller.updateLead. rewrite F.
  assert (Access : negb (String.eqb (Controller.role user) "admin")
                   && negb (String.eqb (Controller.String_of (Lead.assignedTo lead))
                                       (Controller.userId user)) = false).
  { destruct Hmay as [-> | ->]; [reflexivity|].
    rewrite String.eqb_refl. apply andb_false_r. }
  rewrite Access.
  destruct Hc as [[Ht Hc] | [Ht Hc]].
  - rewrite Ht. apply (other_found Lead.email) in Hc. destruct Hc as [y Hy].
    rewrite Hy. now repeat split.
  - destruct (if Js.truthy (Controller.u_email updateData) then _ else None);
      [now repeat split|].
    rewrite Ht. apply (other_found Lead.phone) in Hc. destruct Hc as [y Hy].
    rewrite Hy. now repeat split.
Qed.

Lemma import_invariant queryFails req :
  invariant (snd (Excel.importFromExcel queryFails req db)) /\
  Store.docs (snd (Excel.importFromExcel queryFails req db)) =
    Store.docs db ++ Excel.leads (Excel.data (fst (Excel.importFromExcel queryFails req db))).
Proof.
  pose proof (importFromExcel_cases queryFails req db) as C.
  destruct (firstSheet req) as [sheet|].
  - destruct queryFails; rewrite C.
    + simpl. now rewrite app_nil_r.
    + rewrite importSheet_phases. cbn [fst snd Excel.data Excel.leads]. split.
      * now apply run_invariant.
      * apply run_docs.
  - destruct C as (msg & errs & C). rewrite C. simpl. now rewrite app_nil_r.
Qed.

End ControllerFacts.

(** A lead of the loop that passes the schema checks and collides with a
    stored lead is reported with the duplicate-key error of the insert. *)
Lemma run_collision assignedBy V E todo : forall db L,
  In L todo -> Js.mem (LeadData.email L) E = false ->
  Store.validate (Store.construct 0 (Excel.toInput L assignedBy)) = [] ->
  Js.mem (Store.set_email (LeadData.email L)) (map Lead.email (Store.docs db)) = true \/
  Js.mem (Store.set_trim (LeadData.phone L)) (map Lead.phone (Store.docs db)) = true ->
  exists f v,
    In (Err.mk (Excel.originalRow V L) "database"
               (Store.error_message (Store.DuplicateKey f v)))
       (fst (fst (Excel.processLeads assignedBy V E todo db))).
Proof.
  induction todo as [|L0 rest IH]; intros db L; [contradiction|].
  intros [-> | Hin] Hfresh Hvalid Hcoll.
  - assert (Hdup : exists f v,
              Store.create (Excel.toInput L assignedBy) db = inl (Store.DuplicateKey f v)).
    { unfold Store.create. apply save_new_collision; [|exact Hcoll].
      rewrite (construct_set_id (Store.nextId db) 0).
      rewrite (validate_id_irrelevant (Store.nextId db) 0). exact Hvalid. }
    destruct Hdup as (f & v & Hdup). exists f, v.
    destruct (run_cons assignedBy V E L rest db)
      as [[Hmem Hrun] | [[Hmem (doc & db1 & Hc & Hrun)] | [Hmem (e & Hc & Hrun)]]];
      try congruence.
    rewrite Hrun. cbn [fst]. left. congruence.
  - destruct (run_cons assignedBy V E L0 rest db)
      as [[Hmem Hrun] | [[Hmem (doc & db1 & Hc & Hrun)] | [Hmem (e & Hc & Hrun)]]];
      rewrite Hrun; cbn [fst].
    + destruct (IH db L Hin Hfresh Hvalid Hcoll) as (f & v & H). exists f, v. now right.
    + apply IH; try assumption.
      apply create_accepted in Hc. destruct Hc as (_ & _ & _ & Hd & _).
      rewrite Hd, !map_app, !mem_app.
      destruct Hcoll as [-> | ->]; [now left | now right].
    + destruct (IH db L Hin Hfresh Hvalid Hcoll) as (f & v & H). exists f, v. now right.
Qed.

Lemma import_collision (db : Store.t) (req : Excel.Request) (sheet : Excel.Sheet)
      (L : LeadData.t) :
  firstSheet req = Some sheet ->
  In L (proceedingLeadsOf sheet) ->
  Js.mem (LeadData.email L) (map Lead.email (Store.docs db)) = false ->
  Store.validate (Store.construct 0 (Excel.toInput L (Excel.userId req))) = [] ->
  Js.mem (Store.set_trim (LeadData.phone L)) (map Lead.phone (Store.docs db)) = true ->
  exists f v,
    In (Err.mk (Excel.originalRow (validLeadsOf sheet) L) "database"
               (Store.error_message (Store.DuplicateKey f v)))
       (Excel.rowErrors (Excel.data (fst (Excel.importFromExcel false req db)))).
Proof.
  intros Hsheet HL Hfresh Hvalid Hphone.
  pose proof (importFromExcel_cases false req db) as C. rewrite Hsheet in C.
  rewrite C, importSheet_phases. cbn [fst Excel.data Excel.rowErrors].
  destruct (run_collision (Excel.userId req) (validLeadsOf sheet)
              (Store.find_emails_in (map LeadData.email (proceedingLeadsOf sheet)) db)
              (proceedingLeadsOf sheet) db L HL) as (f & v & H).
  - rewrite mem_find_emails_in, Hfresh. apply andb_false_r.
  - exact Hvalid.
  - now right.
  - exists f, v. apply in_or_app. right. apply in_or_app. right. exact H.
Qed.

Section Rejections.

Variable db : Store.t.

Lemma caught_fails (failedMessage : string) (e : Store.SaveError) :
  Controller.success (Controller.caught failedMessage e) = false.
Proof. unfold Controller.caught. now destruct (Store.getDuplicateError e). Qed.

(** The schema refuses a document without address or without number. *)
Lemma validate_requires (d : Lead.t) :
  Lead.email d = "" \/ Lead.phone d = "" -> Store.validate d <> [].
Proof.
  unfold Store.validate. intros [H | H]; rewrite H; cbn [Js.is_empty negb Store.check].
  - destruct (Store.first_failure _); discriminate.
  - destruct (Store.first_failure _); [|discriminate].
    destruct (Store.first_failure _); discriminate.
Qed.

Lemma save_existing_invalid sm d :
  Store.validate d <> [] -> exists e, Store.save_existing sm d db = inl e.
Proof.
  intros H. unfold Store.save_existing. destruct (Store.validate d); [now elim H | eauto].
Qed.

(** A create whose address or number is taken is refused, whatever else
    is wrong with it. *)
Lemma createLead_collision objectId user leadData :
  Js.mem (Js.trim (Js.toLowerCase (Controller.str (Controller.c_email leadData))))
         (map Lead.email (Store.docs db)) = true \/
  Js.mem (Js.trim (Controller.str (Controller.c_phone leadData)))
         (map Lead.phone (Store.docs db)) = true ->
  Controller.success (fst (Controller.createLead objectId user leadData db)) = false /\
  snd (Controller.createLead objectId user leadData db) = db.
Proof.
  intros Hc. destruct (Controller.missingFields leadData) eqn:M.
  - destruct (createLead_duplicate db objectId user leadData M Hc) as [(_ & Hs & _) Hdb].
    now split.
  - unfold Controller.createLead. rewrite M. now split.
Qed.

(** An update that sets an address or a number taken by another lead is
    refused, whatever else is wrong with it. *)
Lemma updateLead_collision user id updateData :
  (exists e, Controller.u_email updateData = Some e /\
             emailTakenByOther id (Js.trim (Js.toLowerCase e)) db)
  \/
  (exists p, Controller.u_phone updateData = Some p /\
             phoneTakenByOther id (Js.trim p) db) ->
  Controller.success (fst (Controller.updateLead user id updateData db)) = false /\
  snd (Controller.updateLead user id updateData db) = db.
Proof.
  intros Hc. unfold Controller.updateLead.
  destruct (Store.findById id db) as [lead|]; [|now split].
  destruct (negb _ && negb _); [now split|].
  assert (Invalid : Lead.email (Controller.applyUpdate updateData lead) = "" \/
                    Lead.phone (Controller.applyUpdate updateData lead) = "" ->
                    forall sm,
                    Controller.success
                      (fst (match Store.save_existing sm
                                    (Controller.applyUpdate updateData lead) db with
                            | inl e => (Controller.caught "Failed to update lead" e, db)
                            | inr (saved, db') =>
                                (Controller.mkResponse 200 true "Lead updated successfully"
                                                       [] (Some saved), db')
                            end)) = false /\
                    snd (match Store.save_existing sm
                                    (Controller.applyUpdate updateData lead) db with
                         | inl e => (Controller.caught "Failed to update lead" e, db)
                         | inr (saved, db') =>
                             (Controller.mkResponse 200 true "Lead updated successfully"
                                                    [] (Some saved), db')
                         end) = db).
  { intros H sm.
    destruct (@save_existing_invalid sm (Controller.applyUpdate updateData lead)
                                     (@validate_requires _ H)) as [e ->].
    cbn [fst snd]. split; [apply caught_fails | reflexivity]. }
  destruct Hc as [(e & He & Htaken) | (p & Hp & Htaken)].
  - rewrite He. cbn [Controller.str]. destruct e as [|c e'].
    + cbn [Js.truthy Js.is_empty negb].
      destruct (if Js.truthy (Controller.u_phone updateData) then _ else None);
        [now split|].
      apply Invalid. left. unfold Controller.applyUpdate. rewrite He. reflexivity.
    + cbn [Js.truthy Js.is_empty negb].
      apply (other_found db Lead.email) in Htaken. destruct Htaken as [y Hy].
      rewrite Hy. now split.
  - destruct (if Js.truthy (Controller.u_email updateData) then _ else None);
      [now split|].
    rewrite Hp. cbn [Controller.str]. destruct p as [|c p'].
    + cbn [Js.truthy Js.is_empty negb].
      apply Invalid. right. unfold Controller.applyUpdate. rewrite Hp. reflexivity.
    + cbn [Js.truthy Js.is_empty negb].
      apply (other_found db Lead.phone) in Htaken. destruct Htaken as [y Hy].
      rewrite Hy. now split.
Qed.

Lemma NoDup_app_disjoint {A} (a b : list A) (x : A) :
  NoDup (a ++ b) -> In x a -> In x b -> False.
Proof.
  induction a as [|y r IH]; simpl; [contradiction|].
  intros Hnd [-> | Hin] Hb; inversion Hnd as [|? ? Hy Hr]; subst.
  - apply Hy. apply in_or_app. now right.
  - now apply IH.
Qed.

(** No lead the import creates shares its address or number with a lead
    that was there. *)
Lemma import_created_fresh queryFails req :
  invariant db ->
  forall d o,
    In d (Excel.leads (Excel.data (fst (Excel.importFromExcel queryFails req db)))) ->
    In o (Store.docs db) ->
    Lead.email d <> Lead.email o /\ Lead.phone d <> Lead.phone o.
Proof.
  intros Hinv d o Hd Ho.
  destruct (import_invariant Hinv queryFails req) as [(He & Hp & _) Hdocs].
  unfold uniqueEmails, uniquePhones in He, Hp. rewrite Hdocs, map_app in He, Hp.
  split; intros Heq.
  - apply (NoDup_app_disjoint _ _ (Lead.email o) He); [now apply in_map|].
    rewrite <- Heq. now apply in_map.
  - apply (NoDup_app_disjoint _ _ (Lead.phone o) Hp); [now apply in_map|].
    rewrite <- Heq. now apply in_map.
Qed.

End Rejections.

(** C5.  Every write of the lead controller and of the import keeps the
    collection free of two leads with one e-mail address or one phone
    number.  [createLead] only ever appends; [updateLead] keeps every
    other document; the import only appends the leads it reports, none
    of which shares an address or a number with a lead that was there.
    A create or update whose address or number is taken by another lead
    is refused and changes nothing; it is answered with 400 'Duplicate
    lead detected' when nothing else is wrong with the request.  A row
    insert that collides is refused with the duplicate-key error, which
    the import reports for the row (an address that is already stored is
    reported before any insert is tried). *)
Theorem C5_uniqueness_preserved (db : Store.t) :
  invariant db ->
  (forall objectId user leadData,
     let out := Controller.createLead objectId user leadData db in
     invariant (snd out) /\
     (exists added, Store.docs (snd out) = Store.docs db ++ added) /\
     (Js.mem (Js.trim (Js.toLowerCase (Controller.str (Controller.c_email leadData))))
             (map Lead.email (Store.docs db)) = true \/
      Js.mem (Js.trim (Controller.str (Controller.c_phone leadData)))
             (map Lead.phone (Store.docs db)) = true ->
      Controller.success (fst out) = false /\ snd out = db /\
      (Controller.missingFields leadData = [] -> duplicateRejection (fst out))))
  /\
  (forall user id updateData,
     let out := Controller.updateLead user id updateData db in
     invariant (snd out) /\
     List.length (Store.docs (snd out)) = List.length (Store.docs db) /\
     (forall o, In o (Store.docs db) -> Lead._id o <> id -> In o (Store.docs (snd out))) /\
     ((exists e, Controller.u_email updateData = Some e /\
                 emailTakenByOther id (Js.trim (Js.toLowerCase e)) db)
      \/
      (exists p, Controller.u_phone updateData = Some p /\
                 phoneTakenByOther id (Js.trim p) db) ->
      Controller.success (fst out) = false /\ snd out = db) /\
     (forall lead,
        Store.findById id db = Some lead -> mayUpdate user lead ->
        (Js.truthy (Controller.u_email updateData) = true /\
         emailTakenByOther id
           (Js.trim (Js.toLowerCase (Controller.str (Controller.u_email updateData)))) db)
        \/
        (Js.truthy (Controller.u_phone updateData) = true /\
         phoneTakenByOther id
           (Js.trim (Controller.str (Controller.u_phone updateData))) db) ->
        duplicateRejection (fst out) /\ snd out = db))
  /\
  (forall queryFails req,
     let out := Excel.importFromExcel queryFails req db in
     invariant (snd out) /\
     Store.docs (snd out) = Store.docs db ++ Excel.leads (Excel.data (fst out)) /\
     (forall d o, In d (Excel.leads (Excel.data (fst out))) -> In o (Store.docs db) ->
        Lead.email d <> Lead.email o /\ Lead.phone d <> Lead.phone o))
  /\
  (forall input,
     let doc := Store.construct (Store.nextId db) input in
     Store.validate doc = [] ->
     Js.mem (Lead.email doc) (map Lead.email (Store.docs db)) = true \/
     Js.mem (Lead.phone doc) (map Lead.phone (Store.docs db)) = true ->
     exists f v, Store.create input db = inl (Store.DuplicateKey f v))
  /\
  (forall req sheet L,
     firstSheet req = Some sheet ->
     In L (proceedingLeadsOf sheet) ->
     Js.mem (LeadData.email L) (map Lead.email (Store.docs db)) = false ->
     Store.validate (Store.construct 0 (Excel.toInput L (Excel.userId req))) = [] ->
     Js.mem (Store.set_trim (LeadData.phone L)) (map Lead.phone (Store.docs db)) = true ->
     exists f v,
       In (Err.mk (Excel.originalRow (validLeadsOf sheet) L) "database"
                  (Store.error_message (Store.DuplicateKey f v)))
          (Excel.rowErrors (Excel.data (fst (Excel.importFromExcel false req db))))).
Proof.
  intros Hinv. split; [|split; [|split; [|split]]].
  - intros objectId user leadData out. subst out.
    destruct (createLead_invariant Hinv objectId user leadData) as [Hi Ha].
    split; [exact Hi|]. split; [exact Ha|]. intros Hc.
    destruct (createLead_collision db objectId user leadData Hc) as [Hs Hdb].
    split; [exact Hs|]. split; [exact Hdb|].
    intros M. now apply createLead_duplicate.
  - intros user id updateData out. subst out.
    destruct (updateLead_invariant Hinv user id updateData) as (Hi & Hl & Hk).
    split; [exact Hi|]. split; [exact Hl|]. split; [exact Hk|].
    split; [apply updateLead_collision|].
    intros lead. now apply updateLead_duplicate.
  - intros queryFails req out. subst out.
    destruct (import_invariant Hinv queryFails req) as [Hi Hd].
    split; [exact Hi|]. split; [exact Hd|]. now apply import_created_fresh.
  - intros input doc Hv Hc. unfold Store.create. now apply save_new_collision.
  - intros req sheet L. apply import_collision.
Qed.

Lemma C5_uniqueness_preserved_witness :
  invariant Stored.two /\
  (duplicateRejection (fst (Controller.createLead (fun s => inr s) (Some Stored.admin)
                                                  Stored.annByHand Stored.two)) /\
   snd (Controller.createLead (fun s => inr s) (Some Stored.admin) Stored.annByHand
                              Stored.two) = Stored.two)
  /\
  (duplicateRejection (fst (Controller.updateLead Stored.admin 1 Stored.boTakesAnn
                                                  Stored.two)) /\
   snd (Controller.updateLead Stored.admin 1 Stored.boTakesAnn Stored.two) = Stored.two)
  /\
  (exists f v,
     In (Err.mk 2 "database" (Store.error_message (Store.DuplicateKey f v)))
        (Excel.rowErrors (Excel.data (fst (Excel.importFromExcel false
           (Sample.request Stored.samePhone) Stored.two))))).
Proof.
  assert (Hinv : invariant Stored.two).
  { unfold invariant, uniqueEmails, uniquePhones, distinctIds. simpl.
    repeat split; repeat constructor; simpl; try lia;
      intros H; repeat (destruct H as [H | H]; [discriminate H|]); exact H. }
  split; [exact Hinv|].
  destruct (C5_uniqueness_preserved Hinv) as (Hcreate & Hupdate & _ & _ & Hrow).
  split; [|split].
  - destruct (Hcreate (fun s => inr s) (Some Stored.admin) Stored.annByHand)
      as (_ & _ & Hdup).
    destruct (Hdup (or_introl eq_refl)) as (_ & Hsame & Hkind).
    split; [now apply Hkind | exact Hsame].
  - destruct (Hupdate Stored.admin 1 Stored.boTakesAnn) as (_ & _ & _ & _ & Hdup).
    apply (Hdup Stored.bo); [reflexivity | left; reflexivity |].
    left. split; [reflexivity|].
    exists Inputs.annStored. split; [now left|]. split; [discriminate | reflexivity].
  - apply (Hrow (Sample.request Stored.samePhone) (Sample.header :: Stored.samePhone)
                Stored.dee).
    + reflexivity.
    + vm_compute. now left.
    + reflexivity.
    + vm_compute. reflexivity.
    + reflexivity.
Defined.

(* ================================================================== *)
(** ** The field mapper *)
(* ================================================================== *)

Section MapperFacts.

Lemma prefix_spec (p s : string) : prefix p s = true <-> exists rest, s = p +++ rest.
Proof.
  revert s. induction p as [|a p IH]; intros s; simpl.
  - split; [intros _; now exists s | intros _; now destruct s].
  - destruct s as [|b s]; simpl; [split; [discriminate | intros [r H]; discriminate]|].
    destruct (ascii_dec a b) as [-> | Hne].
    + rewrite IH. split; intros [r H]; exists r; [now rewrite H | now inversion H].
    + split; [discriminate | intros [r H]; inversion H; congruence].
Qed.

Lemma includes_unfold (s sub : string) :
  Js.includes s sub =
  prefix sub s || match s with EmptyString => false | String _ r => Js.includes r sub end.
Proof. now destruct s. Qed.

(** [includes] decides occurrence as a substring. *)
Lemma includes_spec (s sub : string) : Js.includes s sub = true <-> substringOf sub s.
Proof.
  unfold substringOf. split.
  - induction s as [|c r IH]; rewrite includes_unfold; intros H;
      apply orb_true_iff in H; destruct H as [H | H]; try discriminate.
    + apply prefix_spec in H. destruct H as [rest ->]. now exists "", rest.
    + apply prefix_spec in H. destruct H as [rest ->]. now exists "", rest.
    + destruct (IH H) as (b & a & ->). now exists (String c b), a.
  - intros (b & a & ->). induction b as [|c b IH]; simpl append.
    + rewrite includes_unfold. apply orb_true_iff. left. apply prefix_spec. now exists a.
    + rewrite includes_unfold. apply orb_true_iff. right. exact IH.
Qed.

(** The predicate handed to [find] holds exactly when one of the rules does. *)
Lemma headerMatches_spec field header :
  Mapper.headerMatches field header = true <-> anyRule field header.
Proof.
  unfold Mapper.headerMatches, anyRule, exactRule, containmentRule, headerKey.
  rewrite !orb_true_iff, !String.eqb_eq, !includes_spec. tauto.
Qed.

Lemma find_leftmost (p : string -> bool) (headers : list string) (h : string) :
  find p headers = Some h <->
  exists k, nth_error headers k = Some h /\ p h = true /\
            forall j h', j < k -> nth_error headers j = Some h' -> p h' = false.
Proof.
  induction headers as [|x r IH]; simpl.
  - split; [discriminate | intros (k & H & _); now destruct k].
  - destruct (p x) eqn:Px.
    + split.
      * intros H. inversion H. subst. exists 0. repeat split; [exact Px|].
        intros j h' Hj. lia.
      * intros (k & Hk & Ph & Hbefore). destruct k as [|k]; [simpl in Hk; exact Hk|].
        specialize (Hbefore 0 x (Nat.lt_0_succ k) eq_refl). congruence.
    + rewrite IH. split.
      * intros (k & Hk & Ph & Hbefore). exists (S k). repeat split; [exact Hk | exact Ph|].
        intros j h' Hj Hn. destruct j as [|j]; [simpl in Hn; congruence|].
        apply (Hbefore j h'); [lia | exact Hn].
      * intros (k & Hk & Ph & Hbefore). destruct k as [|k]; [simpl in Hk; congruence|].
        exists k. repeat split; [exact Hk | exact Ph|].
        intros j h' Hj Hn. apply (Hbefore (S j) h'); [lia | exact Hn].
Qed.

(** The mapper's choice for a field is the leftmost header that
    satisfies any rule. *)
Lemma matchedHeader_leftmost field headers h :
  Mapper.matchedHeader field headers = Some h <-> leftmost (anyRule field) headers h.
Proof.
  unfold Mapper.matchedHeader, leftmost. rewrite find_leftmost.
  split; intros (k & Hk & Ph & Hbefore); exists k; (split; [exact Hk|]); split.
  - now apply headerMatches_spec.
  - intros j h' Hj Hn Hrule. apply headerMatches_spec in Hrule.
    rewrite (Hbefore j h' Hj Hn) in Hrule. discriminate.
  - now apply headerMatches_spec.
  - intros j h' Hj Hn. destruct (Mapper.headerMatches field h') eqn:M; [|reflexivity].
    apply headerMatches_spec in M. now elim (Hbefore j h' Hj Hn).
Qed.

Lemma matchedHeader_none field headers :
  Mapper.matchedHeader field headers = None <-> forall h, In h headers -> ~ anyRule field h.
Proof.
  unfold Mapper.matchedHeader. split.
  - intros H h Hin Hrule. apply headerMatches_spec in Hrule.
    rewrite (find_none _ _ H h Hin) in Hrule. discriminate.
  - intros H. destruct (find _ headers) as [h|] eqn:F; [|reflexivity].
    apply find_some in F. destruct F as [Hin Hm].
    apply headerMatches_spec in Hm. now elim (H h Hin).
Qed.

End MapperFacts.

(** C4 (amended).  For every field catalog and header list, an entry of
    the proposed mapping with a non-empty column belongs to a field of the
    catalog and names the leftmost header that satisfies any of the
    rules (case-insensitive equality of the trimmed header with the
    field's name or label, or containment between the trimmed header and
    the field's name in either direction), with no priority among the
    rules; and every field whose leftmost such header is non-empty has
    that entry. *)
Theorem C4_leftmost_of_any_rule
        (leadFields : list Mapper.LeadFieldDefinition) (headers : list string) :
  (forall m, In m (Mapper.initializeFieldMappings leadFields headers) ->
     Mapper.excelColumn m <> "" ->
     exists field,
       In field leadFields /\
       m = Mapper.mkMapping (Mapper.name field) (Mapper.excelColumn m)
                            (Mapper.required field) (Mapper.defaultValue field) /\
       leftmost (anyRule field) headers (Mapper.excelColumn m))
  /\
  (forall field h, In field leadFields -> h <> "" ->
     leftmost (anyRule field) headers h ->
     In (Mapper.mkMapping (Mapper.name field) h (Mapper.required field)
                          (Mapper.defaultValue field))
        (Mapper.initializeFieldMappings leadFields headers)).
Proof.
  unfold Mapper.initializeFieldMappings. split.
  - intros m Hm Hcol. apply in_flat_map in Hm. destruct Hm as (field & Hf & Hm).
    exists field. split; [exact Hf|].
    destruct (Mapper.matchedHeader field headers) as [h|] eqn:M.
    + destruct (Js.truthy (Some h) || Mapper.required field); [|contradiction].
      destruct Hm as [<- | []]. simpl. split; [reflexivity|].
      now apply matchedHeader_leftmost.
    + destruct (Js.truthy None || Mapper.required field); [|contradiction].
      destruct Hm as [<- | []]. simpl in Hcol. now elim Hcol.
  - intros field h Hf Hh Hleft. apply in_flat_map. exists field. split; [exact Hf|].
    apply matchedHeader_leftmost in Hleft. rewrite Hleft.
    destruct h; [now elim Hh|]. simpl. now left.
Qed.

Lemma C4_leftmost_of_any_rule_witness :
  In (Mapper.mkMapping "name" "Company Name" true None)
     (Mapper.initializeFieldMappings [Catalog.nameField; Catalog.sourceField]
                                     Catalog.headers).
Proof.
  destruct (C4_leftmost_of_any_rule [Catalog.nameField; Catalog.sourceField]
                                    Catalog.headers) as [_ H].
  apply (H Catalog.nameField "Company Name").
  - now left.
  - discriminate.
  - exists 0. split; [reflexivity|]. split.
    + right. left. exists "company ", "". reflexivity.
    + intros j h Hj. lia.
Defined.

(** C4 as stated fails: the header 'Name' matches the field [name]
    exactly, but the mapper proposes 'Company Name', which stands to its
    left and only contains the name; the prioritized choice of the claim
    is 'Name'. *)
Lemma C4_counterexample :
  Mapper.initializeFieldMappings [Catalog.nameField] Catalog.headers =
    [Mapper.mkMapping "name" "Company Name" true None] /\
  exactRuleb Catalog.nameField "Company Name" = false /\
  exactRuleb Catalog.nameField "Name" = true /\
  prioritizedHeader Catalog.nameField Catalog.headers = Some "Name" /\
  Mapper.matchedHeader Catalog.nameField Catalog.headers <>
    prioritizedHeader Catalog.nameField Catalog.headers.
Proof. vm_compute. repeat split. discriminate. Qed.

(* ================================================================== *)
(** ** Later occurrences of an address within the file *)
(* ================================================================== *)

Section LaterOccurrences.

Implicit Types (m : Excel.EmailMap) (V : list LeadData.t).

Lemma get_In m e v : Excel.emailMap_get m e = Some v -> In (e, v) m.
Proof.
  induction m as [|[k v0] r IH]; simpl; [discriminate|].
  destruct (String.eqb k e) eqn:E.
  - apply String.eqb_eq in E. subst k. intros H. inversion H. now left.
  - intros H. right. now apply IH.
Qed.

Lemma indicesOf_In V : forall i k l,
  nth_error V k = Some l -> In (i + k) (indicesOf (LeadData.email l) i V).
Proof.
  induction V as [|x r IH]; intros i k l; [now destruct k|].
  destruct k as [|k]; simpl.
  - intros H. inversion H. subst x. rewrite String.eqb_refl, Nat.add_0_r. now left.
  - intros H. apply (IH (S i)) in H. replace (i + S k) with (S i + k) by lia.
    destruct (String.eqb (LeadData.email x) (LeadData.email l)); [now right | exact H].
Qed.

(** The indices of an address are listed in increasing order. *)
Lemma indicesOf_head e V : forall i h rest,
  indicesOf e i V = h :: rest -> forall k, In k rest -> h < k.
Proof.
  induction V as [|x r IH]; intros i h rest; simpl; [discriminate|].
  destruct (String.eqb (LeadData.email x) e).
  - intros H k Hk. inversion H. subst h rest.
    apply indicesOf_bounds in Hk. lia.
  - apply IH.
Qed.

(** Every lead that comes after a lead with the same address is reported
    as a duplicate within the file, with its position among the valid
    leads plus two and with the address. *)
Lemma later_occurrence_reported V (j k : nat) (first later : LeadData.t) :
  nth_error V j = Some first -> nth_error V k = Some later -> j < k ->
  LeadData.email first = LeadData.email later ->
  In (duplicateWithinFile (k + 2) (LeadData.email later))
     (Excel.duplicateErrors (Excel.buildEmailMap [] 0 V)).
Proof.
  intros Hj Hk Hlt Heq.
  pose proof (@indicesOf_In V 0 j first Hj) as Ij. rewrite Heq in Ij.
  pose proof (@indicesOf_In V 0 k later Hk) as Ik. simpl in Ij, Ik.
  pose proof (get_built V (LeadData.email later)) as G.
  destruct (indicesOf (LeadData.email later) 0 V) as [|h rest] eqn:Ev; [contradiction|].
  apply get_In in G.
  assert (Hrest : In k rest).
  { destruct Ik as [-> | Ik]; [|exact Ik].
    destruct Ij as [-> | Ij]; [lia|].
    pose proof (@indicesOf_head _ _ _ _ _ Ev j Ij). lia. }
  unfold Excel.duplicateErrors. apply in_flat_map.
  exists (LeadData.email later, h :: rest). split; [exact G|].
  destruct rest as [|x rest']; [contradiction|].
  cbn [List.length Nat.ltb Nat.leb skipn].
  apply in_map_iff. exists k. split; [reflexivity | exact Hrest].
Qed.

End LaterOccurrences.

(* ================================================================== *)
(** ** Regular expressions: case and white space *)
(* ================================================================== *)

Section RegexFacts.

Lemma classes_deriv (q : (ascii -> bool) -> Prop) (c : ascii) (r : Regex.re) :
  classes q r -> classes q (Regex.deriv c r).
Proof.
  induction r as [| |p|a IHa b IHb|a IHa b IHb|a IHa]; simpl; auto.
  - destruct (p c); simpl; auto.
  - intros [Ha Hb]. destruct (Regex.nullable a); simpl; auto.
  - intros [Ha Hb]. auto.
Qed.

Lemma deriv_lower (c : ascii) (r : Regex.re) :
  classes caseBlind r -> Regex.deriv (Js.lower_char c) r = Regex.deriv c r.
Proof.
  induction r as [| |p|a IHa b IHb|a IHa b IHb|a IHa]; simpl; auto.
  - intros H. rewrite H. reflexivity.
  - intros [Ha Hb]. rewrite IHa, IHb by assumption. reflexivity.
  - intros [Ha Hb]. rewrite IHa, IHb by assumption. reflexivity.
  - intros Ha. rewrite IHa by assumption. reflexivity.
Qed.

Lemma test_lower (s : string) : forall r,
  classes caseBlind r -> Regex.test r (Js.toLowerCase s) = Regex.test r s.
Proof.
  induction s as [|c s IH]; intros r H; simpl; [reflexivity|].
  rewrite deriv_lower by assumption. apply IH. apply classes_deriv. exact H.
Qed.

Lemma is_void_not_nullable (r : Regex.re) : is_void r = true -> Regex.nullable r = false.
Proof.
  induction r as [| |p|a IHa b IHb|a IHa b IHb|a IHa]; simpl; try discriminate; auto.
  - intros H. apply orb_true_iff in H. destruct H as [H|H].
    + rewrite IHa by assumption. reflexivity.
    + rewrite IHb by assumption. apply andb_false_r.
  - intros H. apply andb_true_iff in H. destruct H as [Ha Hb].
    rewrite IHa, IHb by assumption. reflexivity.
Qed.

Lemma is_void_deriv (c : ascii) (r : Regex.re) :
  is_void r = true -> is_void (Regex.deriv c r) = true.
Proof.
  induction r as [| |p|a IHa b IHb|a IHa b IHb|a IHa]; simpl; try discriminate; auto.
  - intros H. apply orb_true_iff in H.
    destruct (Regex.nullable a) eqn:Hn; simpl.
    + destruct H as [H|H].
      * rewrite (is_void_not_nullable a H) in Hn. discriminate.
      * rewrite H, (IHb H), orb_true_r. reflexivity.
    + destruct H as [H|H].
      * rewrite (IHa H). reflexivity.
      * rewrite H. apply orb_true_r.
  - intros H. apply andb_true_iff in H. destruct H as [Ha Hb].
    rewrite IHa, IHb by assumption. reflexivity.
Qed.

Lemma is_void_rejects (s : string) : forall r, is_void r = true -> Regex.test r s = false.
Proof.
  induction s as [|c s IH]; intros r H; simpl.
  - apply is_void_not_nullable. exact H.
  - apply IH. apply is_void_deriv. exact H.
Qed.

Lemma deriv_space_void (c : ascii) (r : Regex.re) :
  classes spaceFree r -> Js.is_space c = true -> is_void (Regex.deriv c r) = true.
Proof.
  intros Hr Hc.
  induction r as [| |p|a IHa b IHb|a IHa b IHb|a IHa]; simpl in *; auto.
  - rewrite (Hr c Hc). reflexivity.
  - destruct Hr as [Ha Hb]. destruct (Regex.nullable a); simpl.
    + rewrite (IHa Ha), (IHb Hb). reflexivity.
    + rewrite (IHa Ha). reflexivity.
  - destruct Hr as [Ha Hb]. rewrite (IHa Ha), (IHb Hb). reflexivity.
  - rewrite (IHa Hr). reflexivity.
Qed.

Lemma test_noSpace (s : string) : forall r,
  classes spaceFree r -> Regex.test r s = true -> noSpace s.
Proof.
  induction s as [|c s IH]; intros r Hr Ht; simpl; [exact I|].
  simpl in Ht. split.
  - destruct (Js.is_space c) eqn:Hc; [|reflexivity].
    rewrite (is_void_rejects s _ (deriv_space_void c r Hr Hc)) in Ht. discriminate.
  - apply (IH (Regex.deriv c r)); [apply classes_deriv; exact Hr | exact Ht].
Qed.

Lemma noSpace_trimEnd (s : string) : noSpace s -> Js.trimEnd s = s.
Proof.
  induction s as [|c s IH]; simpl; [reflexivity|].
  intros [Hc Hs]. rewrite Hc, (IH Hs). reflexivity.
Qed.

Lemma noSpace_trim (s : string) : noSpace s -> Js.trim s = s.
Proof.
  intros H. unfold Js.trim.
  assert (Js.trimStart s = s) as ->.
  { destruct s as [|c s]; [reflexivity|]. simpl. destruct H as [Hc _]. rewrite Hc.
    reflexivity. }
  apply noSpace_trimEnd. exact H.
Qed.

Lemma eqb_lower_at (a c : ascii) :
  (a = "@" \/ a = ".")%char -> Ascii.eqb a (Js.lower_char c) = Ascii.eqb a c.
Proof.
  intros [->| ->]; destruct c as [[] [] [] [] [] [] [] []]; reflexivity.
Qed.

Lemma emailRegex_caseBlind : classes caseBlind Lead.emailRegex.
Proof.
  assert (caseBlind (fun c => negb (Js.is_space c || Ascii.eqb c "@"))) as Hn.
  { intros c. rewrite space_lower. f_equal. f_equal.
    rewrite (Ascii.eqb_sym (Js.lower_char c)), (Ascii.eqb_sym c).
    apply eqb_lower_at. left. reflexivity. }
  assert (caseBlind (Ascii.eqb "@")) as Ha by (intros c; apply eqb_lower_at; auto).
  assert (caseBlind (Ascii.eqb ".")) as Hd by (intros c; apply eqb_lower_at; auto).
  unfold Lead.emailRegex, Regex.Plus, Regex.chr. simpl. tauto.
Qed.

Lemma emailRegex_spaceFree : classes spaceFree Lead.emailRegex.
Proof.
  assert (spaceFree (fun c => negb (Js.is_space c || Ascii.eqb c "@"))) as Hn.
  { intros c Hc. rewrite Hc. reflexivity. }
  assert (forall a, Js.is_space a = false -> spaceFree (Ascii.eqb a)) as Hc.
  { intros a Ha c Hs. destruct (Ascii.eqb a c) eqn:E; [|reflexivity].
    apply Ascii.eqb_eq in E. subst. congruence. }
  unfold Lead.emailRegex, Regex.Plus, Regex.chr. simpl.
  repeat split; try exact Hn; apply Hc; reflexivity.
Qed.

(** An address the expression accepts holds no white space, is not empty
    and is accepted in lower case as well. *)
Lemma emailRegex_accepts (s : string) :
  Regex.test Lead.emailRegex s = true ->
  s <> "" /\ Js.trim s = s /\ Regex.test Lead.emailRegex (Js.toLowerCase s) = true.
Proof.
  intros H. split; [|split].
  - intros ->. discriminate H.
  - apply noSpace_trim. apply (@test_noSpace s Lead.emailRegex emailRegex_spaceFree H).
  - rewrite test_lower; [exact H | apply emailRegex_caseBlind].
Qed.

End RegexFacts.

(* ================================================================== *)
(** ** The row validator: shape of its answers *)
(* ================================================================== *)

Section ValidatorShape.

Lemma missing_false (v : option string) :
  Excel.missing v = false ->
  exists s, v = Some s /\ s <> "" /\ Js.trim s <> "".
Proof.
  destruct v as [s|]; [|discriminate]. unfold Excel.missing. simpl.
  destruct s as [|c s]; [discriminate|]. simpl. intros H.
  exists (String c s). repeat split; try discriminate.
  intros E. rewrite E in H. discriminate.
Qed.

Lemma missing_some (s : string) :
  s <> "" -> Js.trim s = s -> Excel.missing (Some s) = false.
Proof.
  intros Hs Ht. unfold Excel.missing. simpl. rewrite Ht.
  destruct s; [contradiction|reflexivity].
Qed.

Lemma enumField_value (v : option string) (valid : list string) (default : string)
      (e : Err.t) :
  In default valid -> In (fst (Excel.enumField v valid default e)) valid.
Proof.
  intros Hd. unfold Excel.enumField.
  destruct (Excel.supplied v); [|exact Hd].
  destruct (Js.mem (Js.trim (Excel.str v)) valid) eqn:Hm; [|exact Hd].
  apply mem_In. exact Hm.
Qed.

Lemma enumField_errors (v : option string) (valid : list string) (default : string)
      (e : Err.t) :
  snd (Excel.enumField v valid default e) = [] \/
  snd (Excel.enumField v valid default e) = [e].
Proof.
  unfold Excel.enumField. destruct (Excel.supplied v); [|now left].
  destruct (Js.mem _ valid); [now left | now right].
Qed.

Lemma optionalText_trimmed (v : option string) :
  Js.trim (Excel.optionalText v) = Excel.optionalText v.
Proof.
  unfold Excel.optionalText. destruct (Excel.supplied v); [apply trim_idem|reflexivity].
Qed.

Lemma optionalText_fixed (s : string) : Js.trim s = s -> Excel.optionalText (Some s) = s.
Proof.
  intros H. unfold Excel.optionalText, Excel.supplied. simpl.
  destruct s; [reflexivity|]. simpl. exact H.
Qed.

Lemma validSource_trimmed (s : string) :
  In s Excel.validSources -> Js.trim s = s /\ s <> "".
Proof.
  intros H. simpl in H.
  repeat (destruct H as [<-|H]; [split; [reflexivity|discriminate]|]). contradiction.
Qed.

Lemma validPriority_trimmed (s : string) :
  In s Excel.validPriorities -> Js.trim s = s /\ s <> "".
Proof.
  intros H. simpl in H.
  repeat (destruct H as [<-|H]; [split; [reflexivity|discriminate]|]). contradiction.
Qed.

Lemma enumField_fixed (s : string) (valid : list string) (default : string) (e : Err.t) :
  In s valid -> Js.trim s = s -> s <> "" ->
  Excel.enumField (Some s) valid default e = (s, []).
Proof.
  intros Hin Ht Hs. unfold Excel.enumField, Excel.supplied. simpl.
  destruct s; [contradiction|]. simpl. simpl in Ht. rewrite Ht.
  apply mem_In in Hin. rewrite Hin. reflexivity.
Qed.

(** What the validator has checked when it hands out a lead. *)
Lemma validated_wellFormed (row : Row.t) (rowIndex : nat) (l : LeadData.t) :
  Excel.lead (Excel.validateAndNormalizeLeadRow row rowIndex) = Some l -> wellFormed l.
Proof.
  unfold Excel.validateAndNormalizeLeadRow.
  destruct (Excel.nameErrors row rowIndex ++ Excel.emailErrors row rowIndex
            ++ Excel.phoneErrors row rowIndex ++ snd (Excel.sourceField row rowIndex)
            ++ snd (Excel.priorityField row rowIndex)) eqn:E; [|discriminate].
  apply app_eq_nil in E. destruct E as [En E].
  apply app_eq_nil in E. destruct E as [Ee E].
  apply app_eq_nil in E. destruct E as [Ep _].
  simpl. intros H. injection H as <-.
  unfold Excel.nameErrors in En. destruct (Excel.missing (Row.name row)) eqn:Mn;
    [discriminate|].
  unfold Excel.phoneErrors in Ep. destruct (Excel.missing (Row.phone row)) eqn:Mp;
    [discriminate|].
  unfold Excel.emailErrors in Ee. destruct (Excel.missing (Row.email row)) eqn:Me;
    [discriminate|].
  destruct (Regex.test Excel.emailRegex (Js.trim (Excel.str (Row.email row)))) eqn:Te;
    [|discriminate].
  apply missing_false in Mn. destruct Mn as (n & -> & _ & Hn).
  apply missing_false in Mp. destruct Mp as (p & -> & _ & Hp).
  apply missing_false in Me. destruct Me as (m & Hm & _ & _). rewrite Hm in *.
  simpl in Te. destruct (emailRegex_accepts _ Te) as (Enz & _ & Elow).
  unfold wellFormed.
  cbn [LeadData.name LeadData.email LeadData.phone LeadData.company LeadData.position
       LeadData.source LeadData.priority LeadData.status Excel.str Row.name Row.email
       Row.phone].
  repeat match goal with |- _ /\ _ => split end.
  - exact Hn.
  - apply trim_idem.
  - intros Z. apply Enz. destruct (Js.trim m); [reflexivity|simpl in Z; discriminate Z].
  - rewrite trim_lower, trim_idem. reflexivity.
  - apply toLowerCase_idem.
  - exact Elow.
  - exact Hp.
  - apply trim_idem.
  - apply optionalText_trimmed.
  - apply optionalText_trimmed.
  - unfold Excel.sourceField. apply enumField_value. simpl. tauto.
  - unfold Excel.priorityField. apply enumField_value. simpl. tauto.
  - reflexivity.
Qed.

(** The errors of one row carry the row number they were given. *)
Lemma validate_error_rows (row : Row.t) (rowIndex : nat) (e : Err.t) :
  In e (Excel.errors (Excel.validateAndNormalizeLeadRow row rowIndex)) ->
  Err.row e = rowIndex.
Proof.
  rewrite validate_errors. unfold Excel.nameErrors, Excel.emailErrors, Excel.phoneErrors.
  intros H.
  repeat (apply in_app_or in H; destruct H as [H|H]).
  - destruct (Excel.missing (Row.name row)); simpl in H; [|contradiction].
    destruct H as [<-|[]]. reflexivity.
  - destruct (Excel.missing (Row.email row)); simpl in H.
    + destruct H as [<-|[]]. reflexivity.
    + destruct (negb _); simpl in H; [|contradiction]. destruct H as [<-|[]]. reflexivity.
  - destruct (Excel.missing (Row.phone row)); simpl in H; [|contradiction].
    destruct H as [<-|[]]. reflexivity.
  - unfold Excel.sourceField in H.
    destruct (enumField_errors (Row.source row) Excel.validSources "Import"
                (Err.mk rowIndex "source" Excel.sourceMessage)) as [E|E];
      rewrite E in H; simpl in H; [contradiction|]. destruct H as [<-|[]]. reflexivity.
  - unfold Excel.priorityField in H.
    destruct (enumField_errors (Row.priority row) Excel.validPriorities "Medium"
                (Err.mk rowIndex "priority" Excel.priorityMessage)) as [E|E];
      rewrite E in H; simpl in H; [contradiction|]. destruct H as [<-|[]]. reflexivity.
Qed.

End ValidatorShape.

(** X1.  Whatever the row, a lead the validator hands out is normalized:
    name, e-mail and phone are non-empty and trimmed, the e-mail is in
    lower case and still matches the e-mail expression, company and
    position are trimmed, source and priority are allowed values and the
    status is New. *)
Theorem X1_validated_lead_is_normalized (row : Row.t) (rowIndex : nat) (l : LeadData.t) :
  Excel.lead (Excel.validateAndNormalizeLeadRow row rowIndex) = Some l ->
  LeadData.name l <> "" /\ Js.trim (LeadData.name l) = LeadData.name l /\
  LeadData.email l <> "" /\ Js.trim (LeadData.email l) = LeadData.email l /\
  Js.toLowerCase (LeadData.email l) = LeadData.email l /\
  Regex.test Lead.emailRegex (LeadData.email l) = true /\
  LeadData.phone l <> "" /\ Js.trim (LeadData.phone l) = LeadData.phone l /\
  Js.trim (LeadData.company l) = LeadData.company l /\
  Js.trim (LeadData.position l) = LeadData.position l /\
  In (LeadData.source l) Excel.validSources /\
  In (LeadData.priority l) Excel.validPriorities /\
  LeadData.status l = "New".
Proof. intros H. exact (validated_wellFormed row rowIndex H). Qed.

Lemma X1_validated_lead_is_normalized_witness :
  let row := Row.mk (Some " Ann ") (Some " Ann@X.com") (Some "555-0001") None None None None in
  let l := LeadData.mk "Ann" "ann@x.com" "555-0001" "" "" "Import" "Medium" "New" in
  Excel.lead (Excel.validateAndNormalizeLeadRow row 2) = Some l /\
  Regex.test Lead.emailRegex (LeadData.email l) = true /\
  In (LeadData.source l) Excel.validSources.
Proof.
  intros row l.
  pose proof (@X1_validated_lead_is_normalized row 2 l eq_refl) as H.
  split; [reflexivity | split; apply H].
Defined.

(** X2.  The errors of one row all carry the row number the validator was
    given, name each of the five checked fields at most once, and are
    empty exactly when the row is valid; a lead is handed out exactly
    then. *)
Theorem X2_row_errors_shape (row : Row.t) (rowIndex : nat) :
  let v := Excel.validateAndNormalizeLeadRow row rowIndex in
  Forall (fun e => Err.row e = rowIndex) (Excel.errors v) /\
  NoDup (map Err.field (Excel.errors v)) /\
  incl (map Err.field (Excel.errors v)) ["name"; "email"; "phone"; "source"; "priority"] /\
  (Excel.isValid v = true <-> Excel.errors v = []) /\
  (Excel.lead v <> None <-> Excel.errors v = []).
Proof.
  cbv zeta. split; [|split; [|split; [|split]]].
  - apply Forall_forall. intros e. apply validate_error_rows.
  - rewrite validate_errors.
    unfold Excel.nameErrors, Excel.emailErrors, Excel.phoneErrors, Excel.sourceField,
      Excel.priorityField.
    destruct (enumField_errors (Row.source row) Excel.validSources "Import"
                (Err.mk rowIndex "source" Excel.sourceMessage)) as [Es|Es];
    destruct (enumField_errors (Row.priority row) Excel.validPriorities "Medium"
                (Err.mk rowIndex "priority" Excel.priorityMessage)) as [Ep|Ep];
    rewrite Es, Ep;
    destruct (Excel.missing (Row.name row)), (Excel.missing (Row.email row)),
      (negb (Regex.test Excel.emailRegex (Js.trim (Excel.str (Row.email row))))),
      (Excel.missing (Row.phone row));
    cbn [app map Err.field];
    repeat (constructor; [cbn [In]; intuition discriminate|]); constructor.
  - rewrite validate_errors.
    unfold Excel.nameErrors, Excel.emailErrors, Excel.phoneErrors, Excel.sourceField,
      Excel.priorityField.
    destruct (enumField_errors (Row.source row) Excel.validSources "Import"
                (Err.mk rowIndex "source" Excel.sourceMessage)) as [Es|Es];
    destruct (enumField_errors (Row.priority row) Excel.validPriorities "Medium"
                (Err.mk rowIndex "priority" Excel.priorityMessage)) as [Ep|Ep];
    rewrite Es, Ep;
    destruct (Excel.missing (Row.name row)), (Excel.missing (Row.email row)),
      (negb (Regex.test Excel.emailRegex (Js.trim (Excel.str (Row.email row))))),
      (Excel.missing (Row.phone row));
    cbn [app map Err.field]; intros f Hf; cbn [In] in *; tauto.
  - destruct (validate_cases row rowIndex) as [(Hv & He & _)|(Hv & He & _)];
      rewrite Hv; split; intros H; try assumption; try reflexivity;
      try discriminate; contradiction.
  - destruct (validate_cases row rowIndex) as [(_ & He & l & Hl)|(_ & He & Hl)];
      rewrite Hl; split; intros H; try assumption; try discriminate; try contradiction.
Qed.

(** X3.  Normalized leads are exactly the fixed points of the validator:
    the row that spells out a lead validates, at any row number, without
    error and to that very lead if and only if the lead is normalized. *)
Theorem X3_normalized_leads_are_fixed_points (l : LeadData.t) (rowIndex : nat) :
  wellFormed l <->
  Excel.validateAndNormalizeLeadRow (asRow l) rowIndex =
  Excel.mkValidation true (Some l) [].
Proof.
  split.
  - intros (Hn & Tn & He & Te & Le & Re & Hp & Tp & Tc & To & Hs & Hr & Hst).
    unfold Excel.validateAndNormalizeLeadRow.
    assert (Excel.nameErrors (asRow l) rowIndex = []) as ->.
    { unfold Excel.nameErrors. simpl. rewrite (missing_some Hn Tn). reflexivity. }
    assert (Excel.phoneErrors (asRow l) rowIndex = []) as ->.
    { unfold Excel.phoneErrors. simpl. rewrite (missing_some Hp Tp). reflexivity. }
    assert (Excel.emailErrors (asRow l) rowIndex = []) as ->.
    { unfold Excel.emailErrors. simpl. rewrite (missing_some He Te). simpl.
      rewrite Te. unfold Excel.emailRegex. rewrite Re. reflexivity. }
    destruct (validSource_trimmed Hs) as (Ts & Ns).
    destruct (validPriority_trimmed Hr) as (Tr & Nr).
    assert (Excel.sourceField (asRow l) rowIndex = (LeadData.source l, [])) as ->.
    { unfold Excel.sourceField. simpl. apply enumField_fixed; assumption. }
    assert (Excel.priorityField (asRow l) rowIndex = (LeadData.priority l, [])) as ->.
    { unfold Excel.priorityField. simpl. apply enumField_fixed; assumption. }
    simpl. rewrite Tn, Te, Le, Tp, (optionalText_fixed Tc), (optionalText_fixed To).
    rewrite <- Hst. destruct l; reflexivity.
  - intros H. apply (@validated_wellFormed (asRow l) rowIndex l). rewrite H. reflexivity.
Qed.

(* ================================================================== *)
(** ** The import: accounting, row numbers and what is created *)
(* ================================================================== *)

Section ImportShape.

Implicit Types (m : Excel.EmailMap) (V : list LeadData.t).

Lemma validateRows_error_rows (rows : list Row.t) : forall i e,
  In e (snd (Excel.validateRows rows i)) ->
  i + 2 <= Err.row e < i + 2 + List.length rows.
Proof.
  induction rows as [|r rest IH]; intros i e; [simpl; contradiction|].
  destruct (validateRows_cons r rest i) as [(l & _ & ->)|(_ & ->)]; cbn [snd List.length].
  - intros H. apply IH in H. lia.
  - intros H. apply in_app_or in H. destruct H as [H|H].
    + apply validate_error_rows in H. lia.
    + apply IH in H. lia.
Qed.

Lemma validateRows_wellFormed (rows : list Row.t) : forall i l,
  In l (fst (Excel.validateRows rows i)) -> wellFormed l.
Proof.
  induction rows as [|r rest IH]; intros i l; [simpl; contradiction|].
  destruct (validateRows_cons r rest i) as [(l0 & Hl0 & ->)|(_ & ->)]; cbn [fst].
  - intros [<-|H]; [exact (validated_wellFormed _ _ Hl0) | exact (IH _ _ H)].
  - apply IH.
Qed.

Lemma keys_push_eq m e i :
  keys (Excel.emailMap_push m e i) = if Js.mem e (keys m) then keys m else keys m ++ [e].
Proof.
  unfold keys. induction m as [|[k v] r IH]; [reflexivity|].
  cbn [Excel.emailMap_push map fst].
  change (Js.mem e (k :: map fst r)) with (String.eqb e k || Js.mem e (map fst r)).
  rewrite (String.eqb_sym e k). destruct (String.eqb k e); cbn [orb map fst].
  - reflexivity.
  - rewrite IH. destruct (Js.mem e (map fst r)); reflexivity.
Qed.

Lemma keys_build_NoDup V : forall m i,
  NoDup (keys m) -> NoDup (keys (Excel.buildEmailMap m i V)).
Proof.
  induction V as [|l r IH]; intros m i H; [exact H|].
  cbn [Excel.buildEmailMap]. apply IH. rewrite keys_push_eq.
  destruct (Js.mem (LeadData.email l) (keys m)) eqn:E; [exact H|].
  apply NoDup_snoc; [exact H | now apply mem_false_In].
Qed.

Lemma In_get m : forall k v,
  NoDup (keys m) -> In (k, v) m -> Excel.emailMap_get m k = Some v.
Proof.
  unfold keys. induction m as [|[k0 v0] r IH]; intros k v Hnd Hin; [contradiction|].
  cbn [map fst] in Hnd. inversion Hnd as [|? ? Hk0 Hr]. subst.
  cbn [Excel.emailMap_get]. destruct Hin as [E|Hin].
  - inversion E. subst. now rewrite String.eqb_refl.
  - destruct (String.eqb k0 k) eqn:E.
    + apply String.eqb_eq in E. subst k0. exfalso. apply Hk0.
      change k with (fst (k, v)). now apply in_map.
    + now apply IH.
Qed.

(** The entries of the map that has been built list, for every address,
    the positions of the leads that carry it. *)
Lemma built_entries V (k : string) (v : list nat) :
  In (k, v) (Excel.buildEmailMap [] 0 V) -> v = indicesOf k 0 V /\ v <> [].
Proof.
  intros H. apply In_get in H; [|apply keys_build_NoDup; constructor].
  rewrite get_built in H. destruct (indicesOf k 0 V); [discriminate|].
  inversion H. split; [reflexivity | discriminate].
Qed.

Lemma duplicateErrors_In m (e : Err.t) :
  In e (Excel.duplicateErrors m) <->
  exists k h rest j, In (k, h :: rest) m /\ In j rest /\ e = duplicateWithinFile (j + 2) k.
Proof.
  unfold Excel.duplicateErrors. rewrite in_flat_map. split.
  - intros ([k v] & Hin & He).
    destruct v as [|h [|x rest]]; cbn [List.length Nat.ltb Nat.leb skipn] in He;
      try contradiction.
    apply in_map_iff in He. destruct He as (j & <- & Hj).
    exists k, h, (x :: rest), j. repeat split; assumption.
  - intros (k & h & rest & j & Hin & Hj & ->).
    exists (k, h :: rest). split; [exact Hin|].
    destruct rest as [|x rest]; [contradiction|].
    cbn [List.length Nat.ltb Nat.leb skipn]. apply in_map_iff. exists j. now split.
Qed.

Lemma keepFirst_first V : forall seen l,
  In l (keepFirst seen V) <->
  exists k, nth_error V k = Some l /\ Js.mem (LeadData.email l) seen = false /\
            forall j l', j < k -> nth_error V j = Some l' ->
                         LeadData.email l' <> LeadData.email l.
Proof.
  induction V as [|x r IH]; intros seen l.
  - simpl. split; [contradiction|]. intros (k & H & _). now destruct k.
  - cbn [keepFirst]. split.
    + intros H.
      assert (Hcases : (l = x /\ Js.mem (LeadData.email x) seen = false) \/
                       In l (keepFirst (seen ++ [LeadData.email x]) r)).
      { destruct (Js.mem (LeadData.email x) seen) eqn:E; [now right|].
        destruct H as [<-|H]; [now left | now right]. }
      destruct Hcases as [(-> & Hm)|Hl].
      * exists 0. repeat split; [exact Hm|]. intros j l' Hj. lia.
      * apply IH in Hl. destruct Hl as (k & Hk & Hm & Hbefore).
        rewrite mem_app in Hm. apply orb_false_iff in Hm. destruct Hm as [Hm Hx].
        exists (S k). repeat split; [exact Hk | exact Hm|].
        intros j l' Hj Hn. destruct j as [|j].
        -- simpl in Hn. inversion Hn. subst l'. simpl in Hx.
           rewrite orb_false_r in Hx. apply String.eqb_neq in Hx. congruence.
        -- apply (Hbefore j); [lia | exact Hn].
    + intros (k & Hk & Hm & Hbefore). destruct k as [|k].
      * simpl in Hk. inversion Hk. subst x. rewrite Hm. now left.
      * simpl in Hk.
        assert (Hl : In l (keepFirst (seen ++ [LeadData.email x]) r)).
        { apply IH. exists k. repeat split; [exact Hk | |].
          - rewrite mem_app, Hm. simpl. rewrite orb_false_r. apply String.eqb_neq.
            intros E. apply (Hbefore 0 x); [lia | reflexivity | now symmetry].
          - intros j l' Hj Hn. apply (Hbefore (S j)); [lia | exact Hn]. }
        destruct (Js.mem (LeadData.email x) seen); [exact Hl | now right].
Qed.

Lemma findIndex_found {A} (p : A -> bool) (l : list A) (x : A) :
  In x l -> p x = true -> exists k, Js.findIndex p l = Some k /\ k < List.length l.
Proof.
  induction l as [|y r IH]; intros Hin Hp; [contradiction|].
  cbn [Js.findIndex List.length]. destruct (p y) eqn:E.
  - exists 0. split; [reflexivity | lia].
  - destruct Hin as [->|Hin]; [congruence|].
    destruct (IH Hin Hp) as (k & -> & Hk). exists (S k). split; [reflexivity | lia].
Qed.

Lemma originalRow_range V (L : LeadData.t) :
  In L V -> 2 <= Excel.originalRow V L <= List.length V + 1.
Proof.
  intros H. unfold Excel.originalRow.
  destruct (@findIndex_found _
              (fun l => String.eqb (LeadData.email l) (LeadData.email L)) V L H
              (String.eqb_refl _)) as (k & -> & Hk).
  lia.
Qed.

Variable assignedBy : option string.

Lemma run_error_rows V (E : list string) (todo : list LeadData.t) : forall db e,
  In e (fst (fst (Excel.processLeads assignedBy V E todo db))) ->
  exists L, In L todo /\ Err.row e = Excel.originalRow V L.
Proof.
  induction todo as [|L rest IH]; intros db e; [simpl; contradiction|].
  destruct (run_cons assignedBy V E L rest db)
    as [(_ & ->)|[(_ & doc & db1 & _ & ->)|(_ & err & _ & ->)]]; cbn [fst snd].
  - intros [<-|H]; [exists L; split; [now left | reflexivity]|].
    destruct (IH _ _ H) as (L0 & HL0 & Hr). exists L0. split; [now right | exact Hr].
  - intros H. destruct (IH _ _ H) as (L0 & HL0 & Hr). exists L0. split; [now right | exact Hr].
  - intros [<-|H]; [exists L; split; [now left | reflexivity]|].
    destruct (IH _ _ H) as (L0 & HL0 & Hr). exists L0. split; [now right | exact Hr].
Qed.

Lemma run_created_by V (E : list string) (todo : list LeadData.t) : forall db d,
  In d (snd (fst (Excel.processLeads assignedBy V E todo db))) ->
  exists L s s', In L todo /\ Store.create (Excel.toInput L assignedBy) s = inr (d, s').
Proof.
  induction todo as [|L rest IH]; intros db d; [simpl; contradiction|].
  destruct (run_cons assignedBy V E L rest db)
    as [(_ & ->)|[(_ & doc & db1 & Hc & ->)|(_ & err & _ & ->)]]; cbn [fst snd].
  - intros H. destruct (IH _ _ H) as (L0 & s & s' & HL0 & Hs).
    exists L0, s, s'. split; [now right | exact Hs].
  - intros [<-|H]; [exists L, db, db1; split; [now left | exact Hc]|].
    destruct (IH _ _ H) as (L0 & s & s' & HL0 & Hs).
    exists L0, s, s'. split; [now right | exact Hs].
  - intros H. destruct (IH _ _ H) as (L0 & s & s' & HL0 & Hs).
    exists L0, s, s'. split; [now right | exact Hs].
Qed.

End ImportShape.

Section SchemaFacts.

Lemma score_range (st : string) :
  10 <= Lead.or_default (Lead.lookup st Lead.scoreMap) 50 <= 100.
Proof.
  unfold Lead.scoreMap. cbn [Lead.lookup].
  repeat match goal with
         | |- context [if String.eqb ?a ?b then _ else _] => destruct (String.eqb a b)
         end; simpl; lia.
Qed.

Lemma validate_set_leadScore (n : nat) (d : Lead.t) :
  n <= 100 -> Store.validate d = [] -> Store.validate (Lead.set_leadScore n d) = [].
Proof.
  intros Hn. unfold Store.validate, Lead.set_leadScore.
  cbn [Lead.name Lead.email Lead.phone Lead.company Lead.position Lead.source Lead.status
       Lead.priority Lead.notes Lead.leadScore].
  intros H.
  repeat match type of H with
         | _ ++ _ = [] => apply app_eq_nil in H; let H1 := fresh "V" in destruct H as [H1 H]
         end.
  rewrite V, V0, V1, V2, V3, V4, V5, V6, H.
  apply Nat.leb_le in Hn. rewrite Hn. reflexivity.
Qed.

Lemma validate_preSave (sm : bool) (d : Lead.t) :
  Store.validate d = [] -> Store.validate (Lead.preSave sm d) = [].
Proof.
  intros H. unfold Lead.preSave. destruct sm; [|exact H].
  apply validate_set_leadScore; [apply score_range | exact H].
Qed.

Lemma save_new_valid sm d s d' s' :
  Store.save_new sm d s = inr (d', s') ->
  Store.validate d = [] /\ Store.validate d' = [].
Proof.
  unfold Store.save_new. destruct (Store.validate d) eqn:V; [|discriminate].
  destruct (Store.unique_violation _ _); [discriminate|].
  intros H. inversion H. subst. split; [reflexivity|]. now apply validate_preSave.
Qed.

Lemma save_existing_accepted sm d s d' s' :
  Store.save_existing sm d s = inr (d', s') ->
  d' = Lead.preSave sm d /\ Store.validate d' = [] /\
  s' = Store.mk (Store.replace d' (Store.docs s)) (Store.nextId s).
Proof.
  unfold Store.save_existing. destruct (Store.validate d) eqn:V; [|discriminate].
  destruct (Store.unique_violation _ _); [discriminate|].
  intros H. inversion H. subst. repeat split. now apply validate_preSave.
Qed.

(** The document an import creates from a normalized lead. *)
Lemma create_imported (L : LeadData.t) (assignedBy : option string) (s s' : Store.t)
      (d : Lead.t) :
  wellFormed L ->
  Store.create (Excel.toInput L assignedBy) s = inr (d, s') ->
  d = Lead.mk (Store.nextId s) (LeadData.name L) (LeadData.email L) (LeadData.phone L)
              (Some (LeadData.company L)) (Some (LeadData.position L))
              (LeadData.source L) "New" (LeadData.priority L) None assignedBy [] 20
  /\ Store.validate d = [].
Proof.
  intros (Hn & Tn & He & Te & Le & Re & Hp & Tp & Tc & To & Hs & Hr & Hst) Hc.
  unfold Store.create in Hc. cbn [Excel.toInput Store.in_status] in Hc.
  destruct (save_new_accepted _ _ _ Hc) as (-> & _).
  split; [|exact (proj2 (save_new_valid _ _ _ Hc))].
  unfold Store.construct, Store.set_email, Store.set_trim. simpl.
  rewrite Hst, Tn, Tp, Tc, To, Le, Te. reflexivity.
Qed.

End SchemaFacts.

(** X4.  The counters of every import report add up: the successful
    imports are the returned leads, successful and failed imports make up
    the total, no failed row goes without an error entry, and the list of
    errors is empty exactly when nothing failed. *)
Theorem X4_import_accounting (queryFails : bool) (req : Excel.Request) (db : Store.t) :
  let d := Excel.data (fst (Excel.importFromExcel queryFails req db)) in
  Excel.successfulImports d = List.length (Excel.leads d) /\
  Excel.successfulImports d + Excel.failedImports d = Excel.totalRows d /\
  Excel.failedImports d <= List.length (Excel.rowErrors d) /\
  (Excel.rowErrors d = [] <-> Excel.failedImports d = 0).
Proof.
  cbv zeta. pose proof (importFromExcel_cases queryFails req db) as Hc.
  assert (Hfail : forall code msg errs,
            Excel.importFromExcel queryFails req db = (Excel.failure code msg errs, db) ->
            let d := Excel.data (fst (Excel.importFromExcel queryFails req db)) in
            Excel.successfulImports d = List.length (Excel.leads d) /\
            Excel.successfulImports d + Excel.failedImports d = Excel.totalRows d /\
            Excel.failedImports d <= List.length (Excel.rowErrors d) /\
            (Excel.rowErrors d = [] <-> Excel.failedImports d = 0)).
  { intros code msg errs ->. simpl. repeat split; auto. }
  destruct (firstSheet req) as [sheet|].
  - destruct queryFails; [exact (Hfail _ _ _ Hc)|]. rewrite Hc.
    pose proof (import_conservation (Excel.userId req) sheet db) as (Hsum & Hlen).
    pose proof (failed_rows_have_errors (Excel.userId req) sheet db) as Hle.
    pose proof (all_imported_no_errors (Excel.userId req) sheet db) as Hall.
    cbv zeta in *. repeat split; try assumption.
    + intros E. rewrite E in Hle. simpl in Hle. lia.
    + intros Z. apply Hall. lia.
  - destruct Hc as (msg & errs & Hc). exact (Hfail _ _ _ Hc).
Qed.

(** X5.  Every entry of an import report names a row between 2 and the
    number of data rows plus one: the look-up of the original row never
    fails, so no entry carries row 1, and no entry points below the last
    data row. *)
Theorem X5_error_rows_in_range (queryFails : bool) (req : Excel.Request) (db : Store.t)
        (e : Err.t) :
  let d := Excel.data (fst (Excel.importFromExcel queryFails req db)) in
  In e (Excel.rowErrors d) -> 2 <= Err.row e <= Excel.totalRows d + 1.
Proof.
  cbv zeta. pose proof (importFromExcel_cases queryFails req db) as Hc.
  destruct (firstSheet req) as [sheet|].
  - destruct queryFails; [rewrite Hc; simpl; contradiction|]. rewrite Hc.
    rewrite importSheet_phases. cbn [fst Excel.data Excel.rowErrors Excel.totalRows].
    pose proof (validateRows_length (Excel.jsonData sheet) 0) as Hlen.
    fold (validLeadsOf sheet) in Hlen.
    intros H. apply in_app_or in H. destruct H as [H|H].
    + apply validateRows_error_rows in H. lia.
    + apply in_app_or in H. destruct H as [H|H].
      * apply duplicateErrors_In in H.
        destruct H as (k & h & rest & j & Hin & Hj & ->).
        apply built_entries in Hin. destruct Hin as (Hv & _).
        assert (In j (indicesOf k 0 (validLeadsOf sheet))) as Hjv
            by (rewrite <- Hv; now right).
        apply indicesOf_bounds in Hjv. simpl. lia.
      * apply run_error_rows in H. destruct H as (L & HL & ->).
        unfold proceedingLeadsOf in HL. rewrite uniqueValidLeads_keepFirst in HL.
        apply keepFirst_incl in HL.
        pose proof (originalRow_range _ _ HL). lia.
  - destruct Hc as (msg & errs & ->). simpl. contradiction.
Qed.

Lemma X5_error_rows_in_range_witness :
  let d := Excel.data (fst (Excel.importFromExcel false
                              (Sample.request Inputs.invalidThenStored)
                              Inputs.storeWithAnn)) in
  In (duplicateInDatabase 2 "ann@x.com") (Excel.rowErrors d) /\
  2 <= 2 <= Excel.totalRows d + 1.
Proof.
  intros d.
  assert (Hin : In (duplicateInDatabase 2 "ann@x.com") (Excel.rowErrors d))
    by (vm_compute; right; left; reflexivity).
  split; [exact Hin|].
  exact (@X5_error_rows_in_range false (Sample.request Inputs.invalidThenStored)
           Inputs.storeWithAnn (duplicateInDatabase 2 "ann@x.com") Hin).
Defined.

(** X6.  Every lead an import returns was built from a lead that reached
    the persistence loop: it carries that lead's normalized fields, the
    status New with the score 20 the hook gives it, no assignee, the
    importing user as assigner and no notes, and it passes the schema. *)
Theorem X6_imported_lead_attributes (queryFails : bool) (req : Excel.Request)
        (db : Store.t) (sheet : Excel.Sheet) (d : Lead.t) :
  firstSheet req = Some sheet ->
  In d (Excel.leads (Excel.data (fst (Excel.importFromExcel queryFails req db)))) ->
  (exists L, In L (proceedingLeadsOf sheet) /\
     d = Lead.mk (Lead._id d) (LeadData.name L) (LeadData.email L) (LeadData.phone L)
                 (Some (LeadData.company L)) (Some (LeadData.position L))
                 (LeadData.source L) "New" (LeadData.priority L) None
                 (Excel.userId req) [] 20) /\
  In (Lead.source d) Lead.sourceEnum /\ In (Lead.priority d) Lead.priorityEnum /\
  Store.validate d = [].
Proof.
  intros Hs. pose proof (importFromExcel_cases queryFails req db) as Hc.
  rewrite Hs in Hc. destruct queryFails; [rewrite Hc; simpl; contradiction|].
  rewrite Hc, importSheet_phases. cbn [fst Excel.data Excel.leads].
  intros H. apply run_created_by in H. destruct H as (L & s & s' & HL & Hcr).
  assert (HW : wellFormed L).
  { fold (proceedingLeadsOf sheet) in HL. unfold proceedingLeadsOf in HL.
    rewrite uniqueValidLeads_keepFirst in HL. apply keepFirst_incl in HL.
    exact (validateRows_wellFormed _ _ _ HL). }
  destruct (@create_imported L _ s s' d HW Hcr) as (Hd & Hv).
  pose proof HW as (_ & _ & _ & _ & _ & _ & _ & _ & _ & _ & Hso & Hpr & _).
  split; [|split; [|split]].
  - exists L. split; [exact HL|]. rewrite Hd at 1. rewrite Hd. reflexivity.
  - rewrite Hd. exact Hso.
  - rewrite Hd. exact Hpr.
  - exact Hv.
Qed.

Lemma X6_imported_lead_attributes_witness :
  let req := Sample.request Reimported.twoValid in
  let d := Lead.mk 0 "Ann" "ann@x.com" "555-0001" (Some "") (Some "") "Import" "New"
                   "Medium" None (Some "admin-1") [] 20 in
  In d (Excel.leads (Excel.data (fst (Excel.importFromExcel false req Sample.emptyStore))))
  /\ Store.validate d = [].
Proof.
  intros req d.
  assert (Hin : In d (Excel.leads (Excel.data
                        (fst (Excel.importFromExcel false req Sample.emptyStore)))))
    by (vm_compute; left; reflexivity).
  split; [exact Hin|].
  apply (@X6_imported_lead_attributes false req Sample.emptyStore
           (Sample.header :: Reimported.twoValid) d eq_refl Hin).
Defined.

(** X7.  The duplicate-within-file entries are exactly the later
    occurrences: an entry is pushed for position k of the valid leads,
    with row k + 2 and the address, if and only if an earlier valid lead
    carries the same address; and every valid lead either proceeds or
    accounts for one such entry. *)
Theorem X7_within_file_duplicates (V : list LeadData.t) :
  (forall e,
     In e (Excel.duplicateErrors (Excel.buildEmailMap [] 0 V)) <->
     exists j k first later,
       nth_error V j = Some first /\ nth_error V k = Some later /\ j < k /\
       LeadData.email first = LeadData.email later /\
       e = duplicateWithinFile (k + 2) (LeadData.email later)) /\
  List.length (Excel.duplicateErrors (Excel.buildEmailMap [] 0 V))
  + List.length (Excel.uniqueValidLeads V) = List.length V.
Proof.
  split; [|apply duplicateErrors_count].
  intros e. split.
  - intros H. apply duplicateErrors_In in H.
    destruct H as (k & h & rest & j & Hin & Hj & ->).
    apply built_entries in Hin. destruct Hin as (Hv & _). symmetry in Hv.
    pose proof (indicesOf_head _ _ _ Hv j Hj) as Hlt.
    assert (Hh : In h (indicesOf k 0 V)) by (rewrite Hv; now left).
    assert (Hj' : In j (indicesOf k 0 V)) by (rewrite Hv; now right).
    apply indicesOf_nth in Hh. apply indicesOf_nth in Hj'.
    rewrite Nat.sub_0_r in Hh, Hj'.
    destruct Hh as (first & Hf & Ef). destruct Hj' as (later & Hl & El).
    exists h, j, first, later. repeat split; try assumption; congruence.
  - intros (j & k & first & later & Hj & Hk & Hlt & Heq & ->).
    exact (later_occurrence_reported V Hj Hk Hlt Heq).
Qed.

(** X8.  The leads that reach the persistence loop are exactly the first
    occurrences: a valid lead proceeds if and only if no valid lead before
    it carries the same address; so no two proceeding leads share one. *)
Theorem X8_first_occurrences_proceed (V : list LeadData.t) :
  (forall l,
     In l (Excel.uniqueValidLeads V) <->
     exists k, nth_error V k = Some l /\
               forall j l', j < k -> nth_error V j = Some l' ->
                            LeadData.email l' <> LeadData.email l) /\
  NoDup (map LeadData.email (Excel.uniqueValidLeads V)).
Proof.
  rewrite uniqueValidLeads_keepFirst. split; [|apply keepFirst_NoDup].
  intros l. rewrite keepFirst_first. split.
  - intros (k & Hk & _ & Hb). exists k. now split.
  - intros (k & Hk & Hb). exists k. repeat split; assumption.
Qed.

(* ================================================================== *)
(** ** A row whose address is already stored *)
(* ================================================================== *)

Section StoredAddress.

Implicit Types (V : list LeadData.t) (rows : list Row.t).

(** The lead a valid row contributes stands, among the valid leads, at
    the position counted by the valid rows before it. *)
Lemma validateRows_position rows : forall j i row L,
  nth_error rows i = Some row ->
  Excel.lead (Excel.validateAndNormalizeLeadRow row (j + i + 2)) = Some L ->
  nth_error (fst (Excel.validateRows rows j))
            (List.length (fst (Excel.validateRows (firstn i rows) j))) = Some L.
Proof.
  induction rows as [|r rest IH]; intros j i row L Hrow Hlead; [now destruct i|].
  destruct i as [|i].
  - simpl in Hrow. inversion Hrow. subst r. rewrite Nat.add_0_r in Hlead.
    cbn [firstn]. change (fst (Excel.validateRows [] j)) with (@nil LeadData.t).
    cbn [List.length].
    destruct (validateRows_cons row rest j) as [(l & Hl & ->)|(He & _)].
    + cbn [fst nth_error]. congruence.
    + destruct (validate_cases row (j + 2)) as [(_ & E & _)|(_ & _ & N)];
        [contradiction | congruence].
  - cbn [nth_error] in Hrow. cbn [firstn].
    replace (j + S i + 2) with (S j + i + 2) in Hlead by lia.
    specialize (IH (S j) i row L Hrow Hlead).
    destruct (validateRows_cons r rest j) as [(l & Hl & ->)|(He & ->)];
      destruct (validateRows_cons r (firstn i rest) j) as [(l' & Hl' & ->)|(He' & ->)];
      cbn [fst List.length nth_error]; try exact IH.
    + destruct (validate_cases r (j + 2)) as [(_ & E & _)|(_ & _ & N)];
        [contradiction | congruence].
    + destruct (validate_cases r (j + 2)) as [(_ & E & _)|(_ & _ & N)];
        [contradiction | congruence].
Qed.

Lemma findIndex_first V : forall k (L : LeadData.t),
  nth_error V k = Some L ->
  (forall j L', j < k -> nth_error V j = Some L' -> LeadData.email L' <> LeadData.email L) ->
  Js.findIndex (fun l => String.eqb (LeadData.email l) (LeadData.email L)) V = Some k.
Proof.
  induction V as [|x r IH]; intros k L Hk Hfirst; [now destruct k|].
  cbn [Js.findIndex]. destruct k as [|k].
  - simpl in Hk. inversion Hk. subst x. now rewrite String.eqb_refl.
  - assert (E : String.eqb (LeadData.email x) (LeadData.email L) = false).
    { apply String.eqb_neq. apply (Hfirst 0 x); [lia | reflexivity]. }
    rewrite E. cbn [nth_error] in Hk. rewrite (IH k L Hk); [reflexivity|].
    intros j L' Hj Hn. apply (Hfirst (S j) L'); [lia | exact Hn].
Qed.

(** Every address of the valid leads has a first occurrence. *)
Lemma first_occurrence V : forall j (L : LeadData.t),
  nth_error V j = Some L ->
  exists j0 L0, j0 <= j /\ nth_error V j0 = Some L0 /\
    LeadData.email L0 = LeadData.email L /\
    forall i L', i < j0 -> nth_error V i = Some L' -> LeadData.email L' <> LeadData.email L0.
Proof.
  induction V as [|x r IH]; intros j L Hj; [now destruct j|].
  destruct (String.eqb (LeadData.email x) (LeadData.email L)) eqn:E.
  - apply String.eqb_eq in E. exists 0, x. repeat split; [lia | exact E|].
    intros i L' Hi. lia.
  - destruct j as [|j]; [simpl in Hj; inversion Hj; subst x;
                          rewrite String.eqb_refl in E; discriminate|].
    cbn [nth_error] in Hj. destruct (IH j L Hj) as (j0 & L0 & Hle & Hn & He & Hfirst).
    exists (S j0), L0. repeat split; [lia | exact Hn | exact He|].
    intros i L' Hi Hn'. destruct i as [|i].
    + simpl in Hn'. inversion Hn'. subst L'. apply String.eqb_neq in E. congruence.
    + apply (Hfirst i L'); [lia | exact Hn'].
Qed.

Variable assignedBy : option string.
Variable sheet : Excel.Sheet.
Variable db : Store.t.

(** The first valid lead with an address that is stored is reported as
    existing, under its own position. *)
Lemma stored_first_reported (k : nat) (L : LeadData.t) :
  nth_error (validLeadsOf sheet) k = Some L ->
  (forall j L', j < k -> nth_error (validLeadsOf sheet) j = Some L' ->
                LeadData.email L' <> LeadData.email L) ->
  In (LeadData.email L) (map Lead.email (Store.docs db)) ->
  In (duplicateInDatabase (k + 2) (LeadData.email L))
     (fst (fst (loopOf assignedBy sheet db))).
Proof.
  intros Hk Hfirst Hstored.
  assert (HU : In L (proceedingLeadsOf sheet)).
  { unfold proceedingLeadsOf. rewrite uniqueValidLeads_keepFirst. apply keepFirst_first.
    exists k. repeat split; assumption. }
  assert (Hrow : Excel.originalRow (validLeadsOf sheet) L = k + 2).
  { unfold Excel.originalRow. now rewrite (findIndex_first _ Hk Hfirst). }
  rewrite <- Hrow. unfold loopOf. apply run_duplicate; [exact HU|].
  rewrite mem_find_emails_in. apply andb_true_iff. split.
  - apply mem_In. now apply in_map.
  - now apply mem_In.
Qed.

End StoredAddress.

(** C8 (counterexample).  The one data row carries the address of a
    stored lead and no phone number: the import reports that the phone is
    required and nothing else, so the row yields no duplicate-in-database
    error. *)
Lemma C8_counterexample :
  let out := Excel.importFromExcel false (Sample.request StoredRows.annWithoutPhone)
               Inputs.storeWithAnn in
  map rowEmail (Excel.jsonData (Sample.header :: StoredRows.annWithoutPhone))
    = ["ann@x.com"] /\
  In "ann@x.com" (map Lead.email (Store.docs Inputs.storeWithAnn)) /\
  Excel.rowErrors (Excel.data (fst out)) = [Err.mk 2 "phone" "Phone is required"] /\
  countDuplicateInDatabase (Excel.rowErrors (Excel.data (fst out))) = 0.
Proof. vm_compute. repeat split. left. reflexivity. Qed.

(** C8 (amended).  For a row whose e-mail address (as normalized by the
    validator) is already in the collection, no lead with that address is
    created and the collection afterwards is the old one, document for
    document, followed by the leads the import created.  If the row
    passes validation, its lead stands at position k among the valid
    leads (k counts the valid rows before it), and the row yields an
    error for the address under its own number k + 2: the
    duplicate-in-database error when no earlier valid row carries the
    address, and otherwise the duplicate-within-file error, the
    duplicate-in-database error then being reported under the number of
    the first valid row with the address. *)
Theorem C8_stored_email_row
        (req : Excel.Request) (sheet : Excel.Sheet) (db : Store.t)
        (i : nat) (row : Row.t) :
  firstSheet req = Some sheet ->
  nth_error (Excel.jsonData sheet) i = Some row ->
  In (rowEmail row) (map Lead.email (Store.docs db)) ->
  let resp := fst (Excel.importFromExcel false req db) in
  let db' := snd (Excel.importFromExcel false req db) in
  let V := validLeadsOf sheet in
  let k := validPosition (Excel.jsonData sheet) i in
  (forall L, Excel.lead (Excel.validateAndNormalizeLeadRow row (i + 2)) = Some L ->
     nth_error V k = Some L /\ LeadData.email L = rowEmail row /\
     ((forall j L', j < k -> nth_error V j = Some L' -> LeadData.email L' <> rowEmail row) ->
      In (duplicateInDatabase (k + 2) (rowEmail row)) (Excel.rowErrors (Excel.data resp))) /\
     (forall j L', j < k -> nth_error V j = Some L' -> LeadData.email L' = rowEmail row ->
        In (duplicateWithinFile (k + 2) (rowEmail row)) (Excel.rowErrors (Excel.data resp)) /\
        exists j0 L0, j0 <= j /\ nth_error V j0 = Some L0 /\
          LeadData.email L0 = rowEmail row /\
          (forall j1 L1, j1 < j0 -> nth_error V j1 = Some L1 ->
                         LeadData.email L1 <> rowEmail row) /\
          In (duplicateInDatabase (j0 + 2) (rowEmail row))
             (Excel.rowErrors (Excel.data resp)))) /\
  (forall d, In d (Excel.leads (Excel.data resp)) -> Lead.email d <> rowEmail row) /\
  Store.docs db' = Store.docs db ++ Excel.leads (Excel.data resp).
Proof.
  intros Hsheet Hrow Hstored resp db' V k. subst resp db' V k.
  pose proof (importFromExcel_cases false req db) as C. rewrite Hsheet in C.
  rewrite C, importSheet_phases. cbn [fst snd Excel.data Excel.rowErrors Excel.leads].
  split; [|split].
  - intros L Hlead.
    assert (Hk : nth_error (validLeadsOf sheet) (validPosition (Excel.jsonData sheet) i)
                 = Some L).
    { unfold validLeadsOf, validPosition.
      apply validateRows_position with (row := row); assumption. }
    assert (HE : LeadData.email L = rowEmail row).
    { apply validate_lead in Hlead. now destruct Hlead as (He & _). }
    split; [exact Hk|]. split; [exact HE|]. split.
    + intros Hfirst. apply in_or_app. right. apply in_or_app. right.
      rewrite <- HE. apply stored_first_reported; [exact Hk | | now rewrite HE].
      intros j L' Hj Hn. rewrite HE. now apply (Hfirst j L').
    + intros j L' Hj Hn He. split.
      * apply in_or_app. right. apply in_or_app. left. rewrite <- HE.
        apply (@later_occurrence_reported (validLeadsOf sheet) j _ L' L Hn Hk Hj).
        congruence.
      * destruct (first_occurrence _ _ Hn) as (j0 & L0 & Hle & Hn0 & He0 & Hfirst0).
        exists j0, L0. split; [exact Hle|]. split; [exact Hn0|].
        split; [congruence|]. split.
        { intros j1 L1 Hj1 Hn1 E1. apply (Hfirst0 j1 L1 Hj1 Hn1). congruence. }
        apply in_or_app. right. apply in_or_app. right.
        replace (rowEmail row) with (LeadData.email L0) by congruence.
        apply stored_first_reported; [exact Hn0 | exact Hfirst0|].
        replace (LeadData.email L0) with (rowEmail row) by congruence. exact Hstored.
  - intros d Hd Heq. unfold loopOf in Hd.
    apply run_created in Hd. destruct Hd as (L' & HL' & Hfresh & Hd).
    rewrite (@normalized_fixed L' (@proceeding_normalized sheet L' HL')) in Hd.
    rewrite mem_find_emails_in in Hfresh. apply andb_false_iff in Hfresh.
    destruct Hfresh as [Hf|Hf]; apply mem_false_In in Hf; apply Hf.
    + now apply in_map.
    + rewrite <- Hd, Heq. exact Hstored.
  - apply run_docs.
Qed.

Lemma C8_stored_email_row_witness :
  let out := Excel.importFromExcel false (Sample.request StoredRows.annTwice)
               Inputs.storeWithAnn in
  In (duplicateInDatabase 2 "ann@x.com") (Excel.rowErrors (Excel.data (fst out))) /\
  In (duplicateWithinFile 3 "ann@x.com") (Excel.rowErrors (Excel.data (fst out))) /\
  (forall d, In d (Excel.leads (Excel.data (fst out))) -> Lead.email d <> "ann@x.com") /\
  Store.docs (snd out) = [Inputs.annStored] ++ Excel.leads (Excel.data (fst out)).
Proof.
  intro out. subst out.
  destruct (@C8_stored_email_row
              (Sample.request StoredRows.annTwice) (Sample.header :: StoredRows.annTwice)
              Inputs.storeWithAnn 0
              (Excel.toRow [Sample.c "Ann"; Sample.c "ann@x.com"; Sample.c "555-0001"])
              eq_refl eq_refl (or_introl eq_refl))
    as (Hfirst & Hnone & Hdocs).
  destruct (@C8_stored_email_row
              (Sample.request StoredRows.annTwice) (Sample.header :: StoredRows.annTwice)
              Inputs.storeWithAnn 1
              (Excel.toRow [Sample.c "Ann B."; Sample.c " ANN@X.COM "; Sample.c "555-0009"])
              eq_refl eq_refl (or_introl eq_refl))
    as (Hlater & _ & _).
  split; [|split; [|split; [exact Hnone | exact Hdocs]]].
  - destruct (Hfirst (LeadData.mk "Ann" "ann@x.com" "555-0001" "" "" "Import" "Medium" "New")
                     eq_refl) as (_ & _ & Hdb & _).
    apply Hdb. intros j L' Hj. vm_compute in Hj. lia.
  - destruct (Hlater (LeadData.mk "Ann B." "ann@x.com" "555-0009" "" "" "Import" "Medium"
                                  "New") eq_refl) as (_ & _ & _ & Hfile).
    apply (Hfile 0 (LeadData.mk "Ann" "ann@x.com" "555-0001" "" "" "Import" "Medium" "New"));
      [vm_compute; lia | reflexivity | reflexivity].
Defined.

(* ================================================================== *)
(** ** The duplicate query and the unique indexes *)
(* ================================================================== *)

Section Duplicates.

Lemma filter_nil {A} (p : A -> bool) (l : list A) :
  filter p l = [] <-> forall x, In x l -> p x = false.
Proof.
  induction l as [|y r IH]; simpl; [tauto|].
  destruct (p y) eqn:E; split.
  - discriminate.
  - intros H. specialize (H y (or_introl eq_refl)). congruence.
  - intros H x [<-|Hx]; [exact E | now apply IH].
  - intros H. apply IH. auto.
Qed.

Lemma mem_map_false (f : Lead.t -> string) (x : string) (l : list Lead.t) :
  Js.mem x (map f l) = false <-> forall o, In o l -> String.eqb (f o) x = false.
Proof.
  rewrite mem_false_In. split.
  - intros H o Ho. apply String.eqb_neq. intros E. apply H. rewrite <- E. now apply in_map.
  - intros H Hin. apply in_map_iff in Hin. destruct Hin as (o & Eo & Ho).
    specialize (H o Ho). rewrite Eo, String.eqb_refl in H. discriminate.
Qed.

Lemma findDuplicates_nil (email phone : string) (excludeId : option nat) (db : Store.t) :
  Statics.findDuplicates email phone excludeId db = [] <->
  Js.mem (Store.set_email email)
         (map Lead.email (match excludeId with
                          | Some id => Store.others id (Store.docs db)
                          | None => Store.docs db
                          end)) = false /\
  Js.mem (Store.set_trim phone)
         (map Lead.phone (match excludeId with
                          | Some id => Store.others id (Store.docs db)
                          | None => Store.docs db
                          end)) = false.
Proof.
  unfold Statics.findDuplicates, Store.set_email, Store.set_trim.
  rewrite filter_nil, !mem_map_false. destruct excludeId as [id|].
  - unfold Store.others. split.
    + intros H. split; intros o Ho; apply filter_In in Ho; destruct Ho as [Ho Hid];
        specialize (H o Ho); rewrite Hid, andb_true_r in H;
        apply orb_false_iff in H; tauto.
    + intros [He Hp] o Ho. destruct (negb (Lead._id o =? id)) eqn:Hid;
        [|apply andb_false_r].
      rewrite andb_true_r. apply orb_false_iff.
      split; [apply He | apply Hp]; apply filter_In; now split.
  - split.
    + intros H. split; intros o Ho; specialize (H o Ho); rewrite andb_true_r in H;
        apply orb_false_iff in H; tauto.
    + intros [He Hp] o Ho. rewrite andb_true_r. apply orb_false_iff. auto.
Qed.

End Duplicates.

(** X9.  The duplicate query answers for the unique indexes: it finds no
    lead exactly when the indexes on e-mail and phone would accept a
    document that carries the given values as the schema stores them
    (e-mail in lower case, both trimmed), the excluded lead left aside. *)
Theorem X9_findDuplicates_matches_indexes (email phone : string) (excludeId : option nat)
        (db : Store.t) (d : Lead.t) :
  Lead.email d = Store.set_email email ->
  Lead.phone d = Store.set_trim phone ->
  (Statics.findDuplicates email phone excludeId db = [] <->
   Store.unique_violation d
     (match excludeId with
      | Some id => Store.others id (Store.docs db)
      | None => Store.docs db
      end) = None).
Proof.
  intros He Hp. rewrite findDuplicates_nil, unique_violation_none, He, Hp. reflexivity.
Qed.

Lemma X9_findDuplicates_matches_indexes_witness :
  Statics.findDuplicates " Ann@X.com" "555-0100" None Stored.two <> [] /\
  Store.unique_violation
    (Store.construct 2 (Store.mkInput (Some "Ann Again") (Some " Ann@X.com")
                          (Some "555-0100") None None None None None None))
    (Store.docs Stored.two) <> None.
Proof.
  pose proof (@X9_findDuplicates_matches_indexes " Ann@X.com" "555-0100" None Stored.two
                (Store.construct 2 (Store.mkInput (Some "Ann Again") (Some " Ann@X.com")
                   (Some "555-0100") None None None None None None))
                eq_refl eq_refl) as H.
  split; [vm_compute; discriminate|].
  intros U. apply H in U. vm_compute in U. discriminate U.
Defined.

(** X10.  The controller's own look-ups and the duplicate query agree: a
    request that names the three required fields is answered with the
    duplicate rejection exactly when the query finds a lead for its
    e-mail or phone. *)
Theorem X10_createLead_rejects_what_the_query_finds
        (objectId : string -> string + string)
        (user : option Controller.User) (leadData : Controller.CreateLeadInput)
        (db : Store.t) :
  Controller.missingFields leadData = [] ->
  (duplicateRejection (fst (Controller.createLead objectId user leadData db)) <->
   Statics.findDuplicates (Controller.str (Controller.c_email leadData))
                          (Controller.str (Controller.c_phone leadData)) None db <> []).
Proof.
  intros Hmiss. split.
  - intros Hrej Hnil. apply findDuplicates_nil in Hnil. destruct Hnil as [He Hp].
    unfold Store.set_email, Store.set_trim in He, Hp.
    revert Hrej. unfold Controller.createLead, Store.findOne. rewrite Hmiss.
    destruct (find (fun d => String.eqb (Lead.email d) _) (Store.docs db)) as [o|] eqn:Fe.
    { apply find_some in Fe. destruct Fe as [Ho Eo].
      rewrite (proj1 (mem_map_false Lead.email _ _) He o Ho) in Eo. discriminate. }
    destruct (find (fun d => String.eqb (Lead.phone d) _) (Store.docs db)) as [o|] eqn:Fp.
    { apply find_some in Fp. destruct Fp as [Ho Eo].
      rewrite (proj1 (mem_map_false Lead.phone _ _) Hp o Ho) in Eo. discriminate. }
    destruct (Controller.withInitialNote _ _ _ _ _) as [thrown|lead1] eqn:N;
      [cbn; intros (Hcode & _); discriminate Hcode|].
    apply withInitialNote_fields in N. destruct N as (_ & Ne & Np & _).
    destruct (Store.save_new false lead1 db) as [e|[saved db']] eqn:S.
    + unfold Store.save_new in S.
      destruct (Store.validate _) eqn:V.
      * destruct (Store.unique_violation _ _) eqn:U; [|discriminate].
        exfalso.
        match type of U with
        | ?x = Some _ => assert (U' : x = None); [|congruence]
        end.
        apply unique_violation_none. rewrite preSave_email, preSave_phone, Ne, Np.
        unfold Store.construct, Store.set_email, Store.set_trim.
        cbn [Lead.email Lead.phone Store.in_email Store.in_phone].
        destruct (Controller.c_email leadData), (Controller.c_phone leadData);
          simpl in *; auto.
      * inversion S. subst e. cbn. intros (Hcode & _). discriminate Hcode.
    + cbn. intros (Hcode & _). discriminate Hcode.
  - intros Hdup.
    assert (Hc : Js.mem (Js.trim (Js.toLowerCase (Controller.str (Controller.c_email leadData))))
                        (map Lead.email (Store.docs db)) = true \/
                 Js.mem (Js.trim (Controller.str (Controller.c_phone leadData)))
                        (map Lead.phone (Store.docs db)) = true).
    { destruct (Js.mem (Js.trim (Js.toLowerCase (Controller.str (Controller.c_email leadData))))
                       (map Lead.email (Store.docs db))) eqn:Me; [now left|].
      destruct (Js.mem (Js.trim (Controller.str (Controller.c_phone leadData)))
                       (map Lead.phone (Store.docs db))) eqn:Mp; [now right|].
      exfalso. apply Hdup. apply findDuplicates_nil. now split. }
    unfold Controller.createLead, Store.findOne. rewrite Hmiss.
    destruct (find (fun d => String.eqb (Lead.email d) _) (Store.docs db)) eqn:Fe;
      [now repeat split|].
    destruct Hc as [Hc | Hc].
    + apply find_field in Hc. destruct Hc as [o Ho]. congruence.
    + apply find_field in Hc. destruct Hc as [o Ho]. rewrite Ho. now repeat split.
Qed.

Lemma X10_createLead_rejects_what_the_query_finds_witness :
  duplicateRejection (fst (Controller.createLead (fun s => inr s) (Some Stored.admin)
                             Stored.annByHand Stored.two)) /\
  Statics.findDuplicates " Ann@X.com" "555-0100" None Stored.two <> [].
Proof.
  pose proof (@X10_createLead_rejects_what_the_query_finds (fun s => inr s)
                (Some Stored.admin) Stored.annByHand Stored.two eq_refl) as H.
  assert (R : duplicateRejection
                (fst (Controller.createLead (fun s => inr s) (Some Stored.admin)
                        Stored.annByHand Stored.two)))
    by (vm_compute; repeat split).
  split; [exact R | exact (proj1 H R)].
Defined.

(* ================================================================== *)
(** ** Reading, deleting and the access check *)
(* ================================================================== *)

Section Access.

Lemma denied_spec (user : option Controller.User) (lead : Lead.t) :
  Endpoints.denied user lead = false <-> mayAccess user lead.
Proof.
  unfold Endpoints.denied, mayAccess. destruct (Endpoints.isAdmin user); simpl.
  - split; auto.
  - rewrite negb_false_iff, String.eqb_eq.
    split; [auto | intros [H|H]; [discriminate | exact H]].
Qed.

Lemma denied_true (user : option Controller.User) (lead : Lead.t) :
  ~ mayAccess user lead -> Endpoints.denied user lead = true.
Proof.
  intros H. destruct (Endpoints.denied user lead) eqn:E; [reflexivity|].
  apply denied_spec in E. contradiction.
Qed.

Lemma findById_In (id : nat) (db : Store.t) (lead : Lead.t) :
  Store.findById id db = Some lead -> In lead (Store.docs db) /\ Lead._id lead = id.
Proof.
  unfold Store.findById, Store.findOne. intros H. apply find_some in H.
  destruct H as [Hin Hid]. split; [exact Hin | now apply Nat.eqb_eq].
Qed.

Lemma findById_none (id : nat) (db : Store.t) :
  Store.findById id db = None <-> forall d, In d (Store.docs db) -> Lead._id d <> id.
Proof.
  unfold Store.findById, Store.findOne. split.
  - intros H d Hd E. pose proof (find_none _ _ H d Hd) as N. simpl in N.
    apply Nat.eqb_neq in N. contradiction.
  - intros H. destruct (find _ (Store.docs db)) as [l|] eqn:F; [|reflexivity].
    apply find_some in F. destruct F as [Hin Hid]. apply Nat.eqb_eq in Hid.
    exfalso. exact (H l Hin Hid).
Qed.

Lemma remove_first_others (id : nat) (l : list Lead.t) :
  NoDup (map Lead._id l) -> Endpoints.remove_first id l = Store.others id l.
Proof.
  induction l as [|o r IH]; intros Hnd; [reflexivity|].
  cbn [map] in Hnd. inversion Hnd as [|? ? Ho Hr]. subst.
  cbn [Endpoints.remove_first]. unfold Store.others. cbn [filter].
  destruct (Lead._id o =? id) eqn:E; cbn [negb].
  - apply Nat.eqb_eq in E. subst id. symmetry. apply (others_all _ _ Ho).
  - f_equal. apply IH. exact Hr.
Qed.

Lemma distinct_after_filter (B : Type) (key : Lead.t -> B) (keep : Lead.t -> bool) :
  forall docs : list Lead.t,
    NoDup (map key docs) -> NoDup (map key (filter keep docs)).
Proof.
  induction docs as [|d rest IH]; cbn [map filter]; intros Hnd; [constructor|].
  inversion Hnd as [|? ? Hd Hrest]; subst.
  destruct (keep d); [|exact (IH Hrest)].
  cbn [map]. constructor; [|exact (IH Hrest)].
  intros Hin. apply Hd. apply in_map_iff in Hin. destruct Hin as (o & Eo & Ho).
  apply filter_In in Ho. rewrite <- Eo. apply in_map. exact (proj1 Ho).
Qed.

Lemma invariant_filter (p : Lead.t -> bool) (db : Store.t) :
  invariant db -> invariant (Store.mk (filter p (Store.docs db)) (Store.nextId db)).
Proof.
  intros (He & Hp & Hn & Hlt).
  unfold invariant, uniqueEmails, uniquePhones, distinctIds. cbn [Store.docs Store.nextId].
  repeat split; try (now apply distinct_after_filter).
  rewrite Forall_forall in *. intros x Hx. apply filter_In in Hx. now apply Hlt.
Qed.

Lemma find_app_fresh (id : nat) (l : list Lead.t) (d : Lead.t) :
  (forall o, In o l -> Lead._id o <> id) -> Lead._id d = id ->
  find (fun o => Lead._id o =? id) (l ++ [d]) = Some d /\
  Endpoints.remove_first id (l ++ [d]) = l.
Proof.
  intros Hl Hd. induction l as [|o r IH]; cbn [app find Endpoints.remove_first].
  - rewrite Hd, Nat.eqb_refl. split; reflexivity.
  - assert (E : (Lead._id o =? id) = false)
      by (apply Nat.eqb_neq; apply Hl; now left).
    rewrite E. destruct IH as [IH1 IH2]; [intros x Hx; apply Hl; now right|].
    split; [exact IH1 | now rewrite IH2].
Qed.

(** What a successful [createLead] has stored. *)
Lemma createLead_created (objectId : string -> string + string)
      (user : option Controller.User)
      (leadData : Controller.CreateLeadInput) (db : Store.t) :
  Controller.success (fst (Controller.createLead objectId user leadData db)) = true ->
  exists saved,
    fst (Controller.createLead objectId user leadData db) =
      Controller.mkResponse 201 true "Lead created successfully" [] (Some saved) /\
    snd (Controller.createLead objectId user leadData db) =
      Store.mk (Store.docs db ++ [saved]) (S (Store.nextId db)) /\
    Lead._id saved = Store.nextId db /\
    Lead.assignedTo saved = None /\
    Lead.assignedBy saved = option_map Controller.userId user /\
    Store.validate saved = [].
Proof.
  unfold Controller.createLead.
  destruct (Controller.missingFields leadData); [|discriminate].
  destruct (Store.findOne _ db); [discriminate|].
  destruct (Store.findOne _ db); [discriminate|].
  destruct (Controller.withInitialNote _ _ _ _ _) as [thrown|lead1] eqn:N; [discriminate|].
  apply withInitialNote_fields in N. destruct N as (Nid & _ & _ & Nto & Nby).
  destruct (Store.save_new false lead1 db) as [e|[saved db']] eqn:S.
  - cbn [fst]. rewrite caught_fails. discriminate.
  - intros _. exists saved. cbn [fst snd].
    pose proof (save_new_valid _ _ _ S) as [_ Hv].
    apply save_new_accepted in S. destruct S as (Hsaved & Hd & Hnext & _).
    rewrite preSave_unmodified in Hsaved. subst saved.
    repeat split; try assumption.
    destruct db' as [docs' next']. simpl in Hd, Hnext. now rewrite Hd, Hnext.
Qed.

Lemma ids_below (db : Store.t) :
  invariant db -> forall o, In o (Store.docs db) -> Lead._id o <> Store.nextId db.
Proof.
  intros (_ & _ & _ & Hlt) o Ho. rewrite Forall_forall in Hlt. specialize (Hlt o Ho). lia.
Qed.

End Access.

(** X11.  [getLeadById] hands out a lead only if the parameter is an
    identifier, the lead is the stored lead with that identifier and the
    requester is an administrator or its assignee; it answers 404 exactly
    when the parameter is an identifier that no stored lead has; it
    succeeds exactly when the lead exists and the requester may access
    it; and a parameter that is no identifier, on which the look-up
    throws, is answered 500 without a lead. *)
Theorem X11_getLeadById_access (user : option Controller.User) (id : Endpoints.Param)
        (db : Store.t) :
  let resp := Endpoints.getLeadById user id db in
  (forall l, Controller.lead resp = Some l ->
     exists n, id = Endpoints.Id n /\ In l (Store.docs db) /\ Lead._id l = n /\
               mayAccess user l /\ Controller.statusCode resp = 200) /\
  (Controller.statusCode resp = 404 <->
   exists n, id = Endpoints.Id n /\ forall d, In d (Store.docs db) -> Lead._id d <> n) /\
  (Controller.success resp = true <->
   exists n l, id = Endpoints.Id n /\ Store.findById n db = Some l /\ mayAccess user l) /\
  (forall raw, id = Endpoints.NotAnId raw ->
     Controller.statusCode resp = 500 /\ Controller.success resp = false /\
     Controller.message resp = "Failed to retrieve lead" /\ Controller.lead resp = None).
Proof.
  cbv zeta. destruct id as [n|raw]; cbn [Endpoints.getLeadById].
  - destruct (Store.findById n db) as [lead|] eqn:F.
    + destruct (findById_In _ _ F) as [Hin Hid].
      destruct (Endpoints.denied user lead) eqn:D.
      * split; [|split; [|split]].
        -- intros l H. discriminate H.
        -- split; [intros H; discriminate H|].
           intros (m & E & H). inversion E. subst m. exfalso. exact (H lead Hin Hid).
        -- split; [intros H; discriminate H|].
           intros (m & l & E & Hl & Hm). inversion E. subst m.
           rewrite F in Hl. inversion Hl. subst l.
           apply denied_spec in Hm. congruence.
        -- intros raw E. discriminate E.
      * apply denied_spec in D. split; [|split; [|split]].
        -- intros l H. inversion H. subst l. exists n. auto.
        -- split; [intros H; discriminate H|].
           intros (m & E & H). inversion E. subst m. exfalso. exact (H lead Hin Hid).
        -- split; [|reflexivity]. intros _. exists n, lead. auto.
        -- intros raw E. discriminate E.
    + split; [|split; [|split]].
      * intros l H. discriminate H.
      * split; [|reflexivity].
        intros _. exists n. split; [reflexivity | now apply findById_none].
      * split; [intros H; discriminate H|].
        intros (m & l & E & Hl & _). inversion E. subst m. congruence.
      * intros raw E. discriminate E.
  - split; [|split; [|split]].
    + intros l H. discriminate H.
    + split; [intros H; discriminate H|]. intros (m & E & _). discriminate E.
    + split; [intros H; discriminate H|]. intros (m & l & E & _). discriminate E.
    + intros r _. repeat split.
Qed.

(** X12.  A user who is neither administrator nor assignee of a stored
    lead is refused by every endpoint that works on one lead: reading and
    updating answer 403, adding a note fails, no lead is handed out and
    the collection stays as it was. *)
Theorem X12_strangers_are_refused (objectId : string -> string + string)
        (u : Controller.User) (id : nat) (lead : Lead.t)
        (updateData : Controller.UpdateLeadInput) (content : option string)
        (db : Store.t) :
  Store.findById id db = Some lead ->
  ~ mayAccess (Some u) lead ->
  Endpoints.getLeadById (Some u) (Endpoints.Id id) db =
    Endpoints.plain 403 false "Access denied" [] /\
  Controller.updateLead u id updateData db =
    (Controller.mkResponse 403 false "Access denied" [] None, db) /\
  Controller.success (fst (Endpoints.addNote objectId (Some u) (Some id) content db)) = false /\
  Controller.lead (fst (Endpoints.addNote objectId (Some u) (Some id) content db)) = None /\
  snd (Endpoints.addNote objectId (Some u) (Some id) content db) = db.
Proof.
  intros F Hno. pose proof (denied_true Hno) as D. split; [|split].
  - cbn [Endpoints.getLeadById]. rewrite F, D. reflexivity.
  - unfold Controller.updateLead. rewrite F.
    unfold Endpoints.denied, Endpoints.isAdmin in D. simpl in D. rewrite D. reflexivity.
  - unfold Endpoints.addNote. destruct (Js.truthy content); [|now repeat split].
    destruct (String.length _ <? 1); [now repeat split|].
    rewrite F, D. now repeat split.
Qed.

Lemma X12_strangers_are_refused_witness :
  let stranger := Controller.mkUser "user-9" "user" in
  Endpoints.getLeadById (Some stranger) (Endpoints.Id 0) Stored.two =
    Endpoints.plain 403 false "Access denied" [] /\
  snd (Endpoints.addNote (fun s => inr s) (Some stranger) (Some 0) (Some "call back")
         Stored.two) = Stored.two.
Proof.
  intros stranger.
  assert (Hno : ~ mayAccess (Some stranger) Inputs.annStored)
    by (intros [H|H]; vm_compute in H; discriminate H).
  pose proof (@X12_strangers_are_refused (fun s => inr s) stranger 0 Inputs.annStored
                Stored.boLost (Some "call back") Stored.two eq_refl Hno) as H.
  split; apply H.
Defined.

(** X13.  [deleteLead] succeeds exactly for an administrator and a stored
    lead; it then removes that lead and nothing else, so that the
    identifier is no longer found, and a refused request leaves the
    collection as it was. *)
Theorem X13_deleteLead_removes_one (user : option Controller.User) (id : nat)
        (db : Store.t) :
  invariant db ->
  let out := Endpoints.deleteLead user id db in
  (Controller.success (fst out) = true <->
   Endpoints.isAdmin user = true /\ exists l, Store.findById id db = Some l) /\
  (Controller.success (fst out) = false -> snd out = db) /\
  (Controller.success (fst out) = true ->
   Store.docs (snd out) = Store.others id (Store.docs db) /\
   Store.nextId (snd out) = Store.nextId db /\
   Store.findById id (snd out) = None /\
   Controller.statusCode (Endpoints.getLeadById user (Endpoints.Id id) (snd out)) = 404 /\
   forall o, In o (Store.docs db) -> Lead._id o <> id -> In o (Store.docs (snd out))).
Proof.
  intros (_ & _ & Hn & _). cbv zeta. unfold Endpoints.deleteLead.
  destruct (Endpoints.isAdmin user); cbn [negb].
  - destruct (Store.findById id db) as [lead|] eqn:F; cbn [fst snd].
    + split; [|split].
      * split; [intros _; eauto | reflexivity].
      * intros H. discriminate H.
      * intros _. cbn [Store.docs Store.nextId]. rewrite (@remove_first_others id _ Hn).
        assert (Hgone : Store.findById id
                          (Store.mk (Store.others id (Store.docs db)) (Store.nextId db))
                        = None).
        { apply findById_none. cbn [Store.docs]. intros d Hd. unfold Store.others in Hd.
          apply filter_In in Hd. destruct Hd as [_ Hd].
          apply negb_true_iff in Hd. now apply Nat.eqb_neq. }
        repeat split; try assumption.
        -- cbn [Endpoints.getLeadById]. rewrite Hgone. reflexivity.
        -- intros o Ho Hne. unfold Store.others. apply filter_In. split; [exact Ho|].
           apply negb_true_iff. now apply Nat.eqb_neq.
    + split; [|split].
      * split; [intros H; discriminate H|]. intros (_ & l & Hl). discriminate Hl.
      * reflexivity.
      * intros H. discriminate H.
  - cbn [fst snd]. split; [|split].
    + split; [intros H; discriminate H|]. intros (H & _). discriminate H.
    + reflexivity.
    + intros H. discriminate H.
Qed.

Lemma X13_deleteLead_removes_one_witness :
  Store.docs (snd (Endpoints.deleteLead (Some Stored.admin) 0 Stored.two)) = [Stored.bo] /\
  Store.findById 0 (snd (Endpoints.deleteLead (Some Stored.admin) 0 Stored.two)) = None.
Proof.
  assert (Hinv : invariant Stored.two).
  { unfold invariant, uniqueEmails, uniquePhones, distinctIds. simpl.
    repeat split;
      repeat (constructor; [simpl; intuition (discriminate || lia)|]);
      try constructor; try lia. }
  pose proof (@X13_deleteLead_removes_one (Some Stored.admin) 0 Stored.two Hinv) as H.
  cbv zeta in H. destruct H as (_ & _ & H). specialize (H eq_refl).
  destruct H as (Hd & _ & Hf & _). split; [rewrite Hd; reflexivity | exact Hf].
Defined.

(** X14.  Creating a lead and deleting it again gives back the collection
    as it was: the lead [createLead] stores carries a fresh identifier, and
    [deleteLead] for that identifier removes exactly this lead. *)
Theorem X14_create_then_delete (objectId : string -> string + string)
        (admin user : option Controller.User)
        (leadData : Controller.CreateLeadInput) (db : Store.t) :
  invariant db ->
  Endpoints.isAdmin admin = true ->
  Controller.success (fst (Controller.createLead objectId user leadData db)) = true ->
  exists saved,
    Controller.lead (fst (Controller.createLead objectId user leadData db)) = Some saved /\
    In saved (Store.docs (snd (Controller.createLead objectId user leadData db))) /\
    let out := Endpoints.deleteLead admin (Lead._id saved)
                 (snd (Controller.createLead objectId user leadData db)) in
    Controller.success (fst out) = true /\ Store.docs (snd out) = Store.docs db.
Proof.
  intros Hinv Hadmin Hok.
  destruct (createLead_created objectId user leadData db Hok)
    as (saved & Hr & Hs & Hid & _).
  exists saved. rewrite Hr, Hs. cbn [fst Controller.lead Store.docs].
  split; [reflexivity|]. split; [apply in_or_app; right; now left|].
  cbv zeta. unfold Endpoints.deleteLead, Store.findById, Store.findOne.
  rewrite Hadmin. cbn [negb Store.docs Store.nextId].
  destruct (@find_app_fresh (Lead._id saved) (Store.docs db) saved) as [Hf Hrm];
    [rewrite Hid; now apply ids_below | reflexivity|].
  rewrite Hf. cbn [fst snd Store.docs]. split; [reflexivity | exact Hrm].
Qed.

Lemma X14_create_then_delete_witness :
  let created :=
    Controller.createLead (fun s => inr s) (Some Stored.admin)
      (Controller.mkCreate (Some "Cy") (Some "cy@x.com") (Some "555-0003") None None None
                           None None) Stored.two in
  Controller.success (fst created) = true /\
  exists saved,
    Controller.lead (fst created) = Some saved /\
    Store.docs (snd (Endpoints.deleteLead (Some Stored.admin) (Lead._id saved)
                       (snd created))) = Store.docs Stored.two.
Proof.
  intros created.
  assert (Hinv : invariant Stored.two).
  { unfold invariant, uniqueEmails, uniquePhones, distinctIds. simpl.
    repeat split;
      repeat (constructor; [simpl; intuition (discriminate || lia)|]);
      try constructor; try lia. }
  split; [reflexivity|].
  destruct (@X14_create_then_delete (fun s => inr s) (Some Stored.admin)
              (Some Stored.admin)
              (Controller.mkCreate (Some "Cy") (Some "cy@x.com") (Some "555-0003") None
                                   None None None None)
              Stored.two Hinv eq_refl eq_refl) as (saved & Hl & _ & _ & Hd).
  exists saved. split; [exact Hl | exact Hd].
Defined.

(** X15.  [createLead] stores no assignee, so only an administrator can
    read the new lead back: for the creating user [getLeadById] answers
    with the lead if the user is an administrator, and with 403 otherwise
    (unless the user's identifier is the text undefined). *)
Theorem X15_creator_reads_back_only_as_admin (objectId : string -> string + string)
        (u : Controller.User)
        (leadData : Controller.CreateLeadInput) (db : Store.t) :
  invariant db ->
  Controller.success (fst (Controller.createLead objectId (Some u) leadData db)) = true ->
  exists saved,
    Controller.lead (fst (Controller.createLead objectId (Some u) leadData db))
      = Some saved /\
    Lead.assignedTo saved = None /\
    Lead.assignedBy saved = Some (Controller.userId u) /\
    let back := Endpoints.getLeadById (Some u) (Endpoints.Id (Lead._id saved))
                  (snd (Controller.createLead objectId (Some u) leadData db)) in
    (Controller.role u = "admin" ->
     back = Controller.mkResponse 200 true "Lead retrieved successfully" [] (Some saved)) /\
    (Controller.role u <> "admin" -> Controller.userId u <> "undefined" ->
     back = Endpoints.plain 403 false "Access denied" []).
Proof.
  intros Hinv Hok.
  destruct (createLead_created objectId (Some u) leadData db Hok)
    as (saved & Hr & Hs & Hid & Hto & Hby & _).
  exists saved. rewrite Hr, Hs. cbn [fst Controller.lead].
  split; [reflexivity|]. split; [exact Hto|]. split; [exact Hby|].
  cbv zeta. cbn [Endpoints.getLeadById]. unfold Store.findById, Store.findOne.
  cbn [Store.docs].
  destruct (@find_app_fresh (Lead._id saved) (Store.docs db) saved) as [Hf _];
    [rewrite Hid; now apply ids_below | reflexivity|].
  rewrite Hf. unfold Endpoints.denied, Endpoints.isAdmin. rewrite Hto.
  cbn [Controller.String_of option_map].
  split.
  - intros ->. reflexivity.
  - intros Hrole Hid'. apply String.eqb_neq in Hrole. rewrite Hrole.
    assert (E : String.eqb "undefined" (Controller.userId u) = false).
    { apply String.eqb_neq. congruence. }
    rewrite E. reflexivity.
Qed.

Lemma X15_creator_reads_back_only_as_admin_witness :
  let agent := Controller.mkUser "user-7" "user" in
  let created :=
    Controller.createLead (fun s => inr s) (Some agent)
      (Controller.mkCreate (Some "Cy") (Some "cy@x.com") (Some "555-0003") None None None
                           None None) Stored.two in
  Controller.success (fst created) = true /\
  exists saved,
    Controller.lead (fst created) = Some saved /\
    Endpoints.getLeadById (Some agent) (Endpoints.Id (Lead._id saved)) (snd created) =
      Endpoints.plain 403 false "Access denied" [].
Proof.
  intros agent created.
  assert (Hinv : invariant Stored.two).
  { unfold invariant, uniqueEmails, uniquePhones, distinctIds. simpl.
    repeat split;
      repeat (constructor; [simpl; intuition (discriminate || lia)|]);
      try constructor; try lia. }
  split; [reflexivity|].
  destruct (@X15_creator_reads_back_only_as_admin (fun s => inr s) agent
              (Controller.mkCreate (Some "Cy") (Some "cy@x.com") (Some "555-0003") None
                                   None None None None)
              Stored.two Hinv eq_refl) as (saved & Hl & _ & _ & _ & Hno).
  exists saved. split; [exact Hl|]. apply Hno; discriminate.
Defined.

(* ================================================================== *)
(** ** Assigning leads and adding notes *)
(* ================================================================== *)

Section Assigning.

Variable users : list string.
Variable user : option Controller.User.

Lemma assignLeads_cases (leadIds : option (list nat)) (assignToUserId : option string)
      (db : Store.t) :
  (Endpoints.l_success (fst (Endpoints.assignLeads users user leadIds assignToUserId db))
     = false /\
   Endpoints.l_data (fst (Endpoints.assignLeads users user leadIds assignToUserId db)) = [] /\
   snd (Endpoints.assignLeads users user leadIds assignToUserId db) = db)
  \/
  (exists ids a,
     leadIds = Some ids /\ ids <> [] /\ assignToUserId = Some a /\ a <> "" /\
     In a users /\ Endpoints.isAdmin user = true /\
     Endpoints.assignLeads users user leadIds assignToUserId db =
       (Endpoints.mkList 200 true
          (Js.of_nat (List.length (filter (Endpoints.targeted ids) (Store.docs db)))
           +++ " leads assigned successfully") []
          (filter (Endpoints.targeted ids)
                  (Endpoints.updateMany ids a (option_map Controller.userId user)
                                        (Store.docs db))),
        Store.mk (Endpoints.updateMany ids a (option_map Controller.userId user)
                                       (Store.docs db))
                 (Store.nextId db))).
Proof.
  unfold Endpoints.assignLeads.
  destruct (Endpoints.isAdmin user); cbn [negb]; [|now left].
  destruct leadIds as [[|i ids]|]; [now left| |now left].
  destruct assignToUserId as [a|]; cbn [Js.truthy negb]; [|now left].
  destruct (Js.is_empty a) eqn:Ea; cbn [negb]; [now left|].
  cbn [Controller.str].
  destruct (Js.mem a users) eqn:Ma; cbn [negb]; [|now left].
  right. exists (i :: ids), a. repeat split; try discriminate.
  - intros ->. discriminate Ea.
  - now apply mem_In.
Qed.

Lemma targeted_spec (ids : list nat) (d : Lead.t) :
  Endpoints.targeted ids d = true <-> In (Lead._id d) ids.
Proof.
  unfold Endpoints.targeted. rewrite existsb_exists. split.
  - intros (x & Hx & E). apply Nat.eqb_eq in E. now subst.
  - intros H. exists (Lead._id d). split; [exact H | apply Nat.eqb_refl].
Qed.

Lemma assignTo_same (a : string) (by_ : option string) (d : Lead.t) :
  sameButAssignment d (Endpoints.assignTo a by_ d).
Proof. unfold sameButAssignment. simpl. repeat split. Qed.

Lemma updateMany_field {B} (f : Lead.t -> B) (ids : list nat) (a : string)
      (by_ : option string) (l : list Lead.t) :
  (forall d, f (Endpoints.assignTo a by_ d) = f d) ->
  map f (Endpoints.updateMany ids a by_ l) = map f l.
Proof.
  intros Hf. unfold Endpoints.updateMany. rewrite map_map. apply map_ext.
  intros d. destruct (Endpoints.targeted ids d); [apply Hf | reflexivity].
Qed.

Lemma updateMany_invariant (ids : list nat) (a : string) (by_ : option string)
      (db : Store.t) :
  invariant db ->
  invariant (Store.mk (Endpoints.updateMany ids a by_ (Store.docs db)) (Store.nextId db)).
Proof.
  intros (He & Hp & Hn & Hlt).
  unfold invariant, uniqueEmails, uniquePhones, distinctIds. cbn [Store.docs Store.nextId].
  rewrite !updateMany_field by reflexivity. repeat split; try assumption.
  unfold Endpoints.updateMany. apply Forall_map.
  eapply Forall_impl; [|exact Hlt]. intros d Hd.
  destruct (Endpoints.targeted ids d); exact Hd.
Qed.

Lemma validate_assignTo (a : string) (by_ : option string) (d : Lead.t) :
  Store.validate (Endpoints.assignTo a by_ d) = Store.validate d.
Proof. reflexivity. Qed.

Lemma updateMany_nth (ids : list nat) (a : string) (by_ : option string)
      (l : list Lead.t) (k : nat) :
  nth_error (Endpoints.updateMany ids a by_ l) k =
  option_map (fun d => if Endpoints.targeted ids d then Endpoints.assignTo a by_ d else d)
             (nth_error l k).
Proof. unfold Endpoints.updateMany. apply nth_error_map. Qed.


End Assigning.

(** X16.  A successful [assignLeads] is the work of an administrator who
    names at least one lead (the list of identifiers is not empty) and an
    existing user (whose identifier is not empty).  It keeps the number
    and order of the stored leads and every field but the assignment;
    the leads named in the request get the new assignee and the
    administrator as assigner, all others stay as they were; and the
    answer lists exactly the stored leads that were named. *)
Theorem X16_assignLeads_effects (users : list string) (user : option Controller.User)
        (leadIds : option (list nat)) (assignToUserId : option string) (db : Store.t) :
  let out := Endpoints.assignLeads users user leadIds assignToUserId db in
  Endpoints.l_success (fst out) = true ->
  exists ids a,
    leadIds = Some ids /\ ids <> [] /\ assignToUserId = Some a /\ a <> "" /\
    In a users /\ Endpoints.isAdmin user = true /\
    List.length (Store.docs (snd out)) = List.length (Store.docs db) /\
    Store.nextId (snd out) = Store.nextId db /\
    (forall k old, nth_error (Store.docs db) k = Some old ->
       exists new, nth_error (Store.docs (snd out)) k = Some new /\
         sameButAssignment old new /\
         (In (Lead._id old) ids ->
          Lead.assignedTo new = Some a /\
          Lead.assignedBy new = option_map Controller.userId user) /\
         (~ In (Lead._id old) ids -> new = old)) /\
    (forall l, In l (Endpoints.l_data (fst out)) <->
               In l (Store.docs (snd out)) /\ In (Lead._id l) ids).
Proof.
  cbv zeta.
  destruct (assignLeads_cases users user leadIds assignToUserId db)
    as [(Hf & _)|(ids & a & Hids & Hne & Ha & Hnz & Hu & Hadm & ->)].
  - rewrite Hf. discriminate.
  - intros _. exists ids, a. cbn [fst snd Store.docs Store.nextId Endpoints.l_data].
    repeat match goal with |- _ /\ _ => split end; try assumption; try reflexivity.
    + unfold Endpoints.updateMany. apply length_map.
    + intros k old Hk. rewrite updateMany_nth, Hk. cbn [option_map].
      destruct (Endpoints.targeted ids old) eqn:T.
      * exists (Endpoints.assignTo a (option_map Controller.userId user) old).
        split; [reflexivity|]. split; [apply assignTo_same|]. split.
        -- intros _. split; reflexivity.
        -- intros Hn. apply targeted_spec in T. contradiction.
      * exists old. split; [reflexivity|]. split; [unfold sameButAssignment; tauto|].
        split; [|reflexivity].
        intros Hin. apply targeted_spec in Hin. congruence.
    + intros l. rewrite filter_In, targeted_spec. reflexivity.
Qed.

Lemma X16_assignLeads_effects_witness :
  let out := Endpoints.assignLeads ["user-7"; "user-9"] (Some Stored.admin) (Some [1])
               (Some "user-9") Stored.two in
  Endpoints.l_success (fst out) = true /\
  List.length (Store.docs (snd out)) = 2.
Proof.
  intros out.
  destruct (@X16_assignLeads_effects ["user-7"; "user-9"] (Some Stored.admin) (Some [1])
              (Some "user-9") Stored.two eq_refl)
    as (ids & a & _ & _ & _ & _ & _ & _ & Hlen & _).
  split; [reflexivity | exact Hlen].
Defined.



Section Notes.

Variable objectId : string -> string + string.

Lemma statics_addNote_accepted (content createdBy : string) (d : Lead.t) (s : Store.t)
      (saved : Lead.t) (s' : Store.t) :
  Statics.addNote content createdBy d s = inr (saved, s') ->
  saved = Controller.push_note (Lead.mkNote (Js.of_nat (Store.nextId s)) content createdBy) d
  /\ Store.validate saved = [] /\
  s' = Store.mk (Store.replace saved (Store.docs s)) (S (Store.nextId s)) /\
  Store.save_existing false
    (Controller.push_note (Lead.mkNote (Js.of_nat (Store.nextId s)) content createdBy) d) s
  = inr (saved, Store.mk (Store.replace saved (Store.docs s)) (Store.nextId s)).
Proof.
  unfold Statics.addNote.
  destruct (Store.save_existing false _ s) as [e|[sv s1]] eqn:S; [discriminate|].
  intros H. inversion H. subst sv s'. clear H.
  destruct (save_existing_accepted _ _ _ S) as (Hs & Hv & Hs1).
  rewrite preSave_unmodified in Hs. subst s1.
  repeat split; try assumption; try (now rewrite <- Hs).
Qed.

Lemma addNote_cases (user : option Controller.User) (leadId : option nat)
      (content : option string) (db : Store.t) :
  (Controller.success (fst (Endpoints.addNote objectId user leadId content db)) = false /\
   Controller.lead (fst (Endpoints.addNote objectId user leadId content db)) = None /\
   snd (Endpoints.addNote objectId user leadId content db) = db)
  \/
  (exists id text lead u createdBy saved db',
     leadId = Some id /\ content = Some text /\ Js.trim text <> "" /\
     Store.findById id db = Some lead /\ mayAccess user lead /\
     user = Some u /\ objectId (Controller.userId u) = inr createdBy /\
     Statics.addNote (Js.trim text) createdBy lead db = inr (saved, db') /\
     Endpoints.addNote objectId user leadId content db =
       (Controller.mkResponse 200 true "Note added successfully" [] (Some saved), db')).
Proof.
  unfold Endpoints.addNote.
  destruct leadId as [id|]; [|now left].
  destruct content as [text|]; cbn [Js.truthy]; [|now left].
  destruct (Js.is_empty text); cbn [negb]; [now left|].
  cbn [Controller.str].
  destruct (String.length (Js.trim text) <? 1) eqn:Hlen; [now left|].
  destruct (Store.findById id db) as [lead|] eqn:F; [|now left].
  destruct (Endpoints.denied user lead) eqn:D; [now left|].
  destruct user as [u|]; cbn [option_map]; [|now left].
  destruct (Js.is_empty (Controller.userId u)); [now left|].
  destruct (objectId (Controller.userId u)) as [thrown|createdBy] eqn:O; [now left|].
  destruct (Statics.addNote (Js.trim text) createdBy lead db) as [e|[saved db']] eqn:S;
    [now left|].
  right. exists id, text, lead, u, createdBy, saved, db'.
  repeat split; try reflexivity; try assumption.
  - intros E. rewrite E in Hlen. discriminate.
  - now apply denied_spec.
Qed.

End Notes.

(** X18.  A successful [addNote] appends one note to the lead it was
    asked for: the note carries the trimmed, non-empty content and the
    requesting user, the lead's other fields and earlier notes are kept,
    every other stored lead stays as it was, and the requester is an
    administrator or the assignee of the lead. *)
Theorem X18_addNote_appends (objectId : string -> string + string)
        (user : option Controller.User) (leadId : option nat) (content : option string)
        (db : Store.t) :
  let out := Endpoints.addNote objectId user leadId content db in
  Controller.success (fst out) = true ->
  exists id text lead saved note,
    leadId = Some id /\ content = Some text /\
    Store.findById id db = Some lead /\ mayAccess user lead /\
    Controller.lead (fst out) = Some saved /\
    sameButNotes lead saved /\
    Lead.notes saved = Lead.notes lead ++ [note] /\
    Lead.content note = Js.trim text /\ Lead.content note <> "" /\
    objectId (Controller.str (option_map Controller.userId user))
      = inr (Lead.createdBy note) /\
    Store.docs (snd out) = Store.replace saved (Store.docs db) /\
    List.length (Store.docs (snd out)) = List.length (Store.docs db) /\
    (forall o, In o (Store.docs db) -> Lead._id o <> id -> In o (Store.docs (snd out))).
Proof.
  cbv zeta.
  destruct (addNote_cases objectId user leadId content db)
    as [(Hf & _)|(id & text & lead & u & createdBy & saved & db' & Hid & Hc & Ht & F & Hm
                  & Hu & Ho & Hs & ->)].
  - rewrite Hf. discriminate.
  - intros _. destruct (statics_addNote_accepted _ _ _ _ Hs) as (Hsaved & _ & Hdb' & _).
    exists id, text, lead, saved,
      (Lead.mkNote (Js.of_nat (Store.nextId db)) (Js.trim text) createdBy).
    subst db'. cbn [fst snd Controller.lead Store.docs].
    destruct (findById_In _ _ F) as [_ Hlid].
    repeat match goal with |- _ /\ _ => split end; try assumption; try reflexivity.
    + rewrite Hsaved. unfold sameButNotes. simpl. repeat split.
    + rewrite Hsaved. unfold Controller.push_note, Store.cast_note, Store.set_trim.
      cbn [Lead.notes Lead.content Lead.note_id Lead.createdBy].
      now rewrite trim_idem.
    + rewrite Hu. simpl. exact Ho.
    + apply replace_length.
    + intros o Hin Hne. apply replace_keeps; [exact Hin|].
      rewrite Hsaved. simpl. congruence.
Qed.

Lemma X18_addNote_appends_witness :
  let out := Endpoints.addNote (fun s => inr s) (Some (Controller.mkUser "user-7" "user"))
               (Some 0) (Some " call back ") Stored.two in
  Controller.success (fst out) = true /\
  List.length (Store.docs (snd out)) = 2.
Proof.
  intros out.
  destruct (@X18_addNote_appends (fun s => inr s) (Some (Controller.mkUser "user-7" "user"))
              (Some 0) (Some " call back ") Stored.two eq_refl)
    as (id & text & lead & saved & note & _ & _ & _ & _ & _ & _ & _ & _ & _ & _ & _ & Hlen & _).
  split; [reflexivity | exact Hlen].
Defined.

(** X19.  A note needs a lead and some text: without a lead identifier,
    without content, or with content that is empty or white space only,
    [addNote] answers 400 and changes nothing; and whatever the request,
    an answer other than success leaves the collection as it was, for
    [addNote], [assignLeads] and [deleteLead] alike. *)
Theorem X19_refused_requests_change_nothing (objectId : string -> string + string)
        (users : list string) (user : option Controller.User) (db : Store.t) :
  (forall leadId content,
     leadId = None \/ Js.trim (Controller.str content) = "" ->
     Controller.statusCode (fst (Endpoints.addNote objectId user leadId content db)) = 400 /\
     snd (Endpoints.addNote objectId user leadId content db) = db) /\
  (forall leadId content,
     Controller.success (fst (Endpoints.addNote objectId user leadId content db)) = false ->
     snd (Endpoints.addNote objectId user leadId content db) = db) /\
  (forall leadIds assignToUserId,
     Endpoints.l_success
       (fst (Endpoints.assignLeads users user leadIds assignToUserId db)) = false ->
     snd (Endpoints.assignLeads users user leadIds assignToUserId db) = db) /\
  (forall id,
     Controller.success (fst (Endpoints.deleteLead user id db)) = false ->
     snd (Endpoints.deleteLead user id db) = db).
Proof.
  split; [|split; [|split]].
  - intros leadId content H. unfold Endpoints.addNote.
    destruct leadId as [id|]; [|now split].
    destruct H as [H|H]; [discriminate|].
    destruct (Js.truthy content); [|now split].
    rewrite H. now split.
  - intros leadId content H.
    destruct (addNote_cases objectId user leadId content db)
      as [(_ & _ & Hs)|(id & text & lead & u & cb & saved & db' & _ & _ & _ & _ & _ & _ & _
                        & _ & Hout)]; [exact Hs|].
    rewrite Hout in H. discriminate H.
  - intros leadIds assignToUserId H.
    destruct (assignLeads_cases users user leadIds assignToUserId db)
      as [(_ & _ & Hs)|(ids & a & _ & _ & _ & _ & _ & _ & Hout)]; [exact Hs|].
    rewrite Hout in H. discriminate H.
  - intros id. unfold Endpoints.deleteLead.
    destruct (negb (Endpoints.isAdmin user)); [reflexivity|].
    destruct (Store.findById id db); [discriminate | reflexivity].
Qed.

(* ================================================================== *)
(** ** Invariants over all endpoints, and the frame of an update *)
(* ================================================================== *)

Section Everywhere.

Lemma invariant_drawId (s : Store.t) : invariant s -> invariant (Statics.drawId s).
Proof.
  intros (He & Hp & Hn & Hlt).
  unfold invariant, uniqueEmails, uniquePhones, distinctIds, Statics.drawId.
  cbn [Store.docs Store.nextId]. repeat split; try assumption.
  eapply Forall_impl; [|exact Hlt]. simpl. intros; lia.
Qed.

Lemma remove_first_Forall (P : Lead.t -> Prop) (id : nat) (l : list Lead.t) :
  Forall P l -> Forall P (Endpoints.remove_first id l).
Proof.
  induction 1 as [|o r Ho Hr IH]; cbn [Endpoints.remove_first]; [constructor|].
  destruct (Lead._id o =? id); [exact Hr | now constructor].
Qed.

Lemma replace_Forall (P : Lead.t -> Prop) (d : Lead.t) (l : list Lead.t) :
  P d -> Forall P l -> Forall P (Store.replace d l).
Proof.
  intros Hd. induction 1 as [|o r Ho Hr IH]; cbn [Store.replace]; [constructor|].
  destruct (Lead._id o =? Lead._id d); now constructor.
Qed.

Lemma createLead_refused (objectId : string -> string + string)
      (user : option Controller.User)
      (leadData : Controller.CreateLeadInput) (db : Store.t) :
  Controller.success (fst (Controller.createLead objectId user leadData db)) = false ->
  snd (Controller.createLead objectId user leadData db) = db.
Proof.
  unfold Controller.createLead.
  destruct (Controller.missingFields leadData); [|reflexivity].
  destruct (Store.findOne _ db); [reflexivity|].
  destruct (Store.findOne _ db); [reflexivity|].
  destruct (Controller.withInitialNote _ _ _ _ _) as [thrown|lead1]; [reflexivity|].
  destruct (Store.save_new false lead1 db) as [e|[saved db']];
    [reflexivity | discriminate].
Qed.

(** What a successful [updateLead] has done. *)
Lemma updateLead_updated (user : Controller.User) (id : nat)
      (updateData : Controller.UpdateLeadInput) (db : Store.t) :
  (Controller.success (fst (Controller.updateLead user id updateData db)) = false /\
   snd (Controller.updateLead user id updateData db) = db)
  \/
  (exists lead saved,
     Store.findById id db = Some lead /\ mayUpdate user lead /\
     (Store.findOne
       (fun d => String.eqb (Lead.email d)
                   (Js.trim (Js.toLowerCase (Controller.str (Controller.u_email updateData))))
                 && negb (Lead._id d =? id)) db = None
       \/ Js.truthy (Controller.u_email updateData) = false) /\
     (Store.findOne
        (fun d => String.eqb (Lead.phone d)
                    (Js.trim (Controller.str (Controller.u_phone updateData)))
                  && negb (Lead._id d =? id)) db = None
        \/ Js.truthy (Controller.u_phone updateData) = false) /\
     saved = Lead.preSave
               (negb (String.eqb (Lead.status (Controller.applyUpdate updateData lead))
                                 (Lead.status lead)))
               (Controller.applyUpdate updateData lead) /\
     Store.validate saved = [] /\
     Store.unique_violation saved (Store.others id (Store.docs db)) = None /\
     Controller.updateLead user id updateData db =
       (Controller.mkResponse 200 true "Lead updated successfully" [] (Some saved),
        Store.mk (Store.replace saved (Store.docs db)) (Store.nextId db))).
Proof.
  unfold Controller.updateLead.
  destruct (Store.findById id db) as [lead|] eqn:F; [|now left].
  destruct (findById_In _ _ F) as [_ Hid].
  destruct (negb (String.eqb (Controller.role user) "admin")
            && negb (String.eqb (Controller.String_of (Lead.assignedTo lead))
                                (Controller.userId user))) eqn:A; [now left|].
  destruct (if Js.truthy (Controller.u_email updateData) then _ else None) eqn:Ce;
    [now left|].
  destruct (if Js.truthy (Controller.u_phone updateData) then _ else None) eqn:Cp;
    [now left|].
  destruct (Store.save_existing _ _ db) as [e|[saved db']] eqn:S.
  - left. cbn [fst snd]. now rewrite caught_fails.
  - right. exists lead, saved.
    pose proof S as S'. apply save_existing_accepted in S'.
    destruct S' as (Hs & Hv & Hdb).
    repeat match goal with |- _ /\ _ => split end; try assumption; try reflexivity.
    + apply andb_false_iff in A. destruct A as [A|A].
      * left. apply negb_false_iff in A. now apply String.eqb_eq.
      * right. apply negb_false_iff in A. now apply String.eqb_eq.
    + destruct (Js.truthy (Controller.u_email updateData)); [now left | now right].
    + destruct (Js.truthy (Controller.u_phone updateData)); [now left | now right].
    + unfold Store.save_existing in S. destruct (Store.validate _); [|discriminate].
      destruct (Store.unique_violation _ _) eqn:U; [discriminate|].
      rewrite Hs. simpl in U. rewrite Hid in U. exact U.
    + now rewrite Hdb.
Qed.

Variable assignedBy : option string.

Lemma run_valid V (E : list string) (todo : list LeadData.t) : forall db,
  allValid db -> allValid (snd (Excel.processLeads assignedBy V E todo db)).
Proof.
  induction todo as [|L rest IH]; intros db Hv; [exact Hv|].
  destruct (run_cons assignedBy V E L rest db)
    as [(_ & ->)|[(_ & doc & db1 & Hc & ->)|(_ & err & _ & ->)]]; cbn [snd];
    apply IH; try exact Hv.
  unfold Store.create in Hc. pose proof (save_new_valid _ _ _ Hc) as [_ Hd].
  apply save_new_accepted in Hc. destruct Hc as (_ & Hdocs & _).
  unfold allValid. rewrite Hdocs. apply Forall_app. split; [exact Hv|].
  constructor; [exact Hd | constructor].
Qed.

End Everywhere.

(** X20.  The three other writing endpoints keep the uniqueness
    invariant of the collection as well: after [deleteLead],
    [assignLeads] or [addNote], accepted or not, no two leads share an
    e-mail, a phone number or an identifier. *)
Theorem X20_other_endpoints_keep_uniqueness (db : Store.t) :
  invariant db ->
  (forall user id, invariant (snd (Endpoints.deleteLead user id db))) /\
  (forall users user leadIds assignToUserId,
     invariant (snd (Endpoints.assignLeads users user leadIds assignToUserId db))) /\
  (forall objectId user leadId content,
     invariant (snd (Endpoints.addNote objectId user leadId content db))).
Proof.
  intros Hinv. split; [|split].
  - intros user id. unfold Endpoints.deleteLead.
    destruct (negb (Endpoints.isAdmin user)); [exact Hinv|].
    destruct (Store.findById id db); [|exact Hinv]. cbn [snd].
    rewrite remove_first_others by apply Hinv. now apply invariant_filter.
  - intros users user leadIds assignToUserId.
    destruct (assignLeads_cases users user leadIds assignToUserId db)
      as [(_ & _ & ->)|(ids & a & _ & _ & _ & _ & _ & _ & ->)]; [exact Hinv|].
    cbn [snd]. now apply updateMany_invariant.
  - intros objectId user leadId content.
    destruct (addNote_cases objectId user leadId content db)
      as [(_ & _ & ->)|(id & text & lead & u & cb & saved & db' & _ & _ & _ & _ & _ & _ & _
                        & Hs & ->)]; [exact Hinv|].
    cbn [snd]. destruct (statics_addNote_accepted _ _ _ _ Hs) as (_ & _ & -> & Hsave).
    apply save_existing_invariant in Hsave; [|exact Hinv].
    destruct Hsave as (Hinv' & _). exact (invariant_drawId Hinv').
Qed.

Lemma X20_other_endpoints_keep_uniqueness_witness :
  invariant (snd (Endpoints.deleteLead (Some Stored.admin) 0 Stored.two)) /\
  invariant (snd (Endpoints.addNote (fun s => inr s) (Some Stored.admin) (Some 1)
                    (Some "call back") Stored.two)).
Proof.
  assert (Hinv : invariant Stored.two).
  { unfold invariant, uniqueEmails, uniquePhones, distinctIds. simpl.
    repeat split;
      repeat (constructor; [simpl; intuition (discriminate || lia)|]);
      try constructor; try lia. }
  pose proof (@X20_other_endpoints_keep_uniqueness Stored.two Hinv) as (Hd & _ & Hn).
  split; [apply Hd | apply Hn].
Defined.

(** X21.  No endpoint stores a lead the schema would refuse: if every
    stored lead passes the validators of the schema, then so does every
    stored lead after [createLead], [updateLead], [importFromExcel],
    [deleteLead], [assignLeads] (which writes without validation) and
    [addNote], whatever the request. *)
Theorem X21_stored_leads_stay_valid (db : Store.t) :
  allValid db ->
  (forall objectId user leadData,
     allValid (snd (Controller.createLead objectId user leadData db))) /\
  (forall user id updateData, allValid (snd (Controller.updateLead user id updateData db))) /\
  (forall queryFails req, allValid (snd (Excel.importFromExcel queryFails req db))) /\
  (forall user id, allValid (snd (Endpoints.deleteLead user id db))) /\
  (forall users user leadIds assignToUserId,
     allValid (snd (Endpoints.assignLeads users user leadIds assignToUserId db))) /\
  (forall objectId user leadId content,
     allValid (snd (Endpoints.addNote objectId user leadId content db))).
Proof.
  intros Hv. repeat match goal with |- _ /\ _ => split end.
  - intros objectId user leadData.
    destruct (Controller.success (fst (Controller.createLead objectId user leadData db)))
      eqn:Ok.
    + destruct (createLead_created objectId user leadData db Ok)
        as (saved & _ & -> & _ & _ & _ & Hs).
      unfold allValid. cbn [Store.docs]. apply Forall_app. split; [exact Hv|].
      constructor; [exact Hs | constructor].
    + now rewrite createLead_refused.
  - intros user id updateData.
    destruct (updateLead_updated user id updateData db)
      as [(_ & ->)|(lead & saved & _ & _ & _ & _ & _ & Hs & _ & ->)]; [exact Hv|].
    cbn [snd]. unfold allValid. cbn [Store.docs]. now apply replace_Forall.
  - intros queryFails req.
    pose proof (importFromExcel_cases queryFails req db) as C.
    destruct (firstSheet req) as [sheet|].
    + destruct queryFails; rewrite C; [exact Hv|].
      rewrite importSheet_phases. cbn [snd]. now apply run_valid.
    + destruct C as (msg & errs & ->). exact Hv.
  - intros user id. unfold Endpoints.deleteLead.
    destruct (negb (Endpoints.isAdmin user)); [exact Hv|].
    destruct (Store.findById id db); [|exact Hv]. cbn [snd].
    unfold allValid. cbn [Store.docs]. now apply remove_first_Forall.
  - intros users user leadIds assignToUserId.
    destruct (assignLeads_cases users user leadIds assignToUserId db)
      as [(_ & _ & ->)|(ids & a & _ & _ & _ & _ & _ & _ & ->)]; [exact Hv|].
    cbn [snd]. unfold allValid, Endpoints.updateMany. cbn [Store.docs].
    apply Forall_map. eapply Forall_impl; [|exact Hv]. intros d Hd.
    destruct (Endpoints.targeted ids d); [|exact Hd].
    now rewrite validate_assignTo.
  - intros objectId user leadId content.
    destruct (addNote_cases objectId user leadId content db)
      as [(_ & _ & ->)|(id & text & lead & u & cb & saved & db' & _ & _ & _ & _ & _ & _ & _
                        & Hs & ->)]; [exact Hv|].
    cbn [snd]. destruct (statics_addNote_accepted _ _ _ _ Hs) as (_ & Hsv & -> & _).
    unfold allValid. cbn [Store.docs]. now apply replace_Forall.
Qed.

Lemma X21_stored_leads_stay_valid_witness :
  allValid Stored.two /\
  allValid (snd (Endpoints.assignLeads ["user-9"] (Some Stored.admin) (Some [0; 1])
                   (Some "user-9") Stored.two)).
Proof.
  assert (Hv : allValid Stored.two)
    by (unfold allValid; simpl; repeat constructor).
  split; [exact Hv|].
  apply (@X21_stored_leads_stay_valid Stored.two Hv).
Defined.

Section UpdateFrame.

Lemma find_replace (id : nat) (d : Lead.t) (l : list Lead.t) (o : Lead.t) :
  Lead._id d = id ->
  find (fun x => Lead._id x =? id) l = Some o ->
  find (fun x => Lead._id x =? id) (Store.replace d l) = Some d.
Proof.
  intros Hd. induction l as [|x r IH]; [discriminate|].
  cbn [find Store.replace]. rewrite Hd.
  destruct (Lead._id x =? id) eqn:E; cbn [find].
  - intros _. rewrite Hd, Nat.eqb_refl. reflexivity.
  - rewrite E. exact IH.
Qed.

Lemma find_other_replace (q : Lead.t -> bool) (id : nat) (d : Lead.t) (l : list Lead.t) :
  Lead._id d = id ->
  find (fun x => q x && negb (Lead._id x =? id)) (Store.replace d l) =
  find (fun x => q x && negb (Lead._id x =? id)) l.
Proof.
  intros Hd. induction l as [|x r IH]; [reflexivity|].
  cbn [find Store.replace]. rewrite Hd.
  destruct (Lead._id x =? id) eqn:E; cbn [find].
  - rewrite Hd, Nat.eqb_refl. cbn [negb]. rewrite !andb_false_r. reflexivity.
  - rewrite ?E. destruct (q x); cbn [andb negb]; [reflexivity | exact IH].
Qed.

Lemma others_replace (id : nat) (d : Lead.t) (l : list Lead.t) :
  Lead._id d = id -> Store.others id (Store.replace d l) = Store.others id l.
Proof.
  intros Hd. unfold Store.others. induction l as [|x r IH]; [reflexivity|].
  cbn [filter Store.replace]. rewrite Hd.
  destruct (Lead._id x =? id) eqn:E; cbn [filter].
  - rewrite Hd, Nat.eqb_refl. reflexivity.
  - rewrite E. cbn [negb]. now rewrite IH.
Qed.

Lemma replace_replace (d : Lead.t) (l : list Lead.t) :
  Store.replace d (Store.replace d l) = Store.replace d l.
Proof.
  induction l as [|x r IH]; [reflexivity|].
  cbn [Store.replace]. destruct (Lead._id x =? Lead._id d) eqn:E; cbn [Store.replace].
  - now rewrite Nat.eqb_refl.
  - now rewrite E, IH.
Qed.

Lemma applyUpdate_preSave (updateData : Controller.UpdateLeadInput) (sm : bool)
      (d : Lead.t) :
  Controller.applyUpdate updateData
    (Lead.preSave sm (Controller.applyUpdate updateData d)) =
  Lead.preSave sm (Controller.applyUpdate updateData d).
Proof.
  unfold Lead.preSave, Lead.set_leadScore, Controller.applyUpdate,
    Controller.assign, Controller.assign_opt.
  destruct updateData as [n e p c po so st pr].
  cbn [Controller.u_name Controller.u_email Controller.u_phone Controller.u_company
       Controller.u_position Controller.u_source Controller.u_status
       Controller.u_priority].
  destruct sm, n, e, p, c, po, so, st, pr; reflexivity.
Qed.

End UpdateFrame.

(** X22.  A successful [updateLead] touches nothing but the fields it
    was given: the saved lead keeps its identifier, assignee, assigner and
    notes, every field absent from the request keeps its value, the
    score stays when the status does and otherwise becomes the score of
    the new status (between 10 and 100), and the saved lead passes the
    schema; the requester is an administrator or the assignee. *)
Theorem X22_updateLead_frame (user : Controller.User) (id : nat)
        (updateData : Controller.UpdateLeadInput) (db : Store.t) :
  let out := Controller.updateLead user id updateData db in
  Controller.success (fst out) = true ->
  exists lead saved,
    Store.findById id db = Some lead /\ mayUpdate user lead /\
    Controller.lead (fst out) = Some saved /\
    Store.docs (snd out) = Store.replace saved (Store.docs db) /\
    Lead._id saved = id /\
    Lead.assignedTo saved = Lead.assignedTo lead /\
    Lead.assignedBy saved = Lead.assignedBy lead /\
    Lead.notes saved = Lead.notes lead /\
    (Controller.u_name updateData = None -> Lead.name saved = Lead.name lead) /\
    (Controller.u_email updateData = None -> Lead.email saved = Lead.email lead) /\
    (Controller.u_phone updateData = None -> Lead.phone saved = Lead.phone lead) /\
    (Controller.u_company updateData = None -> Lead.company saved = Lead.company lead) /\
    (Controller.u_position updateData = None -> Lead.position saved = Lead.position lead) /\
    (Controller.u_source updateData = None -> Lead.source saved = Lead.source lead) /\
    (Controller.u_status updateData = None -> Lead.status saved = Lead.status lead) /\
    (Controller.u_priority updateData = None -> Lead.priority saved = Lead.priority lead) /\
    (Lead.status saved = Lead.status lead -> Lead.leadScore saved = Lead.leadScore lead) /\
    (Lead.status saved <> Lead.status lead ->
     Lead.leadScore saved = Lead.or_default (Lead.lookup (Lead.status saved) Lead.scoreMap) 50
     /\ 10 <= Lead.leadScore saved <= 100) /\
    Store.validate saved = [].
Proof.
  cbv zeta.
  destruct (updateLead_updated user id updateData db)
    as [(Hf & _)|(lead & saved & F & Hm & _ & _ & Hs & Hv & _ & ->)].
  - rewrite Hf. discriminate.
  - intros _. exists lead, saved. cbn [fst snd Controller.lead Store.docs].
    destruct (findById_In _ _ F) as [_ Hid].
    assert (Hfield : forall (B : Type) (f : Lead.t -> B),
               (forall n d, f (Lead.set_leadScore n d) = f d) ->
               f saved = f (Controller.applyUpdate updateData lead)).
    { intros B f Hf. rewrite Hs. unfold Lead.preSave.
      destruct (negb _); [apply Hf | reflexivity]. }
    assert (Hst : Lead.status saved = Lead.status (Controller.applyUpdate updateData lead))
      by (apply Hfield; reflexivity).
    repeat match goal with |- _ /\ _ => split end;
      try assumption; try reflexivity;
      try (rewrite Hfield by reflexivity; simpl; first [exact Hid | reflexivity]);
      try (intros E; rewrite Hfield by reflexivity; simpl; rewrite E; reflexivity).
    + intros E. rewrite Hst in E. rewrite Hs, E, String.eqb_refl. reflexivity.
    + intros H. rewrite Hst in H. apply String.eqb_neq in H.
      assert (Hscore : Lead.leadScore saved =
                       Lead.or_default (Lead.lookup (Lead.status saved) Lead.scoreMap) 50).
      { rewrite Hst. rewrite Hs, H. reflexivity. }
      split; [exact Hscore | rewrite Hscore; apply score_range].
Qed.

Lemma X22_updateLead_frame_witness :
  let out := Controller.updateLead Stored.admin 1 Stored.boWon Stored.two in
  Controller.success (fst out) = true /\
  exists saved, Controller.lead (fst out) = Some saved /\ Lead.notes saved = [] /\
                Lead.email saved = "bo@x.com".
Proof.
  intros out. split; [reflexivity|].
  destruct (@X22_updateLead_frame Stored.admin 1 Stored.boWon Stored.two eq_refl)
    as (lead & saved & F & _ & Hl & _ & _ & _ & _ & Hn & _ & He & _).
  exists saved. vm_compute in F. inversion F. subst lead.
  split; [exact Hl|]. split; [exact Hn | exact (He eq_refl)].
Defined.

(** X23.  [updateLead] is idempotent: a request that succeeded succeeds
    again when it is repeated, with the same answer, and leaves the
    collection exactly as the first request left it. *)
Theorem X23_updateLead_idempotent (user : Controller.User) (id : nat)
        (updateData : Controller.UpdateLeadInput) (db : Store.t) :
  Controller.success (fst (Controller.updateLead user id updateData db)) = true ->
  Controller.updateLead user id updateData
    (snd (Controller.updateLead user id updateData db)) =
  Controller.updateLead user id updateData db.
Proof.
  intros Hok.
  destruct (updateLead_updated user id updateData db)
    as [(Hf & _)|(lead & saved & F & Hm & Ce & Cp & Hs & Hv & Hu & Hout)].
  - rewrite Hf in Hok. discriminate.
  - rewrite Hout. cbn [snd].
    destruct (findById_In _ _ F) as [_ Hid].
    assert (Hsid : Lead._id saved = id).
    { rewrite Hs. rewrite preSave_id. exact Hid. }
    assert (Hto : Lead.assignedTo saved = Lead.assignedTo lead).
    { rewrite Hs. unfold Lead.preSave. destruct (negb _); reflexivity. }
    unfold Controller.updateLead at 1.
    unfold Store.findById, Store.findOne. cbn [Store.docs].
    unfold Store.findById, Store.findOne in F.
    rewrite (@find_replace id saved (Store.docs db) lead Hsid F), Hto.
    assert (A : negb (String.eqb (Controller.role user) "admin")
                && negb (String.eqb (Controller.String_of (Lead.assignedTo lead))
                                    (Controller.userId user)) = false).
    { destruct Hm as [-> | ->]; [reflexivity|].
      rewrite String.eqb_refl. apply andb_false_r. }
    rewrite A. rewrite !(fun q => @find_other_replace q id saved (Store.docs db) Hsid).
    assert (Ce' : (if Js.truthy (Controller.u_email updateData)
                   then find (fun d => String.eqb (Lead.email d)
                                (Js.trim (Js.toLowerCase
                                   (Controller.str (Controller.u_email updateData))))
                              && negb (Lead._id d =? id)) (Store.docs db)
                   else None) = None).
    { destruct Ce as [Ce|Ce]; [|now rewrite Ce].
      unfold Store.findOne in Ce. rewrite Ce.
      destruct (Js.truthy (Controller.u_email updateData)); reflexivity. }
    assert (Cp' : (if Js.truthy (Controller.u_phone updateData)
                   then find (fun d => String.eqb (Lead.phone d)
                                (Js.trim (Controller.str (Controller.u_phone updateData)))
                              && negb (Lead._id d =? id)) (Store.docs db)
                   else None) = None).
    { destruct Cp as [Cp|Cp]; [|now rewrite Cp].
      unfold Store.findOne in Cp. rewrite Cp.
      destruct (Js.truthy (Controller.u_phone updateData)); reflexivity. }
    rewrite Ce', Cp'.
    assert (Hfix : Controller.applyUpdate updateData saved = saved).
    { rewrite Hs. apply applyUpdate_preSave. }
    rewrite Hfix, String.eqb_refl. cbn [negb].
    unfold Store.save_existing. rewrite Hv, preSave_unmodified. cbn [Store.docs Store.nextId].
    rewrite Hsid, (@others_replace id saved (Store.docs db) Hsid), Hu, replace_replace.
    reflexivity.
Qed.

Lemma X23_updateLead_idempotent_witness :
  let once := Controller.updateLead Stored.admin 1 Stored.boWon Stored.two in
  Controller.success (fst once) = true /\
  Controller.updateLead Stored.admin 1 Stored.boWon (snd once) = once.
Proof.
  intros once. split; [reflexivity|].
  exact (@X23_updateLead_idempotent Stored.admin 1 Stored.boWon Stored.two eq_refl).
Defined.

(* ================================================================== *)
(** ** The field mapper: proposed and edited mappings *)
(* ================================================================== *)

Section MappingEdits.

Implicit Types (leadFields : list Mapper.LeadFieldDefinition)
         (ms : list Mapper.FieldMapping) (headers : list string).

Lemma initial_In leadFields headers (m : Mapper.FieldMapping) :
  In m (Mapper.initializeFieldMappings leadFields headers) <->
  exists f, In f leadFields /\
    (Js.truthy (Mapper.matchedHeader f headers) || Mapper.required f) = true /\
    m = Mapper.mkMapping (Mapper.name f)
          (match Mapper.matchedHeader f headers with Some h => h | None => "" end)
          (Mapper.required f) (Mapper.defaultValue f).
Proof.
  unfold Mapper.initializeFieldMappings. rewrite in_flat_map. split.
  - intros (f & Hf & Hm). exists f. split; [exact Hf|].
    destruct (Js.truthy (Mapper.matchedHeader f headers) || Mapper.required f);
      [|contradiction].
    destruct Hm as [<-|[]]. split; reflexivity.
  - intros (f & Hf & Hc & ->). exists f. split; [exact Hf|]. rewrite Hc. now left.
Qed.

Lemma initial_names leadFields headers :
  incl (map Mapper.leadField (Mapper.initializeFieldMappings leadFields headers))
       (map Mapper.name leadFields).
Proof.
  intros x Hx. apply in_map_iff in Hx. destruct Hx as (m & <- & Hm).
  apply initial_In in Hm. destruct Hm as (f & Hf & _ & ->). simpl. now apply in_map.
Qed.

Lemma initial_NoDup leadFields headers :
  NoDup (map Mapper.name leadFields) ->
  NoDup (map Mapper.leadField (Mapper.initializeFieldMappings leadFields headers)).
Proof.
  induction leadFields as [|f r IH]; intros H; [constructor|].
  cbn [map] in H. inversion H as [|? ? Hf Hr]. subst.
  change (Mapper.initializeFieldMappings (f :: r) headers)
    with ((if Js.truthy (Mapper.matchedHeader f headers) || Mapper.required f
           then [Mapper.mkMapping (Mapper.name f)
                   (match Mapper.matchedHeader f headers with Some h => h | None => "" end)
                   (Mapper.required f) (Mapper.defaultValue f)]
           else []) ++ Mapper.initializeFieldMappings r headers).
  destruct (Js.truthy (Mapper.matchedHeader f headers) || Mapper.required f);
    cbn [app map Mapper.leadField]; [|now apply IH].
  constructor; [|now apply IH]. intros Hin. apply Hf. now apply (initial_names r headers).
Qed.

Lemma matchedHeader_In (f : Mapper.LeadFieldDefinition) headers (h : string) :
  Mapper.matchedHeader f headers = Some h ->
  In h headers /\ Mapper.headerMatches f h = true.
Proof. unfold Mapper.matchedHeader. apply find_some. Qed.

Lemma includes_empty (s : string) : Js.includes s "" = true.
Proof. destruct s; reflexivity. Qed.

Lemma update_In (f c : string) ms (m : Mapper.FieldMapping) :
  In m (Edits.updateFieldMapping f c ms) <->
  exists m0, In m0 ms /\
    m = if String.eqb (Mapper.leadField m0) f
        then Mapper.mkMapping (Mapper.leadField m0) c (Mapper.isRequired m0)
                              (Mapper.mappingDefault m0)
        else m0.
Proof.
  unfold Edits.updateFieldMapping. rewrite in_map_iff. split.
  - intros (m0 & <- & H). now exists m0.
  - intros (m0 & H & ->). now exists m0.
Qed.

Lemma isMapped_spec ms (x : string) :
  Edits.isMapped ms x = true <-> In x (map Mapper.leadField ms).
Proof.
  unfold Edits.isMapped. rewrite existsb_exists, in_map_iff. split.
  - intros (m & Hm & E). apply String.eqb_eq in E. now exists m.
  - intros (m & E & Hm). exists m. split; [exact Hm | now apply String.eqb_eq].
Qed.

Lemma remove_absent (x : string) ms :
  ~ In x (map Mapper.leadField ms) -> Edits.removeFieldMapping x ms = ms.
Proof.
  unfold Edits.removeFieldMapping. induction ms as [|m r IH]; intros H; [reflexivity|].
  cbn [filter]. cbn [map] in H.
  destruct (String.eqb (Mapper.leadField m) x) eqn:E.
  - apply String.eqb_eq in E. exfalso. apply H. now left.
  - cbn [negb]. f_equal. apply IH. intros Hin. apply H. now right.
Qed.

Lemma unmapped_head leadFields ms (f : Mapper.LeadFieldDefinition)
      (rest : list Mapper.LeadFieldDefinition) :
  Edits.unmappedFields leadFields ms = f :: rest ->
  In f leadFields /\ Edits.isMapped ms (Mapper.name f) = false.
Proof.
  intros H. assert (Hin : In f (Edits.unmappedFields leadFields ms))
    by (rewrite H; now left).
  unfold Edits.unmappedFields in Hin. apply filter_In in Hin.
  destruct Hin as [Hf Hn]. split; [exact Hf | now apply negb_true_iff].
Qed.

(** The first entry of [unmappedFields] is the first field of the
    catalogue that has no mapping. *)
Lemma unmapped_first leadFields ms (f : Mapper.LeadFieldDefinition)
      (rest : list Mapper.LeadFieldDefinition) :
  Edits.unmappedFields leadFields ms = f :: rest ->
  exists before after,
    leadFields = before ++ f :: after /\
    (forall g, In g before -> In (Mapper.name g) (map Mapper.leadField ms)) /\
    ~ In (Mapper.name f) (map Mapper.leadField ms).
Proof.
  unfold Edits.unmappedFields.
  induction leadFields as [|x r IH]; cbn [filter]; [discriminate|].
  destruct (Edits.isMapped ms (Mapper.name x)) eqn:E; cbn [negb].
  - intros H. destruct (IH H) as (before & after & -> & Hb & Hf).
    exists (x :: before), after. repeat split; [|exact Hf].
    intros g [<-|Hg]; [now apply isMapped_spec | now apply Hb].
  - intros H. inversion H. subst x. exists [], r. repeat split.
    + intros g [].
    + intros Hin. apply isMapped_spec in Hin. congruence.
Qed.

End MappingEdits.

(** X24.  The proposed mapping covers the catalogue: every required
    field gets a mapping whatever the headers are; every mapping takes
    its name, required flag and default from a field of the catalogue and
    its column from a header that matches the field, or has no column;
    only a required field is proposed without a column; and no field is
    mapped twice when the catalogue names each field once. *)
Theorem X24_proposed_mappings_cover_the_catalogue
        (leadFields : list Mapper.LeadFieldDefinition) (headers : list string) :
  let ms := Mapper.initializeFieldMappings leadFields headers in
  (forall f, In f leadFields -> Mapper.required f = true ->
     exists m, In m ms /\ Mapper.leadField m = Mapper.name f /\
               Mapper.isRequired m = true) /\
  (forall m, In m ms ->
     exists f, In f leadFields /\ Mapper.leadField m = Mapper.name f /\
       Mapper.isRequired m = Mapper.required f /\
       Mapper.mappingDefault m = Mapper.defaultValue f /\
       (Mapper.excelColumn m = "" \/
        (In (Mapper.excelColumn m) headers /\
         Mapper.headerMatches f (Mapper.excelColumn m) = true))) /\
  (forall m, In m ms -> Mapper.excelColumn m = "" -> Mapper.isRequired m = true) /\
  (NoDup (map Mapper.name leadFields) -> NoDup (map Mapper.leadField ms)).
Proof.
  cbv zeta. split; [|split; [|split]].
  - intros f Hf Hr. eexists. split.
    + apply initial_In. exists f. split; [exact Hf|]. split; [|reflexivity].
      rewrite Hr. apply orb_true_r.
    + split; [reflexivity | exact Hr].
  - intros m Hm. apply initial_In in Hm. destruct Hm as (f & Hf & _ & ->).
    exists f. cbn [Mapper.leadField Mapper.isRequired Mapper.mappingDefault
                   Mapper.excelColumn].
    repeat split; try assumption.
    destruct (Mapper.matchedHeader f headers) as [h|] eqn:E; [|now left].
    right. now apply matchedHeader_In.
  - intros m Hm Hc. apply initial_In in Hm. destruct Hm as (f & _ & Ht & ->).
    cbn [Mapper.excelColumn Mapper.isRequired] in *.
    destruct (Mapper.matchedHeader f headers) as [h|]; [|exact Ht].
    subst h. exact Ht.
  - apply initial_NoDup.
Qed.

(** X25.  A header that is blank after trimming matches every field,
    because the empty text is contained in every name: when such a header
    (one or more white-space characters) stands first, every field of the
    catalogue is proposed with that column. *)
Theorem X25_blank_header_matches_every_field
        (leadFields : list Mapper.LeadFieldDefinition) (blank : string)
        (rest : list string) :
  blank <> "" -> Js.trim (Js.toLowerCase blank) = "" ->
  (forall f, Mapper.headerMatches f blank = true) /\
  Mapper.initializeFieldMappings leadFields (blank :: rest) =
  map (fun f => Mapper.mkMapping (Mapper.name f) blank (Mapper.required f)
                                 (Mapper.defaultValue f)) leadFields.
Proof.
  intros Hne Hb.
  assert (Hm : forall f, Mapper.headerMatches f blank = true).
  { intros f. unfold Mapper.headerMatches. rewrite Hb, includes_empty.
    apply orb_true_r. }
  split; [exact Hm|].
  unfold Mapper.initializeFieldMappings, Mapper.matchedHeader.
  induction leadFields as [|f r IH]; [reflexivity|].
  cbn [flat_map map find]. rewrite Hm. cbn [Js.truthy].
  destruct blank; [contradiction|]. cbn [Js.is_empty negb orb app].
  f_equal. exact IH.
Qed.

Lemma X25_blank_header_matches_every_field_witness :
  Mapper.initializeFieldMappings [Catalog.nameField; Catalog.sourceField] [" "; "Name"] =
  [Mapper.mkMapping "name" " " true None; Mapper.mkMapping "source" " " false (Some "Import")].
Proof.
  refine (proj2 (@X25_blank_header_matches_every_field
                   [Catalog.nameField; Catalog.sourceField] " " ["Name"] _ eq_refl)).
  discriminate.
Defined.

(** X26.  [validateMappings] accepts a mapping exactly when every
    required entry has a column; the mappings [executeImport] sends are
    those with a column, so after a successful check every required
    mapping is among them. *)
Theorem X26_validated_mappings_are_sent (ms : list Mapper.FieldMapping) :
  (Edits.validateMappings ms = true <->
   forall m, In m ms -> Mapper.isRequired m = true -> Mapper.excelColumn m <> "") /\
  (forall m, In m (Edits.sentMappings ms) <-> In m ms /\ Mapper.excelColumn m <> "") /\
  (Edits.validateMappings ms = true ->
   forall m, In m ms -> Mapper.isRequired m = true -> In m (Edits.sentMappings ms)).
Proof.
  assert (Hcol : forall m, Edits.hasColumn m = true <-> Mapper.excelColumn m <> "").
  { intros m. unfold Edits.hasColumn. rewrite negb_true_iff.
    destruct (Mapper.excelColumn m); simpl; split; congruence. }
  assert (Hv : Edits.validateMappings ms = true <->
               forall m, In m ms -> Mapper.isRequired m = true ->
                         Mapper.excelColumn m <> "").
  { unfold Edits.validateMappings.
    destruct (filter (fun mapping => negb (Edits.hasColumn mapping))
                     (filter Mapper.isRequired ms)) as [|x r] eqn:E; cbn.
    - split; [|reflexivity]. intros _ m Hm Hr. apply Hcol.
      pose proof (proj1 (filter_nil _ _) E m) as N.
      rewrite filter_In in N. specialize (N (conj Hm Hr)).
      now apply negb_false_iff in N.
    - split; [discriminate|]. intros H. exfalso.
      assert (Hx : In x (x :: r)) by now left. rewrite <- E in Hx.
      apply filter_In in Hx. destruct Hx as [Hx Hn]. apply filter_In in Hx.
      destruct Hx as [Hx Hr]. apply negb_true_iff in Hn.
      specialize (H x Hx Hr). apply Hcol in H. congruence. }
  split; [exact Hv|]. split.
  - intros m. unfold Edits.sentMappings. rewrite filter_In, Hcol. reflexivity.
  - intros Hok m Hm Hr. unfold Edits.sentMappings. apply filter_In.
    split; [exact Hm|]. apply Hcol. exact (proj1 Hv Hok m Hm Hr).
Qed.

(** X27.  [updateFieldMapping] writes one column and nothing else: the
    fields mapped, their order, flags and defaults stay, every entry of
    the named field gets the column, all others are kept; the last write
    to a field wins, and writes to different fields commute. *)
Theorem X27_updateFieldMapping_writes_one_column (ms : list Mapper.FieldMapping)
        (f c : string) :
  map Mapper.leadField (Edits.updateFieldMapping f c ms) = map Mapper.leadField ms /\
  map Mapper.isRequired (Edits.updateFieldMapping f c ms) = map Mapper.isRequired ms /\
  map Mapper.mappingDefault (Edits.updateFieldMapping f c ms) = map Mapper.mappingDefault ms /\
  (forall m, In m (Edits.updateFieldMapping f c ms) -> Mapper.leadField m = f ->
             Mapper.excelColumn m = c) /\
  (forall m, In m ms -> Mapper.leadField m <> f -> In m (Edits.updateFieldMapping f c ms)) /\
  (forall c', Edits.updateFieldMapping f c' (Edits.updateFieldMapping f c ms) =
              Edits.updateFieldMapping f c' ms) /\
  (forall g c', f <> g ->
     Edits.updateFieldMapping f c (Edits.updateFieldMapping g c' ms) =
     Edits.updateFieldMapping g c' (Edits.updateFieldMapping f c ms)).
Proof.
  assert (Hmap : forall (B : Type) (p : Mapper.FieldMapping -> B),
             (forall m c0, p (Mapper.mkMapping (Mapper.leadField m) c0 (Mapper.isRequired m)
                                               (Mapper.mappingDefault m)) = p m) ->
             map p (Edits.updateFieldMapping f c ms) = map p ms).
  { intros B p Hp. unfold Edits.updateFieldMapping. rewrite map_map. apply map_ext.
    intros m. destruct (String.eqb (Mapper.leadField m) f); [apply Hp | reflexivity]. }
  repeat match goal with |- _ /\ _ => split end.
  - apply Hmap. reflexivity.
  - apply Hmap. reflexivity.
  - apply Hmap. reflexivity.
  - intros m Hm Hf. apply update_In in Hm. destruct Hm as (m0 & _ & ->).
    destruct (String.eqb (Mapper.leadField m0) f) eqn:E; [reflexivity|].
    apply String.eqb_neq in E. contradiction.
  - intros m Hm Hne. apply update_In. exists m. split; [exact Hm|].
    apply String.eqb_neq in Hne. now rewrite Hne.
  - intros c'. unfold Edits.updateFieldMapping. rewrite map_map. apply map_ext.
    intros m. destruct (String.eqb (Mapper.leadField m) f) eqn:E;
      cbn [Mapper.leadField Mapper.isRequired Mapper.mappingDefault]; now rewrite E.
  - intros g c' Hne. unfold Edits.updateFieldMapping. rewrite !map_map. apply map_ext.
    intros m.
    destruct (String.eqb (Mapper.leadField m) g) eqn:Eg;
      destruct (String.eqb (Mapper.leadField m) f) eqn:Ef;
      cbn [Mapper.leadField Mapper.isRequired Mapper.mappingDefault];
      rewrite ?Eg, ?Ef; try reflexivity.
    apply String.eqb_eq in Eg. apply String.eqb_eq in Ef. congruence.
Qed.

(** X28.  [addFieldMapping] appends the first field of the catalogue
    that is not mapped yet (every field before it in the catalogue is
    mapped), without column, and does nothing when every field is mapped;
    it never maps a field twice; [removeFieldMapping] keeps exactly the
    entries of the other fields, and for the field just added it gives
    back the mapping as it was. *)
Theorem X28_add_then_remove (leadFields : list Mapper.LeadFieldDefinition)
        (ms : list Mapper.FieldMapping) :
  ((Edits.addFieldMapping leadFields ms = ms /\
    forall f, In f leadFields -> In (Mapper.name f) (map Mapper.leadField ms))
   \/
   exists before f after,
     leadFields = before ++ f :: after /\
     (forall g, In g before -> In (Mapper.name g) (map Mapper.leadField ms)) /\
     ~ In (Mapper.name f) (map Mapper.leadField ms) /\
     Edits.addFieldMapping leadFields ms =
       ms ++ [Mapper.mkMapping (Mapper.name f) "" (Mapper.required f)
                               (Mapper.defaultValue f)] /\
     Edits.removeFieldMapping (Mapper.name f) (Edits.addFieldMapping leadFields ms) = ms) /\
  (NoDup (map Mapper.leadField ms) ->
   NoDup (map Mapper.leadField (Edits.addFieldMapping leadFields ms))) /\
  (forall x m, In m (Edits.removeFieldMapping x ms) <-> In m ms /\ Mapper.leadField m <> x).
Proof.
  split; [|split].
  - unfold Edits.addFieldMapping.
    destruct (Edits.unmappedFields leadFields ms) as [|f rest] eqn:E.
    + left. split; [reflexivity|]. intros f Hf. apply isMapped_spec.
      pose proof (proj1 (filter_nil _ _) E f Hf) as N. now apply negb_false_iff in N.
    + right. destruct (unmapped_first _ _ E) as (before & after & Hl & Hb & Hnot).
      exists before, f, after.
      repeat match goal with |- _ /\ _ => split end; try assumption; try reflexivity.
      unfold Edits.removeFieldMapping. rewrite filter_app.
      fold (Edits.removeFieldMapping (Mapper.name f) ms).
      rewrite (remove_absent _ _ Hnot). cbn [filter Mapper.leadField].
      rewrite String.eqb_refl. cbn [negb]. apply app_nil_r.
  - intros Hnd. unfold Edits.addFieldMapping.
    destruct (Edits.unmappedFields leadFields ms) as [|f rest] eqn:E; [exact Hnd|].
    destruct (unmapped_head _ _ E) as [_ Hn].
    rewrite map_app. cbn [map Mapper.leadField]. apply NoDup_snoc; [exact Hnd|].
    intros Hin. apply isMapped_spec in Hin. congruence.
  - intros x m. unfold Edits.removeFieldMapping. rewrite filter_In, negb_true_iff.
    split; intros [Hm Hx]; (split; [exact Hm|]);
      [now apply String.eqb_neq | now apply String.eqb_neq].
Qed.

(* ================================================================== *)
(** ** The form of the Add Lead page and the import template *)
(* ================================================================== *)

Section FormAndTemplate.

Lemma trim_nonempty (s : string) : Js.is_empty (Js.trim s) = false -> s <> "".
Proof. intros H ->. discriminate H. Qed.

Lemma truthy_some (s : string) : s <> "" -> Js.truthy (Some s) = true.
Proof. destruct s; [contradiction | reflexivity]. Qed.

Lemma create_fresh (inp : Store.Input) (s : Store.t) :
  Store.validate (Store.construct 0 inp) = [] ->
  Js.mem (Store.set_email (Store.or_else (Store.in_email inp) ""))
         (map Lead.email (Store.docs s)) = false ->
  Js.mem (Store.set_trim (Store.or_else (Store.in_phone inp) ""))
         (map Lead.phone (Store.docs s)) = false ->
  let d := Lead.preSave (match Store.in_status inp with Some _ => true | None => false end)
                        (Store.construct (Store.nextId s) inp) in
  Store.create inp s = inr (d, Store.mk (Store.docs s ++ [d]) (S (Store.nextId s))).
Proof.
  intros Hv He Hp. cbv zeta. unfold Store.create, Store.save_new.
  rewrite (construct_set_id (Store.nextId s) 0 inp).
  rewrite (validate_id_irrelevant (Store.nextId s) 0).
  rewrite <- (construct_set_id 0 0 inp), Hv.
  assert (U : Store.unique_violation
                (Lead.preSave (match Store.in_status inp with
                               | Some _ => true | None => false end)
                              (Lead.set_id (Store.nextId s) (Store.construct 0 inp)))
                (Store.docs s) = None).
  { apply unique_violation_none. rewrite preSave_email, preSave_phone. now split. }
  rewrite U. reflexivity.
Qed.

End FormAndTemplate.

(** X29.  A form the Add Lead page lets through is never answered with
    Missing required fields: the body it posts names name, e-mail and
    phone, name and phone are not blank after the schema has trimmed
    them, and the e-mail still matches the e-mail expression after the
    schema has trimmed and lower-cased it. *)
Theorem X29_checked_form_has_required_fields (objectId : string -> string + string)
        (formData : AddLead.CreateLeadForm)
        (user : option Controller.User) (db : Store.t) :
  AddLead.validateForm formData = true ->
  Controller.missingFields (AddLead.body formData) = [] /\
  Controller.message (fst (Controller.createLead objectId user (AddLead.body formData) db))
    <> "Missing required fields" /\
  Store.set_trim (AddLead.name formData) <> "" /\
  Store.set_trim (AddLead.phone formData) <> "" /\
  Regex.test Lead.emailRegex (Store.set_email (AddLead.email formData)) = true.
Proof.
  unfold AddLead.validateForm, AddLead.formErrors. intros H.
  destruct (Js.is_empty (Js.trim (AddLead.name formData))) eqn:Hn; [discriminate H|].
  destruct (Js.is_empty (Js.trim (AddLead.email formData))) eqn:He; [discriminate H|].
  destruct (Regex.test Lead.emailRegex (AddLead.email formData)) eqn:Ht;
    [|discriminate H].
  destruct (Js.is_empty (Js.trim (AddLead.phone formData))) eqn:Hp; [discriminate H|].
  clear H.
  assert (Hmiss : Controller.missingFields (AddLead.body formData) = []).
  { unfold Controller.missingFields, AddLead.body.
    cbn [Controller.c_name Controller.c_email Controller.c_phone].
    rewrite (truthy_some (@trim_nonempty _ Hn)), (truthy_some (@trim_nonempty _ He)),
      (truthy_some (@trim_nonempty _ Hp)). reflexivity. }
  repeat match goal with |- _ /\ _ => split end.
  - exact Hmiss.
  - unfold Controller.createLead. rewrite Hmiss.
    destruct (Store.findOne _ db); [cbn; discriminate|].
    destruct (Store.findOne _ db); [cbn; discriminate|].
    destruct (Controller.withInitialNote _ _ _ _ _) as [thrown|lead1];
      [cbn; discriminate|].
    destruct (Store.save_new false lead1 db) as [e|[saved db']]; [|cbn; discriminate].
    unfold Controller.caught. destruct (Store.getDuplicateError e); cbn; discriminate.
  - unfold Store.set_trim. intros E. rewrite E in Hn. discriminate Hn.
  - unfold Store.set_trim. intros E. rewrite E in Hp. discriminate Hp.
  - destruct (emailRegex_accepts _ Ht) as (_ & _ & Hlow).
    destruct (emailRegex_accepts _ Hlow) as (_ & Htrim & _).
    unfold Store.set_email. rewrite Htrim. exact Hlow.
Qed.

Lemma X29_checked_form_has_required_fields_witness :
  let formData := AddLead.mkForm "Cy" "Cy@X.com" "555-0003" "" "" "" "Manual" "Medium" "" in
  AddLead.validateForm formData = true /\
  Controller.missingFields (AddLead.body formData) = [].
Proof.
  intros formData. split; [reflexivity|].
  apply (@X29_checked_form_has_required_fields (fun s => inr s) formData None
           Sample.emptyStore eq_refl).
Defined.

(** X30.  The template the server hands out imports cleanly: uploaded
    as it was downloaded into a collection that holds neither of its two
    sample addresses nor their phone numbers, both rows pass the
    validator and the schema, two leads are created and nothing is
    reported. *)
Theorem X30_template_imports_cleanly (userId : option string) (db : Store.t) :
  Js.mem "john.doe@example.com" (map Lead.email (Store.docs db)) = false ->
  Js.mem "jane.smith@company.com" (map Lead.email (Store.docs db)) = false ->
  Js.mem "+1-555-0123" (map Lead.phone (Store.docs db)) = false ->
  Js.mem "+1-555-0124" (map Lead.phone (Store.docs db)) = false ->
  let john :=
    Lead.mk (Store.nextId db) "John Doe" "john.doe@example.com" "+1-555-0123"
            (Some "Example Corp") (Some "Manager") "Website" "New" "High" None userId [] 20 in
  let jane :=
    Lead.mk (S (Store.nextId db)) "Jane Smith" "jane.smith@company.com" "+1-555-0124"
            (Some "Company Inc") (Some "Director") "Social Media" "New" "Medium" None
            userId [] 20 in
  let out := Excel.importFromExcel false (Template.upload userId) db in
  Excel.statusCode (fst out) = 200 /\
  Excel.data (fst out) = Excel.mkData 2 2 0 [] [john; jane] /\
  snd out = Store.mk (Store.docs db ++ [john; jane]) (S (S (Store.nextId db))).
Proof.
  intros He1 He2 Hp1 Hp2. cbv zeta.
  change (Excel.importFromExcel false (Template.upload userId) db)
    with (Excel.importSheet userId Template.templateData db).
  rewrite importSheet_phases. unfold loopOf, validationErrorsOf.
  set (L1 := LeadData.mk "John Doe" "john.doe@example.com" "+1-555-0123" "Example Corp"
                         "Manager" "Website" "High" "New").
  set (L2 := LeadData.mk "Jane Smith" "jane.smith@company.com" "+1-555-0124" "Company Inc"
                         "Director" "Social Media" "Medium" "New").
  assert (HV : Excel.validateRows (Excel.jsonData Template.templateData) 0 = ([L1; L2], []))
    by (vm_compute; reflexivity).
  assert (HVl : validLeadsOf Template.templateData = [L1; L2])
    by (unfold validLeadsOf; now rewrite HV).
  assert (HU : proceedingLeadsOf Template.templateData = [L1; L2])
    by (unfold proceedingLeadsOf; rewrite HVl; vm_compute; reflexivity).
  assert (HD : Excel.duplicateErrors (Excel.buildEmailMap [] 0 [L1; L2]) = [])
    by (vm_compute; reflexivity).
  assert (HN : List.length (Excel.jsonData Template.templateData) = 2)
    by (vm_compute; reflexivity).
  rewrite HU, HVl, HV, HD, HN. cbn [snd].
  cbn [Excel.processLeads]. rewrite !mem_find_emails_in.
  cbn [LeadData.email L1 L2]. rewrite He1, He2, !andb_false_r.
  assert (V1 : Store.validate (Store.construct 0 (Excel.toInput L1 userId)) = [])
    by (vm_compute; reflexivity).
  assert (V2 : Store.validate (Store.construct 0 (Excel.toInput L2 userId)) = [])
    by (vm_compute; reflexivity).
  rewrite (create_fresh (Excel.toInput L1 userId) db V1 He1 Hp1).
  assert (He2' : Js.mem (Store.set_email (Store.or_else
                           (Store.in_email (Excel.toInput L2 userId)) ""))
                        (map Lead.email
                           (Store.docs db ++
                            [Lead.preSave true
                               (Store.construct (Store.nextId db)
                                  (Excel.toInput L1 userId))])) = false).
  { rewrite map_app, mem_app. change (Store.set_email _) with "jane.smith@company.com".
    rewrite He2. reflexivity. }
  assert (Hp2' : Js.mem (Store.set_trim (Store.or_else
                           (Store.in_phone (Excel.toInput L2 userId)) ""))
                        (map Lead.phone
                           (Store.docs db ++
                            [Lead.preSave true
                               (Store.construct (Store.nextId db)
                                  (Excel.toInput L1 userId))])) = false).
  { rewrite map_app, mem_app. change (Store.set_trim _) with "+1-555-0124".
    rewrite Hp2. reflexivity. }
  cbn [Excel.toInput Store.in_status] in *.
  match goal with
  | |- context [Store.create ?inp ?s] =>
      rewrite (create_fresh inp s V2 He2' Hp2')
  end.
  cbn [fst snd Excel.statusCode Excel.data List.length Nat.sub app Store.docs Store.nextId].
  rewrite <- app_assoc. repeat split.
Qed.

Lemma X30_template_imports_cleanly_witness :
  Excel.successfulImports
    (Excel.data (fst (Excel.importFromExcel false (Template.upload (Some "admin-1"))
                        Inputs.storeWithAnn))) = 2.
Proof.
  pose proof (@X30_template_imports_cleanly (Some "admin-1") Inputs.storeWithAnn
                eq_refl eq_refl eq_refl eq_refl) as (_ & H & _).
  rewrite H. reflexivity.
Defined.
